(** * A basic proof-of-work ledger: shallow embedding of [blockchain.py]

    The development follows the Python source class by class:
    [Transaction], [Block] and [BlockchainNode].  Python floats are IEEE-754
    binary64 numbers and are modelled by Rocq's primitive floats, Python
    integers by [Z], [str] and [bytes] by [string].  Mutable objects are
    modelled by explicit state passing: a method returns the object after the
    call next to its result.

    What the program gets from outside the repository (the [hashlib] digest,
    [rsa.verify], the textual form of floats and byte strings) is collected in
    the class [Runtime]; every definition and theorem is parametric in it. *)

From Stdlib Require Import ZArith List String Ascii Bool Lia.
From Stdlib Require Import Floats DecimalString.
Import ListNotations.

Local Open Scope string_scope.
Local Open Scope Z_scope.

(** ** Addresses: [rsa.PublicKey] objects, or [None] *)

(** [rsa.PublicKey] carries the modulus and the public exponent; its [__eq__]
    compares both, and never equals [None]. *)
Record PublicKey : Type := mkPublicKey { pk_n : Z; pk_e : Z }.

Definition PublicKey_eqb (k1 k2 : PublicKey) : bool :=
  (pk_n k1 =? pk_n k2) && (pk_e k1 =? pk_e k2).

(** [a == b] on values that are a [PublicKey] or [None]. *)
Definition address_eqb (a b : option PublicKey) : bool :=
  match a, b with
  | Some k1, Some k2 => PublicKey_eqb k1 k2
  | None, None => true
  | _, _ => false
  end.

(** ** Text *)

(** [str] of a Python [int]. *)
Definition str_int (z : Z) : string := NilZero.string_of_int (Z.to_int z).

(** [x.endswith(suffix)]. *)
Definition endswith (x suffix : string) : bool :=
  let lx := String.length x in
  let ls := String.length suffix in
  (ls <=? lx)%nat && String.eqb (substring (lx - ls) ls x) suffix.

(** [', '.join(l)] *)
Fixpoint join_comma (l : list string) : string :=
  match l with
  | [] => EmptyString
  | [x] => x
  | x :: rest => x ++ ", " ++ join_comma rest
  end.

(** ** What the interpreter and the libraries provide *)

Class Runtime : Type := {
  (** [hashlib.sha256(data).hexdigest()] *)
  sha256_hexdigest : string -> string;
  (** [rsa.verify(message, signature, pub_key)] returns normally ([true]) or
      raises ([false]) *)
  rsa_verify : string -> string -> PublicKey -> bool;
  (** [str] (and [repr]) of a float *)
  str_float : float -> string;
  (** [repr] of a [bytes] object *)
  repr_bytes : string -> string
}.

(** ** Transaction *)

Record Transaction : Type := mkTransaction {
  sender_address : option PublicKey;
  recipient_address : PublicKey;
  value : float;
  signature : option string
}.

(** [str] of an address: ['PublicKey(%i, %i)'] or ['None']. *)
Definition str_address (a : option PublicKey) : string :=
  match a with
  | Some k => "PublicKey(" ++ str_int (pk_n k) ++ ", " ++ str_int (pk_e k) ++ ")"
  | None => "None"
  end.

(** ** Block *)

Record Block : Type := mkBlock {
  num : Z;
  timestamp : float;
  prev_block_hash : string;
  transactions : list Transaction;
  block_hash : string;
  nonce : Z
}.

Definition set_block_hash (b : Block) (h : string) : Block :=
  mkBlock (num b) (timestamp b) (prev_block_hash b) (transactions b) h (nonce b).

Definition set_nonce (b : Block) (k : Z) : Block :=
  mkBlock (num b) (timestamp b) (prev_block_hash b) (transactions b) (block_hash b) k.

(** ** BlockchainNode *)

Definition REWARD_AMOUNT : float := 2%float.

Record BlockchainNode : Type := mkNode {
  miner_address : PublicKey;
  blocks : list Block;
  pending_transactions : list Transaction
}.

(** [self.proof_of_work_func], set once by [__init__]. *)
Definition proof_of_work_func (x : string) : bool := endswith x "000".

(** The exceptions, under the names the specification gives them.  The source
    raises [rsa]'s errors for the first, and [Exception] with a message for
    the others. *)
Inductive IntegrityViolation : Type :=
| PreviousHashesDoNotMatch
| WrongBlockHash (block_num : Z).

Inductive Error : Type :=
| SignatureInvalid
| InsufficientFunds (required available : float)
| ChainIntegrityError (v : IntegrityViolation).

Inductive Outcome : Type :=
| Returned
| Raised (err : Error).

(** [l[-1]] when the list is not empty. *)
Fixpoint list_last {A : Type} (l : list A) : option A :=
  match l with
  | [] => None
  | [x] => Some x
  | _ :: rest => list_last rest
  end.

Section WithRuntime.
Context {R : Runtime}.

Definition repr_signature (s : option string) : string :=
  match s with
  | Some b => repr_bytes b
  | None => "None"
  end.

(** The [repr] that [@dataclass] generates. *)
Definition repr_Transaction (t : Transaction) : string :=
  "Transaction(sender_address=" ++ str_address (sender_address t)
  ++ ", recipient_address=" ++ str_address (Some (recipient_address t))
  ++ ", value=" ++ str_float (value t)
  ++ ", signature=" ++ repr_signature (signature t) ++ ")".

(** [str] of a list of transactions. *)
Definition str_transactions (l : list Transaction) : string :=
  "[" ++ join_comma (map repr_Transaction l) ++ "]".

(** [Transaction.get_core_data] *)
Definition get_core_data (t : Transaction) : string :=
  str_address (sender_address t) ++ str_address (Some (recipient_address t))
  ++ str_float (value t).

(** [Transaction.validate]: [true] when the call returns, [false] when it
    raises.  [rsa.verify] reads [pub_key.n] and converts the signature to an
    integer before anything else, so a [None] key or a [None] signature
    raises as well. *)
Definition Transaction_validate (t : Transaction) : bool :=
  match sender_address t, signature t with
  | Some k, Some sig => rsa_verify (get_core_data t) sig k
  | _, _ => false
  end.

(** [Block.get_header] *)
Definition get_header (b : Block) : string :=
  str_int (num b) ++ str_float (timestamp b) ++ prev_block_hash b
  ++ str_int (nonce b) ++ str_transactions (transactions b).

(** The digest [Block.hash] computes, without the store. *)
Definition header_hash (b : Block) : string := sha256_hexdigest (get_header b).

(** [Block.hash]: stores the digest in the block and returns it. *)
Definition Block_hash (b : Block) : string * Block :=
  let h := header_hash b in (h, set_block_hash b h).

(** [Block.validate] *)
Definition Block_validate (proof_of_work_func : string -> bool) (b : Block)
  : bool * Block :=
  let (h, b') := Block_hash b in (proof_of_work_func h, b').

(** One step of the inner loop of [get_balance]. *)
Definition balance_step (address : option PublicKey) (balance : float)
  (t : Transaction) : float :=
  if address_eqb (sender_address t) address then (balance - value t)%float
  else if address_eqb (Some (recipient_address t)) address then (balance + value t)%float
  else balance.

Definition balance_block (address : option PublicKey) (balance : float)
  (b : Block) : float :=
  fold_left (balance_step address) (transactions b) balance.

(** [BlockchainNode.get_balance] *)
Definition get_balance (s : BlockchainNode) (address : option PublicKey) : float :=
  fold_left (balance_block address) (blocks s) 0%float.

(** [BlockchainNode.submit_transaction] *)
Definition submit_transaction (s : BlockchainNode) (t : Transaction)
  : Outcome * BlockchainNode :=
  if negb (Transaction_validate t) then (Raised SignatureInvalid, s)
  else
    let sender_balance := get_balance s (sender_address t) in
    if (sender_balance <? value t)%float
    then (Raised (InsufficientFunds (value t) sender_balance), s)
    else (Returned,
          mkNode (miner_address s) (blocks s) (pending_transactions s ++ [t])).

(** The [while] loop of [execute_pow]; [fuel] bounds the number of
    iterations, [None] means the bound was reached. *)
Fixpoint pow_loop (fuel : nat) (b : Block) : option Block :=
  match fuel with
  | O => None
  | S fuel' =>
      let (ok, b') := Block_validate proof_of_work_func b in
      if ok then Some b' else pow_loop fuel' (set_nonce b' (nonce b' + 1))
  end.

(** [BlockchainNode.execute_pow] *)
Definition execute_pow (fuel : nat) (b : Block) : option Block :=
  pow_loop fuel (set_nonce b 0).

(** The block [mine_block] builds before the search: next number, the time
    of the call, the previous hash, a copy of the pending list with the
    reward appended. *)
Definition new_block (now : float) (s : BlockchainNode) : Block :=
  let (prev_hash, next_num) :=
    match list_last (blocks s) with
    | None => ("-", 0)
    | Some prev_block => (block_hash prev_block, num prev_block + 1)
    end in
  let reward := mkTransaction None (miner_address s) REWARD_AMOUNT None in
  mkBlock next_num now prev_hash (pending_transactions s ++ [reward]) EmptyString 0.

(** [BlockchainNode.mine_block]; [now] is what [time.time()] returns. *)
Definition mine_block (fuel : nat) (now : float) (s : BlockchainNode)
  : option BlockchainNode :=
  match execute_pow fuel (new_block now s) with
  | None => None
  | Some b => Some (mkNode (miner_address s) (blocks s ++ [b]) [])
  end.

(** [BlockchainNode.__init__] *)
Definition BlockchainNode_init (fuel : nat) (now : float)
  (miner : PublicKey) : option BlockchainNode :=
  mine_block fuel now (mkNode miner [] []).

(** The loop of [validate_chain] from a running [prev_hash]. *)
Fixpoint validate_blocks (prev_hash : string) (bs : list Block)
  : Outcome * list Block :=
  match bs with
  | [] => (Returned, [])
  | b :: rest =>
      if negb (String.eqb (prev_block_hash b) prev_hash)
      then (Raised (ChainIntegrityError PreviousHashesDoNotMatch), b :: rest)
      else
        let (ok, b') := Block_validate proof_of_work_func b in
        if negb ok
        then (Raised (ChainIntegrityError (WrongBlockHash (num b'))), b' :: rest)
        else
          let (r, rest') := validate_blocks (block_hash b') rest in
          (r, b' :: rest')
  end.

(** [BlockchainNode.validate_chain] *)
Definition validate_chain (s : BlockchainNode) : Outcome * BlockchainNode :=
  let (r, bs) := validate_blocks "-" (blocks s) in
  (r, mkNode (miner_address s) bs (pending_transactions s)).

End WithRuntime.

(** ** A small runtime to run the model on

    The theorems below hold for every [Runtime].  To evaluate the model on
    concrete ledgers there is [toy_runtime]: a 24-bit polynomial checksum
    printed as six hexadecimal digits stands for SHA-256, textbook RSA on
    that checksum for [rsa.verify], and a float is printed by its exact
    decimal expansion. *)

Definition hex_digit (d : Z) : ascii :=
  match String.get (Z.to_nat d) "0123456789abcdef" with
  | Some c => c
  | None => "0"%char
  end.

Fixpoint hex_fixed (width : nat) (v : Z) : string :=
  match width with
  | O => EmptyString
  | S w => hex_fixed w (Z.shiftr v 4) ++ String (hex_digit (Z.land v 15)) EmptyString
  end.

Fixpoint checksum_from (h : Z) (data : string) : Z :=
  match data with
  | EmptyString => h
  | String c rest => checksum_from (Z.land (h * 31 + Z.of_N (N_of_ascii c)) 16777215) rest
  end.

Definition toy_digest (data : string) : string := hex_fixed 6 (checksum_from 7 data).

(** [pow(b, e, n)] by repeated squaring. *)
Fixpoint modexp_pos (b : Z) (e : positive) (n : Z) : Z :=
  match e with
  | xH => b mod n
  | xO e' => let h := modexp_pos b e' n in (h * h) mod n
  | xI e' => let h := modexp_pos b e' n in (h * h * b) mod n
  end.

Definition modexp (b e n : Z) : Z :=
  match e with
  | Zpos p => modexp_pos b p n
  | _ => 1 mod n
  end.

(** Textbook RSA: the signature is a decimal number [sg] with
    [sg ^ e mod n] equal to the checksum of the message modulo [n]. *)
Definition toy_verify (message sig : string) (k : PublicKey) : bool :=
  match NilZero.int_of_string sig with
  | Some sg => modexp (Z.of_int sg) (pk_e k) (pk_n k) =? checksum_from 7 message mod (pk_n k)
  | None => false
  end.

Definition toy_sign (message : string) (n d : Z) : string :=
  str_int (modexp (checksum_from 7 message mod n) d n).

(** The digits after the point of [r / den], for [0 <= r < den]. *)
Fixpoint frac_digits (fuel : nat) (r den : Z) : string :=
  match fuel with
  | O => EmptyString
  | S fuel' =>
      if r =? 0 then EmptyString
      else String (hex_digit (r * 10 / den)) (frac_digits fuel' (r * 10 mod den) den)
  end.

(** The exact decimal expansion of a float; it is the text Python prints
    for the floats with a short one, such as [2.0] and [0.5]. *)
Definition toy_str_float (x : float) : string :=
  match Prim2SF x with
  | S754_zero s => if s then "-0.0" else "0.0"
  | S754_infinity s => if s then "-inf" else "inf"
  | S754_nan => "nan"
  | S754_finite s m ex =>
      (if s then "-" else EmptyString) ++
      (if 0 <=? ex then str_int (Z.shiftl (Zpos m) ex) ++ ".0"
       else
         let den := 2 ^ (- ex) in
         str_int (Zpos m / den) ++ "." ++
         (if Zpos m mod den =? 0 then "0"
          else frac_digits (Z.to_nat (- ex)) (Zpos m mod den) den))
  end.

Definition toy_repr_bytes (b : string) : string := "b'" ++ b ++ "'".

Definition toy_runtime : Runtime :=
  {| sha256_hexdigest := toy_digest;
     rsa_verify := toy_verify;
     str_float := toy_str_float;
     repr_bytes := toy_repr_bytes |}.

(** Two public keys: [alice] mines, [bob] receives. *)
Definition alice : PublicKey := mkPublicKey 3233 17.
Definition bob : PublicKey := mkPublicKey 2773 17.

(** The private exponents that go with [alice] and [bob]. *)
Definition alice_key : Z := 2753.
Definition bob_key : Z := 157.

(** A transfer signed with the private exponent [d] of the sender [k]. *)
Definition signed (k : PublicKey) (d : Z) (to : PublicKey) (v : float) : Transaction :=
  let t := mkTransaction (Some k) to v None in
  mkTransaction (Some k) to v
    (Some (toy_sign (get_core_data (R := toy_runtime) t) (pk_n k) d)).

(** ** Ledger states the public operations can produce *)

Section Ledger.
Context {R : Runtime}.

(** The states of a node after its construction and any number of
    [submit_transaction] and [mine_block] calls that returned (normally or by
    raising). *)
Inductive reachable : BlockchainNode -> Prop :=
| reachable_init (fuel : nat) (now : float) (miner : PublicKey) (s : BlockchainNode) :
    BlockchainNode_init fuel now miner = Some s -> reachable s
| reachable_submit (s : BlockchainNode) (t : Transaction) :
    reachable s -> reachable (snd (submit_transaction s t))
| reachable_mine (fuel : nat) (now : float) (s s' : BlockchainNode) :
    reachable s -> mine_block fuel now s = Some s' -> reachable s'.

(** A block as [execute_pow] leaves it: the stored hash is the hash of the
    header and meets the proof-of-work predicate. *)
Definition mined (b : Block) : Prop :=
  block_hash b = header_hash b /\ proof_of_work_func (header_hash b) = true.

(** Every block is [mined] and names the hash stored in the block before
    it, the first one naming [prev_hash]. *)
Fixpoint chain_from (prev_hash : string) (bs : list Block) : Prop :=
  match bs with
  | [] => True
  | b :: rest =>
      prev_block_hash b = prev_hash /\ mined b /\ chain_from (block_hash b) rest
  end.

(** The reward transaction [mine_block] appends. *)
Definition reward_for (miner : PublicKey) : Transaction :=
  mkTransaction None miner REWARD_AMOUNT None.

(** What a stored block becomes when its timestamp and its transaction list
    are overwritten and nothing else is touched. *)
Definition tamper (b : Block) (ts : float) (txs : list Transaction) : Block :=
  mkBlock (num b) ts (prev_block_hash b) txs (block_hash b) (nonce b).

(** The block after the nonce search stopped at nonce [k]. *)
Definition found (b : Block) (k : Z) : Block :=
  set_block_hash (set_nonce b k) (header_hash (set_nonce b k)).

(** Whether the header of [b] with nonce [k] meets the predicate. *)
Definition meets (b : Block) (k : Z) : bool :=
  proof_of_work_func (header_hash (set_nonce b k)).

(** A block after [Block.hash] ran on it: the stored hash is the recomputed
    one, the other fields are as before. *)
Definition refresh (b : Block) : Block := set_block_hash b (header_hash b).

End Ledger.

(** ** Balances: what the specification says, and exact values *)

Definition PublicKey_eq_dec (k1 k2 : PublicKey) : {k1 = k2} + {k1 <> k2}.
Proof. decide equality; apply Z.eq_dec. Defined.

(** Every transaction of the chain, in chain order. *)
Definition all_transactions (s : BlockchainNode) : list Transaction :=
  flat_map transactions (blocks s).

(** The balance step in the words of the specification: the decrement when
    the sender is [address], and the increment when the recipient is. *)
Definition spec_balance_step (address : option PublicKey) (balance : float)
  (t : Transaction) : float :=
  let debited :=
    if address_eqb (sender_address t) address
    then (balance - value t)%float else balance in
  if address_eqb (Some (recipient_address t)) address
  then (debited + value t)%float else debited.

Definition spec_get_balance (s : BlockchainNode) (address : option PublicKey) : float :=
  fold_left (spec_balance_step address) (all_transactions s) 0%float.

(** The balance of an address with the pending queue counted in. *)
Definition queued_balance (s : BlockchainNode) (address : option PublicKey) : float :=
  fold_left (balance_step address) (pending_transactions s) (get_balance s address).

(** The public keys that occur in the chain, each once. *)
Definition tx_addresses (t : Transaction) : list PublicKey :=
  match sender_address t with
  | Some k => [k; recipient_address t]
  | None => [recipient_address t]
  end.

Definition seen_addresses (s : BlockchainNode) : list PublicKey :=
  nodup PublicKey_eq_dec (flat_map tx_addresses (all_transactions s)).

(** [sum(get_balance(a) for a in seen)], a float sum that starts from 0. *)
Definition total_balance (s : BlockchainNode) : float :=
  fold_left (fun acc a => (acc + get_balance s (Some a))%float) (seen_addresses s) 0%float.

(** [len(blocks) * REWARD_AMOUNT] *)
Definition issued (s : BlockchainNode) : float :=
  (of_uint63 (Uint63.of_Z (Z.of_nat (List.length (blocks s)))) * REWARD_AMOUNT)%float.

(** The exact value of a finite float, in units of [2 ^ -1074] (every finite
    binary64 number is a whole number of them). *)
Definition exact_units (x : float) : option Z :=
  match Prim2SF x with
  | S754_zero _ => Some 0
  | S754_finite sg m ex => Some (cond_Zopp sg (Zpos m * 2 ^ (ex + 1074)))
  | _ => None
  end.

Definition units_of (t : Transaction) : Z :=
  match exact_units (value t) with
  | Some z => z
  | None => 0
  end.

(** [balance_step] without rounding. *)
Definition units_step (address : option PublicKey) (balance : Z) (t : Transaction) : Z :=
  if address_eqb (sender_address t) address then balance - units_of t
  else if address_eqb (Some (recipient_address t)) address then balance + units_of t
  else balance.

(** The balance [get_balance] would return if no float operation rounded. *)
Definition exact_balance (s : BlockchainNode) (address : option PublicKey) : Z :=
  fold_left (units_step address) (all_transactions s) 0.

Fixpoint sumZ (l : list Z) : Z :=
  match l with
  | [] => 0
  | z :: rest => z + sumZ rest
  end.

(** The shape [mine_block] gives a block: transactions that each name a
    sender, then the reward of the miner. *)
Definition block_shape (miner : PublicKey) (b : Block) : Prop :=
  exists txs : list Transaction,
    transactions b = (txs ++ [mkTransaction None miner REWARD_AMOUNT None])%list /\
    Forall (fun t => sender_address t <> None) txs.

(** ** Sessions: a node driven through its public operations *)

Inductive Call : Type :=
| Submit (t : Transaction)
| Mine (now : float).

Section Sessions.
Context {R : Runtime}.

(** The calls in order; a [submit_transaction] that raises is caught by the
    caller and the session goes on.  [None] when a nonce search hits
    [fuel]. *)
Fixpoint run (fuel : nat) (calls : list Call) (s : BlockchainNode)
  : option BlockchainNode :=
  match calls with
  | [] => Some s
  | Submit t :: rest => run fuel rest (snd (submit_transaction s t))
  | Mine now :: rest =>
      match mine_block fuel now s with
      | Some s' => run fuel rest s'
      | None => None
      end
  end.

Definition session (fuel : nat) (now : float) (miner : PublicKey)
  (calls : list Call) : option BlockchainNode :=
  match BlockchainNode_init fuel now miner with
  | Some s => run fuel calls s
  | None => None
  end.

(** Several submissions in a row, with the outcome of each. *)
Fixpoint submit_all (s : BlockchainNode) (ts : list Transaction)
  : list Outcome * BlockchainNode :=
  match ts with
  | [] => ([], s)
  | t :: rest =>
      let (o, s1) := submit_transaction s t in
      let (os, s2) := submit_all s1 rest in
      (o :: os, s2)
  end.

End Sessions.

(** ** Example sessions on the small runtime

    [alice] constructs the node at [genesis_time] and mines every block.
    The timestamps are picked so that the nonce searches are short. *)

Definition genesis_time : float := 1541000958%float.

Definition toy_session (calls : list Call) : option BlockchainNode :=
  session (R := toy_runtime) 41 genesis_time alice calls.

(** The state a session ends in (the empty node if it does not end). *)
Definition after (calls : list Call) : BlockchainNode :=
  match toy_session calls with
  | Some s => s
  | None => mkNode alice [] []
  end.

(** The floats Python reads [0.1] and [0.2] as. *)
Definition one_tenth : float := 0x1.999999999999ap-4%float.
Definition two_tenths : float := 0x1.999999999999ap-3%float.

(** Construction only. *)
Definition node_genesis : BlockchainNode := Eval vm_compute in after [].

(** [alice] pays [bob] 1.0, and the block is mined. *)
Definition node_paid : BlockchainNode :=
  Eval vm_compute in
  after [Submit (signed alice alice_key bob 1); Mine 1541001133].





(** [alice] pays herself 1.0. *)
Definition node_self_transfer : BlockchainNode :=
  Eval vm_compute in
  after [Submit (signed alice alice_key alice 1); Mine 1541003151].

(** [alice] pays [bob] 0.1, then 0.2, a block being mined after each. *)
Definition node_tenths : BlockchainNode :=
  Eval vm_compute in
  after [Submit (signed alice alice_key bob one_tenth); Mine 1541001619;
         Submit (signed alice alice_key bob two_tenths); Mine 1541002056].

(** [bob], who owns nothing, sends [alice] the value -1.0. *)
Definition negative_from_bob : Transaction := signed bob bob_key alice (-1).

Definition node_negative : BlockchainNode :=
  Eval vm_compute in after [Submit negative_from_bob; Mine 1541001010].

(** [alice] sends herself the value -1.0. *)
Definition negative_to_self : Transaction := signed alice alice_key alice (-1).

Definition node_negative_self : BlockchainNode :=
  Eval vm_compute in after [Submit negative_to_self; Mine 1541001162].

(** The genesis block of [node_genesis]. *)
Definition genesis_block : Block :=
  match blocks node_genesis with
  | b :: _ => b
  | [] => mkBlock 0 genesis_time "-" [] EmptyString 0
  end.


(** ** Signing a transaction *)

(** [rsa.sign(message, priv_key, 'SHA-256')] for some type of private keys:
    the signature, or [None] when the call raises (a key too short for the
    digest). *)
Class Signer : Type := {
  PrivateKey : Type;
  rsa_sign : string -> PrivateKey -> option string
}.

Inductive SignOutcome : Type :=
| Signed
| SigningRaised
| VerificationRaised.

Definition set_signature (t : Transaction) (sg : option string) : Transaction :=
  mkTransaction (sender_address t) (recipient_address t) (value t) sg.

(** [Transaction.sign]: stores the signature, then validates the
    transaction it has become. *)
Definition Transaction_sign {R : Runtime} {S : Signer}
  (t : Transaction) (sender_private_key : PrivateKey) : SignOutcome * Transaction :=
  match rsa_sign (get_core_data t) sender_private_key with
  | None => (SigningRaised, t)
  | Some sg =>
      let t' := set_signature t (Some sg) in
      if Transaction_validate t' then (Signed, t') else (VerificationRaised, t')
  end.

(** The signer that goes with [toy_runtime]: a private key is a modulus with
    the private exponent. *)
Definition toy_signer : Signer :=
  {| PrivateKey := Z * Z;
     rsa_sign := fun message k => Some (toy_sign message (fst k) (snd k)) |}.

(** ** Notions the further properties are stated with *)

Section Notions.
Context {R : Runtime}.

(** The condition [validate_chain] walks through, on recomputed hashes only:
    each block names the recomputed hash of the block before it ([prev_hash]
    for the first) and its own recomputed hash meets the predicate. *)
Fixpoint header_chain (prev_hash : string) (bs : list Block) : Prop :=
  match bs with
  | [] => True
  | b :: rest =>
      prev_block_hash b = prev_hash /\
      proof_of_work_func (header_hash b) = true /\
      header_chain (header_hash b) rest
  end.

(** Two blocks that differ at most in the hash they store. *)
Definition same_header (b1 b2 : Block) : Prop :=
  num b1 = num b2 /\ timestamp b1 = timestamp b2 /\
  prev_block_hash b1 = prev_block_hash b2 /\
  transactions b1 = transactions b2 /\ nonce b1 = nonce b2.

(** Whether a submission to [s] returns. *)
Definition accepted (s : BlockchainNode) (t : Transaction) : bool :=
  match fst (submit_transaction s t) with
  | Returned => true
  | Raised _ => false
  end.

(** The number of [mine_block] calls in a session. *)
Definition count_mines (calls : list Call) : nat :=
  List.length (filter (fun c => match c with Mine _ => true | Submit _ => false end) calls).

(** A stored block with its number and its timestamp overwritten. *)
Definition renumber (b : Block) (n : Z) (ts : float) : Block :=
  mkBlock n ts (prev_block_hash b) (transactions b) (block_hash b) (nonce b).

(** Whether a transaction names [address] as sender or as recipient. *)
Definition involves (address : option PublicKey) (t : Transaction) : bool :=
  address_eqb (sender_address t) address
  || address_eqb (Some (recipient_address t)) address.

End Notions.

(** [x != x], the test for NaN. *)
Definition is_nan_value (x : float) : bool := negb (x =? x)%float.

(** Two blocks that differ at most in the nonce and in the stored hash. *)
Definition same_work (b1 b2 : Block) : Prop :=
  num b1 = num b2 /\ timestamp b1 = timestamp b2 /\
  prev_block_hash b1 = prev_block_hash b2 /\ transactions b1 = transactions b2.

(** ** Exact values

    The value of a number of the reference implementation in units of
    [2 ^ -1074]; [exact_units] is this on the float's specification. *)
Definition sf_units (x : spec_float) : option Z :=
  match x with
  | S754_zero _ => Some 0
  | S754_finite sg m ex => Some (cond_Zopp sg (Zpos m * 2 ^ (ex + 1074)))
  | _ => None
  end.

(** The absolute values of all transactions of the chain, added up, in
    units of [2 ^ -1074]. *)
Definition volume (l : list Transaction) : Z :=
  sumZ (map (fun t => Z.abs (units_of t)) l).

Definition total_volume (s : BlockchainNode) : Z := volume (all_transactions s).

(** Every transaction value of the chain is a finite number and a whole
    multiple of [2 ^ k] units, that is of [2 ^ (k - 1074)]. *)
Definition values_on_grid (k : Z) (s : BlockchainNode) : Prop :=
  forall t : Transaction, In t (all_transactions s) ->
    exists n : Z, exact_units (value t) = Some (n * 2 ^ k).

(** ** The script at the end of the file *)

(** What the script under [if __name__ == "__main__"] comes to: the two
    balances it prints and the outcome of the [validate_chain] call after
    them, or an exception before anything is printed. *)
Inductive ScriptOutcome : Type :=
| ScriptPrinted (sender_balance receiver_balance : float) (validation : Outcome)
| ScriptRaised.

(** The script, with what it draws from outside as parameters: the two key
    pairs of [rsa.newkeys] (the receiving private key is never used) and the
    times of the three [mine_block] calls.  [None] when a nonce search hits
    [fuel]. *)
Definition main_script {R : Runtime} {S : Signer} (fuel : nat)
  (public_key : PublicKey) (private_key : PrivateKey)
  (receiving_public_key : PublicKey) (now0 now1 now2 : float)
  : option ScriptOutcome :=
  match BlockchainNode_init fuel now0 public_key with
  | None => None
  | Some node =>
  match Transaction_sign
          (mkTransaction (Some public_key) receiving_public_key 0.5%float None)
          private_key with
  | (Signed, t1) =>
  match submit_transaction node t1 with
  | (Returned, node) =>
  match mine_block fuel now1 node with
  | None => None
  | Some node =>
  match Transaction_sign
          (mkTransaction (Some public_key) receiving_public_key 1%float None)
          private_key with
  | (Signed, t2) =>
  match submit_transaction node t2 with
  | (Returned, node) =>
  match mine_block fuel now2 node with
  | None => None
  | Some node =>
      Some (ScriptPrinted (get_balance node (Some public_key))
              (get_balance node (Some receiving_public_key))
              (fst (validate_chain node)))
  end
  | (Raised _, _) => Some ScriptRaised
  end
  | _ => Some ScriptRaised
  end
  end
  | (Raised _, _) => Some ScriptRaised
  end
  | _ => Some ScriptRaised
  end
  end.

(** ** Further example states *)

(** [alice]'s private key for [toy_signer]. *)
Definition alice_private : Z * Z := (pk_n alice, alice_key).

(** [alice] sends [bob] a value that is not a number. *)
Definition nan_transfer : Transaction := signed alice alice_key bob nan.

Definition node_nan : BlockchainNode :=
  Eval vm_compute in after [Submit nan_transfer; Mine 1541001080%float].

(** [alice] pays [bob] 0.5 and then 1.0, each in a block of its own, as
    the script at the end of the file does. *)
Definition node_halves : BlockchainNode :=
  Eval vm_compute in
  after [Submit (signed alice alice_key bob 0.5); Mine 1541001591;
         Submit (signed alice alice_key bob 1); Mine 1541001946].

(** The state in which [node_paid] was mined: [node_genesis] with the
    transfer of 1.0 queued. *)
Definition node_queued : BlockchainNode :=
  mkNode alice (blocks node_genesis) [signed alice alice_key bob 1].



(** The second block of [node_paid]. *)
Definition paid_block : Block := nth 1 (blocks node_paid) genesis_block.

(** * Facts about binary64 arithmetic

    From the specification of the primitive floats ([FloatAxioms]) and the
    reference implementation [SpecFloat]. *)

Lemma Prim2SF_inj (x y : float) : Prim2SF x = Prim2SF y -> x = y.
Proof.
  intros H. rewrite <- (SF2Prim_Prim2SF x), <- (SF2Prim_Prim2SF y), H. reflexivity.
Qed.

Lemma SFcompare_antisym (x y : spec_float) :
  SFcompare y x = option_map CompOpp (SFcompare x y).
Proof.
  destruct x as [sx|sx| |sx mx ex], y as [sy|sy| |sy my ey]; simpl;
    try (destruct sx); try (destruct sy); try reflexivity;
    rewrite (Z.compare_antisym ey ex); destruct (ey ?= ex); simpl; try reflexivity;
    rewrite !Pos.compare_cont_spec; simpl;
    rewrite (Pos.compare_antisym my mx); destruct (my ?= mx)%positive; reflexivity.
Qed.


Lemma leb_not_ltb (x y : float) : (x <=? y)%float = true -> (y <? x)%float = false.
Proof.
  rewrite leb_spec, ltb_spec. unfold SFleb, SFltb.
  rewrite (SFcompare_antisym (Prim2SF x) (Prim2SF y)).
  destruct (SFcompare (Prim2SF x) (Prim2SF y)) as [[]|]; simpl; congruence.
Qed.

(** The floats below zero. *)
Lemma negative_cases (v : float) :
  (v <? 0)%float = true ->
  (exists m e, Prim2SF v = S754_finite true m e) \/ Prim2SF v = S754_infinity true.
Proof.
  rewrite ltb_spec. unfold SFltb. change (Prim2SF 0) with (S754_zero false).
  destruct (Prim2SF v) as [s|s| |s m e]; simpl; try discriminate.
  - destruct s; [auto|discriminate].
  - destruct s; [eauto|discriminate].
Qed.

Lemma sub_negative (x v : float) :
  (v <? 0)%float = true -> (x - v)%float = (x + abs v)%float.
Proof.
  intros Hv. apply Prim2SF_inj. rewrite sub_spec, add_spec, abs_spec.
  destruct (negative_cases v Hv) as [(m & e & ->)| ->];
    destruct (Prim2SF x) as [sx|sx| |sx mx ex]; simpl; try reflexivity;
    try (destruct sx; reflexivity).
Qed.

Lemma add_negative (x v : float) :
  (v <? 0)%float = true -> (x + v)%float = (x - abs v)%float.
Proof.
  intros Hv. apply Prim2SF_inj. rewrite sub_spec, add_spec, abs_spec.
  destruct (negative_cases v Hv) as [(m & e & ->)| ->];
    destruct (Prim2SF x) as [sx|sx| |sx mx ex]; simpl; try reflexivity;
    try (destruct sx; reflexivity).
Qed.

Lemma zero_geq_negative (b v : float) :
  (b =? 0)%float = true -> (v <? 0)%float = true -> (v <=? b)%float = true.
Proof.
  intros Hb Hv. rewrite leb_spec. rewrite FloatAxioms.eqb_spec in Hb.
  change (Prim2SF 0) with (S754_zero false) in Hb.
  destruct (negative_cases v Hv) as [(m & e & ->)| ->];
    unfold SFeqb, SFleb in *;
    destruct (Prim2SF b) as [s|s| |s mb eb]; simpl in *; try discriminate; try reflexivity;
    destruct s; discriminate.
Qed.

Lemma digits2_pos_size (m : positive) : digits2_pos m = Pos.size m.
Proof. induction m as [m IH|m IH|]; simpl; rewrite ?IH; reflexivity. Qed.

Lemma Zdigits2_log2 (z : Z) : 0 < z -> Zdigits2 z = Z.log2 z + 1.
Proof.
  destruct z as [|m|m]; try lia. intros _. simpl. rewrite digits2_pos_size.
  destruct m; simpl; lia.
Qed.








Lemma digits2_pos_iter_xO (d m : positive) :
  Zpos (digits2_pos (Pos.iter xO m d)) = Zpos (digits2_pos m) + Zpos d.
Proof.
  induction d as [|d IH] using Pos.peano_ind.
  - simpl. lia.
  - rewrite Pos.iter_succ. simpl digits2_pos. lia.
Qed.

Lemma shl_align_digits (m : positive) (e e' : Z) :
  Zpos (digits2_pos (fst (shl_align m e e'))) + snd (shl_align m e e')
  = Zpos (digits2_pos m) + e.
Proof.
  unfold shl_align. destruct (e' - e) as [|d|d] eqn:E; simpl fst; simpl snd; try lia.
  rewrite digits2_pos_iter_xO. lia.
Qed.


Lemma valid_exponent (s : bool) (m : positive) (e : Z) :
  valid_binary (S754_finite s m e) = true -> -1074 <= e.
Proof.
  simpl. unfold bounded, canonical_mantissa. intros H.
  apply andb_prop in H. destruct H as [H _]. apply Z.eqb_eq in H.
  unfold fexp, SpecFloat.emin, prec, emax in H. lia.
Qed.


(** ** Exact values of binary64 numbers *)

Lemma sf_units_finite (s : bool) (m : positive) (e : Z) :
  sf_units (S754_finite s m e) = Some (cond_Zopp s (Zpos m * 2 ^ (e + 1074))).
Proof. reflexivity. Qed.

Lemma sf_units_zero (s : bool) : sf_units (S754_zero s) = Some 0.
Proof. reflexivity. Qed.

Lemma Some_inj {A : Type} (x y : A) : Some x = Some y -> x = y.
Proof. congruence. Qed.

Lemma exact_units_sf (x : float) : exact_units x = sf_units (Prim2SF x).
Proof. reflexivity. Qed.

Lemma valid_finite_bounds (s : bool) (m : positive) (e : Z) :
  valid_binary (S754_finite s m e) = true ->
  -1074 <= e <= 971 /\ Zpos (digits2_pos m) <= 53 /\
  (-1074 < e -> Zpos (digits2_pos m) = 53).
Proof.
  simpl. unfold bounded, canonical_mantissa. intros H.
  apply andb_prop in H. destruct H as [H1 H2].
  apply Z.eqb_eq in H1. apply Z.leb_le in H2.
  unfold fexp, SpecFloat.emin, prec, emax in *. lia.
Qed.

Lemma digits2_pos_bounds (m : positive) :
  2 ^ (Zpos (digits2_pos m) - 1) <= Zpos m < 2 ^ Zpos (digits2_pos m).
Proof.
  pose proof (Zdigits2_log2 (Zpos m) ltac:(lia)) as H. simpl Zdigits2 in H.
  rewrite H. replace (Z.log2 (Zpos m) + 1 - 1) with (Z.log2 (Zpos m)) by lia.
  replace (Z.log2 (Zpos m) + 1) with (Z.succ (Z.log2 (Zpos m))) by lia.
  apply Z.log2_spec. lia.
Qed.

Lemma pos_compare_cont_Eq (a b : positive) :
  Pos.compare_cont Eq a b = (Zpos a ?= Zpos b).
Proof. reflexivity. Qed.

(** Between valid finite numbers, a smaller exponent is a smaller
    magnitude. *)
Lemma smaller_exponent (m1 m2 : positive) (e1 e2 : Z) (s1 s2 : bool) :
  valid_binary (S754_finite s1 m1 e1) = true ->
  valid_binary (S754_finite s2 m2 e2) = true ->
  e1 < e2 ->
  Zpos m1 * 2 ^ (e1 + 1074) < Zpos m2 * 2 ^ (e2 + 1074).
Proof.
  intros V1 V2 Hlt.
  destruct (valid_finite_bounds _ _ _ V1) as (He1 & Hd1 & _).
  destruct (valid_finite_bounds _ _ _ V2) as (He2 & _ & Hd2).
  specialize (Hd2 ltac:(lia)).
  pose proof (digits2_pos_bounds m1) as B1. pose proof (digits2_pos_bounds m2) as B2.
  rewrite Hd2 in B2.
  assert (H1 : Zpos m1 < 2 ^ 53).
  { apply Z.lt_le_trans with (2 ^ Zpos (digits2_pos m1)); [lia|].
    apply Z.pow_le_mono_r; lia. }
  assert (Hp : 0 < 2 ^ (e1 + 1074)) by (apply Z.pow_pos_nonneg; lia).
  replace (2 ^ (e2 + 1074)) with (2 ^ (e2 - e1 - 1) * 2 * 2 ^ (e1 + 1074)).
  2:{ rewrite <- (Z.pow_1_r 2) at 2. rewrite <- !Z.pow_add_r by lia. f_equal. lia. }
  assert (Hq : 1 <= 2 ^ (e2 - e1 - 1)) by (apply (Z.pow_le_mono_r 2 0); lia).
  change (2 ^ (53 - 1)) with (2 ^ 52) in B2.
  assert (H2 : 2 ^ 53 <= Zpos m2 * (2 ^ (e2 - e1 - 1) * 2)).
  { change (2 ^ 53) with (2 ^ 52 * 2). nia. }
  nia.
Qed.

Lemma SFcompare_units (x y : spec_float) (a b : Z) :
  valid_binary x = true -> valid_binary y = true ->
  sf_units x = Some a -> sf_units y = Some b ->
  SFcompare x y = Some (a ?= b).
Proof.
  intros Vx Vy Hx Hy.
  destruct x as [sx|sx| |sx mx ex]; try discriminate;
    destruct y as [sy|sy| |sy my ey]; try discriminate;
    rewrite ?sf_units_finite, ?sf_units_zero in Hx, Hy;
    apply Some_inj in Hx, Hy; subst a b.
  - reflexivity.
  - assert (0 < Zpos my * 2 ^ (ey + 1074)).
    { pose proof (valid_finite_bounds _ _ _ Vy).
      apply Z.mul_pos_pos; [lia|apply Z.pow_pos_nonneg; lia]. }
    unfold SFcompare. destruct sy; unfold cond_Zopp; f_equal; symmetry;
      [apply Z.compare_gt_iff|apply Z.compare_lt_iff]; lia.
  - assert (0 < Zpos mx * 2 ^ (ex + 1074)).
    { pose proof (valid_finite_bounds _ _ _ Vx).
      apply Z.mul_pos_pos; [lia|apply Z.pow_pos_nonneg; lia]. }
    unfold SFcompare. destruct sx; unfold cond_Zopp; f_equal; symmetry;
      [apply Z.compare_lt_iff|apply Z.compare_gt_iff]; lia.
  - pose proof (valid_finite_bounds _ _ _ Vx) as (Hex & _).
    pose proof (valid_finite_bounds _ _ _ Vy) as (Hey & _).
    assert (Hpx : 0 < Zpos mx * 2 ^ (ex + 1074))
      by (apply Z.mul_pos_pos; [lia|apply Z.pow_pos_nonneg; lia]).
    assert (Hpy : 0 < Zpos my * 2 ^ (ey + 1074))
      by (apply Z.mul_pos_pos; [lia|apply Z.pow_pos_nonneg; lia]).
    assert (Hmag : (match ex ?= ey with
                    | Eq => Pos.compare_cont Eq mx my
                    | Lt => Lt
                    | Gt => Gt
                    end) = (Zpos mx * 2 ^ (ex + 1074) ?= Zpos my * 2 ^ (ey + 1074))).
    { destruct (Z.compare_spec ex ey) as [->|Hlt|Hgt].
      - rewrite pos_compare_cont_Eq. apply Zmult_compare_compat_r.
        apply Z.lt_gt. apply Z.pow_pos_nonneg; lia.
      - symmetry. apply Z.compare_lt_iff.
        apply (smaller_exponent mx my ex ey sx sy); assumption.
      - symmetry. apply Z.compare_gt_iff.
        apply (smaller_exponent my mx ey ex sy sx); assumption. }
    unfold SFcompare. destruct sx, sy; unfold cond_Zopp; f_equal.
    + rewrite Z.compare_opp.
      rewrite (Z.compare_antisym (Zpos mx * 2 ^ (ex + 1074))), <- Hmag.
      destruct (ex ?= ey); reflexivity.
    + symmetry. apply Z.compare_lt_iff. lia.
    + symmetry. apply Z.compare_gt_iff. lia.
    + exact Hmag.
Qed.

(** ** Alignment and exact rounding *)

Lemma pos_iter_xO (d m : positive) : Zpos (Pos.iter xO m d) = Zpos m * 2 ^ Zpos d.
Proof.
  induction d as [|d IH] using Pos.peano_ind.
  - simpl Pos.iter. lia.
  - rewrite Pos.iter_succ, Pos2Z.inj_succ, Z.pow_succ_r by lia.
    rewrite Pos2Z.inj_xO, IH. lia.
Qed.

Lemma shl_align_value (m : positive) (e e' : Z) :
  e' <= e -> -1074 <= e' ->
  Zpos (fst (shl_align m e e')) * 2 ^ (e' + 1074) = Zpos m * 2 ^ (e + 1074).
Proof.
  intros Hle He'. unfold shl_align.
  destruct (e' - e) as [|d|d] eqn:E; simpl fst.
  - replace e' with e by lia. reflexivity.
  - lia.
  - rewrite pos_iter_xO. replace (e + 1074) with (Zpos d + (e' + 1074)) by lia.
    rewrite (Z.pow_add_r 2 (Zpos d) (e' + 1074)) by lia. ring.
Qed.

Lemma iter_pos_nat {A : Type} (f : A -> A) (p : positive) :
  forall x : A, iter_pos f p x = Nat.iter (Pos.to_nat p) f x.
Proof.
  induction p as [p IH|p IH|]; intros x; simpl iter_pos.
  - rewrite !IH, Pos2Nat.inj_xI.
    replace (S (2 * Pos.to_nat p)) with (Pos.to_nat p + S (Pos.to_nat p))%nat by lia.
    rewrite Nat.iter_add, Nat.iter_succ_r. reflexivity.
  - rewrite !IH, Pos2Nat.inj_xO.
    replace (2 * Pos.to_nat p)%nat with (Pos.to_nat p + Pos.to_nat p)%nat by lia.
    rewrite Nat.iter_add. reflexivity.
  - reflexivity.
Qed.

(** Shifting out bits that are all zero loses nothing. *)
Lemma shr_1_even (z : Z) :
  0 <= z -> (2 | z) ->
  shr_1 (Build_shr_record z false false) = Build_shr_record (z / 2) false false.
Proof.
  intros Hz [q Hq]. subst z. rewrite Z.div_mul by lia.
  destruct q as [|q|q]; try lia; [reflexivity|].
  simpl Z.mul. rewrite Pos.mul_comm. reflexivity.
Qed.

Lemma iter_shr_1_exact (n : nat) : forall z : Z,
  0 <= z -> (2 ^ Z.of_nat n | z) ->
  Nat.iter n shr_1 (Build_shr_record z false false)
  = Build_shr_record (z / 2 ^ Z.of_nat n) false false.
Proof.
  induction n as [|n IH]; intros z Hz Hdiv.
  - simpl. rewrite Z.div_1_r. reflexivity.
  - rewrite Nat.iter_succ_r. rewrite Nat2Z.inj_succ, Z.pow_succ_r in * by lia.
    destruct Hdiv as [q Hq].
    rewrite shr_1_even; [|exact Hz|exists (q * 2 ^ Z.of_nat n); lia].
    assert (Hp : 0 < 2 ^ Z.of_nat n) by (apply Z.pow_pos_nonneg; lia).
    assert (Hhalf : z / 2 = q * 2 ^ Z.of_nat n).
    { subst z. replace (q * (2 * 2 ^ Z.of_nat n)) with (q * 2 ^ Z.of_nat n * 2) by lia.
      apply Z.div_mul. lia. }
    rewrite IH.
    + f_equal. rewrite Hhalf. subst z.
      rewrite Z.div_mul by lia.
      replace (q * (2 * 2 ^ Z.of_nat n)) with (q * (2 * 2 ^ Z.of_nat n)) by lia.
      rewrite Z.div_mul by lia. reflexivity.
    + rewrite Hhalf. nia.
    + rewrite Hhalf. exists q. reflexivity.
Qed.

Lemma shr_exact (z e n : Z) :
  0 < z -> (0 < n -> (2 ^ n | z)) ->
  exists z' : Z,
    shr (Build_shr_record z false false) e n
    = (Build_shr_record z' false false, Z.max e (e + n)) /\
    0 < z' /\ z' * 2 ^ (Z.max 0 n) = z.
Proof.
  intros Hz Hdiv. unfold shr. destruct n as [|p|p].
  - exists z. replace (Z.max e (e + 0)) with e by lia.
    split; [reflexivity|split; [lia|]]. change (Z.max 0 0) with 0. lia.
  - specialize (Hdiv ltac:(lia)).
    rewrite iter_pos_nat, iter_shr_1_exact; rewrite ?positive_nat_Z; [|lia|exact Hdiv].
    exists (z / 2 ^ Zpos p). replace (Z.max e (e + Zpos p)) with (e + Zpos p) by lia.
    destruct Hdiv as [q Hq]. subst z.
    assert (Hp : 0 < 2 ^ Zpos p) by (apply Z.pow_pos_nonneg; lia).
    rewrite Z.div_mul by lia.
    replace (Z.max 0 (Zpos p)) with (Zpos p) by lia.
    split; [reflexivity|split; [nia|reflexivity]].
  - exists z. replace (Z.max e (e + Zneg p)) with e by lia.
    replace (Z.max 0 (Zneg p)) with 0 by lia.
    split; [reflexivity|split; lia].
Qed.

Lemma Zdigits2_shift (z' z n : Z) :
  0 < z' -> 0 <= n -> z' * 2 ^ n = z -> Zdigits2 z = Zdigits2 z' + n.
Proof.
  intros Hz' Hn <-.
  assert (0 < z' * 2 ^ n) by (apply Z.mul_pos_pos; [lia|apply Z.pow_pos_nonneg; lia]).
  rewrite !Zdigits2_log2 by lia. rewrite <- Z.shiftl_mul_pow2 by lia.
  rewrite Z.log2_shiftl by lia. lia.
Qed.

(** Rounding a mantissa whose bits below the canonical exponent are all
    zero gives the same value back. *)
Lemma binary_round_aux_exact (s : bool) (z e : Z) :
  0 < z ->
  (0 < fexp prec emax (Zdigits2 z + e) - e ->
   (2 ^ (fexp prec emax (Zdigits2 z + e) - e) | z)) ->
  Z.max e (fexp prec emax (Zdigits2 z + e)) <= 971 ->
  exists (m' : positive) (e' : Z),
    binary_round_aux prec emax s z e loc_Exact = S754_finite s m' e' /\
    e <= e' /\ Zpos m' * 2 ^ (e' - e) = z.
Proof.
  intros Hz Hdiv Hmax. unfold binary_round_aux, shr_fexp.
  cbn [shr_record_of_loc].
  set (n := fexp prec emax (Zdigits2 z + e) - e) in *.
  destruct (shr_exact z e n Hz Hdiv) as (z' & -> & Hz' & Hval).
  cbn [shr_m loc_of_shr_record round_nearest_even].
  assert (Hd : Zdigits2 z' + Z.max e (e + n) = Zdigits2 z + e \/ n <= 0 /\ z' = z).
  { destruct (Z.le_gt_cases n 0) as [Hn|Hn].
    - right. split; [exact Hn|]. replace (Z.max 0 n) with 0 in Hval by lia. lia.
    - left. replace (Z.max 0 n) with n in Hval by lia.
      rewrite (Zdigits2_shift z' z n Hz' ltac:(lia) Hval). lia. }
  assert (Hn2 : fexp prec emax (Zdigits2 z' + Z.max e (e + n)) - Z.max e (e + n) <= 0).
  { destruct Hd as [Hd|[Hn ->]].
    - rewrite Hd. unfold n. lia.
    - replace (Z.max e (e + n)) with e by lia. fold n. exact Hn. }
  unfold shr at 1.
  destruct (fexp prec emax (Zdigits2 z' + Z.max e (e + n)) - Z.max e (e + n))
    as [|p|p] eqn:E; try lia;
    cbn [shr_m]; destruct z' as [|m'|m']; try lia;
    (replace (Z.max e (e + n) <=? emax - prec) with true
       by (symmetry; apply Z.leb_le; change (emax - prec) with 971; unfold n; lia));
    exists m', (Z.max e (e + n));
    (split; [reflexivity|split; [lia|]]);
    rewrite <- Hval; f_equal; f_equal; lia.
Qed.

Lemma binary_round_exact (s : bool) (m : positive) (e : Z) :
  -1074 <= e ->
  (e < fexp prec emax (Zpos (digits2_pos m) + e) ->
   (2 ^ (fexp prec emax (Zpos (digits2_pos m) + e) - e) | Zpos m)) ->
  fexp prec emax (Zpos (digits2_pos m) + e) <= 971 ->
  exists (m' : positive) (e' : Z),
    binary_round prec emax s m e = S754_finite s m' e' /\
    Zpos m' * 2 ^ (e' + 1074) = Zpos m * 2 ^ (e + 1074).
Proof.
  intros He Hdiv Hmax. unfold binary_round.
  set (E := fexp prec emax (Zpos (digits2_pos m) + e)) in *.
  assert (HE : -1074 <= E) by (unfold E, fexp, SpecFloat.emin, emax, prec; lia).
  pose proof (shl_align_digits m e E) as Hdig.
  destruct (Z.lt_ge_cases E e) as [Hlt|Hge].
  - pose proof (shl_align_value m e E ltac:(lia) HE) as Hval.
    assert (Hsnd : snd (shl_align m e E) = E).
    { unfold shl_align. destruct (E - e) eqn:Ed; simpl; lia. }
    destruct (shl_align m e E) as [mz ez]. simpl fst in *; simpl snd in *. subst ez.
    destruct (binary_round_aux_exact s (Zpos mz) E) as (m' & e' & -> & He' & Hm').
    + lia.
    + simpl Zdigits2. rewrite Hdig. fold E. lia.
    + simpl Zdigits2. rewrite Hdig. fold E. lia.
    + exists m', e'. split; [reflexivity|].
      rewrite <- Hval, <- Hm'. rewrite <- Z.mul_assoc, <- Z.pow_add_r by lia.
      f_equal. f_equal. lia.
  - assert (Hsame : shl_align m e E = (m, e)).
    { unfold shl_align. destruct (E - e) eqn:Ed; try reflexivity. lia. }
    rewrite Hsame.
    destruct (binary_round_aux_exact s (Zpos m) e) as (m' & e' & -> & He' & Hm').
    + lia.
    + simpl Zdigits2. fold E. intros Hn. apply Hdiv. lia.
    + simpl Zdigits2. fold E. lia.
    + exists m', e'. split; [reflexivity|].
      rewrite <- Hm'. rewrite <- Z.mul_assoc, <- Z.pow_add_r by lia.
      f_equal. f_equal. lia.
Qed.

(** ** Sums and differences that do not round *)

Lemma pow2_divide (a b : Z) : 0 <= a <= b -> (2 ^ a | 2 ^ b).
Proof.
  intros H. exists (2 ^ (b - a)). rewrite <- Z.pow_add_r by lia. f_equal. lia.
Qed.

(** A multiple of [2 ^ k] units below [2 ^ (k + 53)] units is a binary64
    number. *)
Lemma binary_round_units (s : bool) (m : positive) (e k : Z) :
  -1074 <= e -> 0 <= k <= 2045 ->
  (2 ^ k | Zpos m * 2 ^ (e + 1074)) ->
  Zpos m * 2 ^ (e + 1074) < 2 ^ (k + 53) ->
  sf_units (binary_round prec emax s m e)
  = Some (cond_Zopp s (Zpos m * 2 ^ (e + 1074))).
Proof.
  intros He Hk Hdiv Hlt.
  pose proof (digits2_pos_bounds m) as [Hlow _].
  set (d := Zpos (digits2_pos m)) in *.
  assert (Hd : 1 <= d) by (unfold d; lia).
  assert (Hc : 0 < 2 ^ (e + 1074)) by (apply Z.pow_pos_nonneg; lia).
  assert (Hsize : d + e + 1073 < k + 53).
  { apply (Z.pow_lt_mono_r_iff 2); [lia|lia|].
    apply Z.le_lt_trans with (Zpos m * 2 ^ (e + 1074)); [|exact Hlt].
    replace (d + e + 1073) with ((d - 1) + (e + 1074)) by lia.
    rewrite Z.pow_add_r by lia. apply Z.mul_le_mono_nonneg_r; lia. }
  destruct (binary_round_exact s m e He) as (m' & e' & -> & Hval).
  - fold d. unfold fexp, SpecFloat.emin, emax, prec. intros Hn.
    assert (HE : Z.max (d + e - 53) (3 - 1024 - 53) = d + e - 53) by lia.
    rewrite HE. replace (d + e - 53 - e) with (d - 53) by lia.
    apply (Z.mul_divide_cancel_r _ _ (2 ^ (e + 1074))); [lia|].
    rewrite <- Z.pow_add_r by lia.
    apply Z.divide_trans with (2 ^ k); [|exact Hdiv].
    apply pow2_divide. lia.
  - fold d. unfold fexp, SpecFloat.emin, emax, prec. lia.
  - rewrite sf_units_finite, Hval. reflexivity.
Qed.

Lemma binary_normalize_units (M ez k : Z) :
  -1074 <= ez -> 0 <= k <= 2045 ->
  (2 ^ k | M * 2 ^ (ez + 1074)) ->
  Z.abs (M * 2 ^ (ez + 1074)) < 2 ^ (k + 53) ->
  sf_units (binary_normalize prec emax M ez false) = Some (M * 2 ^ (ez + 1074)).
Proof.
  intros He Hk Hdiv Hlt.
  assert (Hc : 0 < 2 ^ (ez + 1074)) by (apply Z.pow_pos_nonneg; lia).
  destruct M as [|p|p]; unfold binary_normalize.
  - reflexivity.
  - rewrite (binary_round_units false p ez k); [reflexivity|lia|lia|exact Hdiv|].
    rewrite Z.abs_eq in Hlt by lia. exact Hlt.
  - rewrite (binary_round_units true p ez k); [|lia|lia| |].
    + unfold cond_Zopp. f_equal. rewrite <- Z.mul_opp_l. reflexivity.
    + apply Z.divide_opp_r in Hdiv. rewrite <- Z.mul_opp_l in Hdiv. exact Hdiv.
    + rewrite Z.abs_neq in Hlt by (rewrite <- Pos2Z.opp_pos; lia).
      rewrite <- Z.mul_opp_l in Hlt. exact Hlt.
Qed.


(** The aligned integer that [SFadd] and [SFsub] hand to the rounding. *)
Lemma aligned_units (sx : bool) (mx : positive) (ex ey : Z) :
  -1074 <= ex -> -1074 <= ey ->
  cond_Zopp sx (Zpos (fst (shl_align mx ex (Z.min ex ey)))) * 2 ^ (Z.min ex ey + 1074)
  = cond_Zopp sx (Zpos mx * 2 ^ (ex + 1074)).
Proof.
  intros Hx Hy.
  pose proof (shl_align_value mx ex (Z.min ex ey) ltac:(lia) ltac:(lia)) as H.
  destruct sx; unfold cond_Zopp; [rewrite Z.mul_opp_l|]; rewrite H; reflexivity.
Qed.

Section TwoFinite.
Variables (sx sy : bool) (mx my : positive) (ex ey : Z).
Hypothesis Vx : valid_binary (S754_finite sx mx ex) = true.
Hypothesis Vy : valid_binary (S754_finite sy my ey) = true.

Let a : Z := cond_Zopp sx (Zpos mx * 2 ^ (ex + 1074)).
Let b : Z := cond_Zopp sy (Zpos my * 2 ^ (ey + 1074)).
Let ez : Z := Z.min ex ey.

Lemma finite_sum_units :
  (cond_Zopp sx (Zpos (fst (shl_align mx ex ez)))
   + cond_Zopp sy (Zpos (fst (shl_align my ey ez)))) * 2 ^ (ez + 1074) = a + b.
Proof.
  pose proof (valid_exponent _ _ _ Vx). pose proof (valid_exponent _ _ _ Vy).
  rewrite Z.mul_add_distr_r. unfold ez, a, b.
  rewrite (aligned_units sx mx ex ey) by lia.
  rewrite (Z.min_comm ex ey), (aligned_units sy my ey ex) by lia. reflexivity.
Qed.

Lemma finite_difference_units :
  (cond_Zopp sx (Zpos (fst (shl_align mx ex ez)))
   - cond_Zopp sy (Zpos (fst (shl_align my ey ez)))) * 2 ^ (ez + 1074) = a - b.
Proof.
  pose proof (valid_exponent _ _ _ Vx). pose proof (valid_exponent _ _ _ Vy).
  rewrite Z.mul_sub_distr_r. unfold ez, a, b.
  rewrite (aligned_units sx mx ex ey) by lia.
  rewrite (Z.min_comm ex ey), (aligned_units sy my ey ex) by lia. reflexivity.
Qed.

End TwoFinite.


Lemma SFadd_units (x y : spec_float) (a b k : Z) :
  valid_binary x = true -> valid_binary y = true ->
  sf_units x = Some a -> sf_units y = Some b ->
  0 <= k <= 2045 -> (2 ^ k | a) -> (2 ^ k | b) -> Z.abs (a + b) < 2 ^ (k + 53) ->
  sf_units (SF64add x y) = Some (a + b).
Proof.
  intros Vx Vy Hx Hy Hk Ha Hb Hlt.
  destruct x as [sx|sx| |sx mx ex]; try discriminate;
    destruct y as [sy|sy| |sy my ey]; try discriminate;
    rewrite ?sf_units_finite, ?sf_units_zero in Hx, Hy;
    apply Some_inj in Hx, Hy; subst a b.
  - destruct sx, sy; reflexivity.
  - reflexivity.
  - unfold SF64add, SFadd. rewrite sf_units_finite, Z.add_0_r. reflexivity.
  - unfold SF64add, SFadd. cbv zeta.
    pose proof (valid_exponent _ _ _ Vx). pose proof (valid_exponent _ _ _ Vy).
    rewrite (binary_normalize_units _ _ k); rewrite ?(finite_sum_units sx sy mx my ex ey Vx Vy);
      [reflexivity|lia|lia|apply Z.divide_add_r; assumption|exact Hlt].
Qed.

Lemma SFsub_units (x y : spec_float) (a b k : Z) :
  valid_binary x = true -> valid_binary y = true ->
  sf_units x = Some a -> sf_units y = Some b ->
  0 <= k <= 2045 -> (2 ^ k | a) -> (2 ^ k | b) -> Z.abs (a - b) < 2 ^ (k + 53) ->
  sf_units (SF64sub x y) = Some (a - b).
Proof.
  intros Vx Vy Hx Hy Hk Ha Hb Hlt.
  destruct x as [sx|sx| |sx mx ex]; try discriminate;
    destruct y as [sy|sy| |sy my ey]; try discriminate;
    rewrite ?sf_units_finite, ?sf_units_zero in Hx, Hy;
    apply Some_inj in Hx, Hy; subst a b.
  - destruct sx, sy; reflexivity.
  - unfold SF64sub, SFsub. rewrite sf_units_finite. f_equal.
    destruct sy; unfold cond_Zopp; simpl negb; cbv iota; lia.
  - unfold SF64sub, SFsub. rewrite sf_units_finite, Z.sub_0_r. reflexivity.
  - unfold SF64sub, SFsub. cbv zeta.
    pose proof (valid_exponent _ _ _ Vx). pose proof (valid_exponent _ _ _ Vy).
    rewrite (binary_normalize_units _ _ k);
      rewrite ?(finite_difference_units sx sy mx my ex ey Vx Vy);
      [reflexivity|lia|lia|apply Z.divide_sub_r; assumption|exact Hlt].
Qed.



(** ** The same facts on primitive floats *)

Lemma add_units (x y : float) (a b k : Z) :
  exact_units x = Some a -> exact_units y = Some b ->
  0 <= k <= 2045 -> (2 ^ k | a) -> (2 ^ k | b) -> Z.abs (a + b) < 2 ^ (k + 53) ->
  exact_units (x + y) = Some (a + b).
Proof.
  intros Hx Hy Hk Ha Hb Hlt. rewrite exact_units_sf, add_spec.
  apply (SFadd_units _ _ a b k); try assumption; apply Prim2SF_valid.
Qed.

Lemma sub_units (x y : float) (a b k : Z) :
  exact_units x = Some a -> exact_units y = Some b ->
  0 <= k <= 2045 -> (2 ^ k | a) -> (2 ^ k | b) -> Z.abs (a - b) < 2 ^ (k + 53) ->
  exact_units (x - y) = Some (a - b).
Proof.
  intros Hx Hy Hk Ha Hb Hlt. rewrite exact_units_sf, sub_spec.
  apply (SFsub_units _ _ a b k); try assumption; apply Prim2SF_valid.
Qed.




(** ** The number of blocks times the reward *)

Lemma binary_round_aux_units (s : bool) (m : positive) (e k : Z) :
  -1074 <= e ->
  e <= fexp prec emax (Zpos (digits2_pos m) + e) ->
  0 <= k <= 2045 ->
  (2 ^ k | Zpos m * 2 ^ (e + 1074)) ->
  Zpos m * 2 ^ (e + 1074) < 2 ^ (k + 53) ->
  sf_units (binary_round_aux prec emax s (Zpos m) e loc_Exact)
  = Some (cond_Zopp s (Zpos m * 2 ^ (e + 1074))).
Proof.
  intros He Hcan Hk Hdiv Hlt.
  pose proof (digits2_pos_bounds m) as [Hlow _].
  set (d := Zpos (digits2_pos m)) in *.
  assert (Hd : 1 <= d) by (unfold d; lia).
  assert (Hc : 0 < 2 ^ (e + 1074)) by (apply Z.pow_pos_nonneg; lia).
  assert (Hsize : d + e + 1073 < k + 53).
  { apply (Z.pow_lt_mono_r_iff 2); [lia|lia|].
    apply Z.le_lt_trans with (Zpos m * 2 ^ (e + 1074)); [|exact Hlt].
    replace (d + e + 1073) with ((d - 1) + (e + 1074)) by lia.
    rewrite Z.pow_add_r by lia. apply Z.mul_le_mono_nonneg_r; lia. }
  destruct (binary_round_aux_exact s (Zpos m) e ltac:(lia)) as (m' & e' & -> & He' & Hval).
  - cbn [Zdigits2]. fold d. revert Hcan.
    unfold fexp, SpecFloat.emin, emax, prec. intros Hcan Hn.
    assert (HE : Z.max (d + e - 53) (3 - 1024 - 53) = d + e - 53) by lia.
    rewrite HE. replace (d + e - 53 - e) with (d - 53) by lia.
    apply (Z.mul_divide_cancel_r _ _ (2 ^ (e + 1074))); [lia|].
    rewrite <- Z.pow_add_r by lia.
    apply Z.divide_trans with (2 ^ k); [|exact Hdiv].
    apply pow2_divide. lia.
  - cbn [Zdigits2]. fold d. revert Hcan.
    unfold fexp, SpecFloat.emin, emax, prec. lia.
  - rewrite sf_units_finite. f_equal. f_equal. rewrite <- Hval.
    rewrite <- Z.mul_assoc, <- Z.pow_add_r by lia. f_equal. f_equal. lia.
Qed.

(** A whole number below [2 ^ 53], as a float, times the reward. *)
Lemma mul_reward_units (x : float) (n : Z) :
  0 < n < 2 ^ 53 ->
  exact_units x = Some (n * 2 ^ 1074) ->
  exact_units (x * REWARD_AMOUNT) = Some (n * 2 ^ 1075).
Proof.
  intros Hn Hx. rewrite exact_units_sf in *. rewrite FloatAxioms.mul_spec.
  pose proof (Prim2SF_valid x) as Vx.
  change (Prim2SF REWARD_AMOUNT) with (S754_finite false 4503599627370496 (-51)).
  assert (Hp : 0 < 2 ^ 1074) by (apply Z.pow_pos_nonneg; lia).
  destruct (Prim2SF x) as [sx|sx| |sx mx ex]; try discriminate.
  - rewrite sf_units_zero in Hx. apply Some_inj in Hx. nia.
  - rewrite sf_units_finite in Hx. apply Some_inj in Hx.
    destruct (valid_finite_bounds _ _ _ Vx) as (Hex & Hdx & Hnorm).
    assert (Hc : 0 < 2 ^ (ex + 1074)) by (apply Z.pow_pos_nonneg; lia).
    destruct sx; unfold cond_Zopp in Hx; [nia|].
    pose proof (digits2_pos_bounds mx) as [_ Hup].
    assert (Hmx : Zpos mx < 2 ^ 53).
    { apply Z.lt_le_trans with (2 ^ Zpos (digits2_pos mx)); [exact Hup|].
      apply Z.pow_le_mono_r; lia. }
    assert (Hex2 : -53 < ex).
    { destruct (Z.lt_ge_cases (-53) ex) as [H|H]; [exact H|exfalso].
      assert (2 ^ (ex + 1074) <= 2 ^ 1021) by (apply Z.pow_le_mono_r; lia).
      assert (2 ^ 1074 = 2 ^ 53 * 2 ^ 1021) by (vm_compute; reflexivity).
      assert (0 < 2 ^ 1021) by (apply Z.pow_pos_nonneg; lia).
      nia. }
    specialize (Hnorm ltac:(lia)).
    unfold SF64mul, SFmul. cbn [xorb].
    assert (Hdig : Zpos (digits2_pos (mx * 4503599627370496)) = Zpos (digits2_pos mx) + 52).
    { change 4503599627370496%positive with (Pos.iter xO 1 52)%positive.
      replace (mx * Pos.iter xO 1 52)%positive with (Pos.iter xO mx 52).
      - apply digits2_pos_iter_xO.
      - apply Pos2Z.inj. rewrite Pos2Z.inj_mul, !pos_iter_xO. lia. }
    assert (Hval : Zpos (mx * 4503599627370496) * 2 ^ (ex + -51 + 1074) = n * 2 ^ 1075).
    { rewrite Pos2Z.inj_mul. change (Zpos 4503599627370496) with (2 ^ 52).
      replace (2 ^ 1075) with (2 ^ 1074 * 2) by (vm_compute; reflexivity).
      rewrite Z.mul_assoc, <- Hx.
      replace (ex + 1074) with ((ex + -51 + 1074) + 51) by lia.
      rewrite (Z.pow_add_r 2 (ex + -51 + 1074) 51) by lia.
      change (2 ^ 52) with (2 ^ 51 * 2). ring. }
    rewrite (binary_round_aux_units false _ _ 1075).
    + unfold cond_Zopp. rewrite Hval. reflexivity.
    + lia.
    + rewrite Hdig, Hnorm. unfold fexp, SpecFloat.emin, emax, prec. lia.
    + lia.
    + rewrite Hval. exists n. reflexivity.
    + rewrite Hval. rewrite (Z.pow_add_r 2 1075 53) by lia. nia.
Qed.

Lemma of_nat_units (n : nat) :
  Z.of_nat n < 2 ^ 53 ->
  exact_units (of_uint63 (Uint63.of_Z (Z.of_nat n))) = Some (Z.of_nat n * 2 ^ 1074).
Proof.
  intros Hn. rewrite exact_units_sf, of_uint63_spec, Uint63.of_Z_spec.
  rewrite Z.mod_small.
  - rewrite (binary_normalize_units (Z.of_nat n) 0 1074); [reflexivity|lia|lia| |].
    + exists (Z.of_nat n). reflexivity.
    + change (0 + 1074) with 1074. rewrite Z.abs_eq by nia.
      rewrite (Z.pow_add_r 2 1074 53) by lia.
      assert (0 < 2 ^ 1074) by (apply Z.pow_pos_nonneg; lia). nia.
  - split; [lia|]. apply Z.lt_trans with (2 ^ 53); [exact Hn|]. reflexivity.
Qed.

(** Two floats with the same exact value, other than zero, are the same
    float. *)
Lemma exact_units_inj (x y : float) (u : Z) :
  exact_units x = Some u -> exact_units y = Some u -> u <> 0 -> x = y.
Proof.
  intros Hx Hy Hu. apply Prim2SF_inj.
  pose proof (Prim2SF_valid x) as Vx. pose proof (Prim2SF_valid y) as Vy.
  rewrite exact_units_sf in *.
  pose proof (SFcompare_units _ _ u u Vx Vy Hx Hy) as Hc.
  rewrite Z.compare_refl in Hc.
  destruct (Prim2SF x) as [sx|sx| |sx mx ex]; try discriminate;
    destruct (Prim2SF y) as [sy|sy| |sy my ey]; try discriminate.
  - rewrite sf_units_zero in Hx. apply Some_inj in Hx. congruence.
  - rewrite sf_units_zero in Hx. apply Some_inj in Hx. congruence.
  - rewrite sf_units_zero in Hy. apply Some_inj in Hy. congruence.
  - unfold SFcompare in Hc. apply Some_inj in Hc.
    destruct sx, sy; try discriminate;
      destruct (Z.compare_spec ex ey) as [->| |]; try discriminate;
      (assert (Hm : Pos.compare mx my = Eq)
         by (unfold Pos.compare; destruct (Pos.compare_cont Eq mx my);
             simpl in Hc; congruence));
      apply Pos.compare_eq in Hm; subst my; reflexivity.
Qed.

(** * Properties *)

Section Properties.
Context {R : Runtime}.

(** ** Blocks and their hashes *)

Lemma Block_validate_eq (f : string -> bool) (b : Block) :
  Block_validate f b = (f (header_hash b), set_block_hash b (header_hash b)).
Proof. reflexivity. Qed.

Lemma set_block_hash_same (b : Block) :
  block_hash b = header_hash b -> set_block_hash b (header_hash b) = b.
Proof. destruct b; unfold set_block_hash; simpl; intros <-; reflexivity. Qed.

(** ** The nonce search *)

Lemma pow_loop_S (fuel : nat) (c : Block) :
  pow_loop (S fuel) c =
  if proof_of_work_func (header_hash c)
  then Some (set_block_hash c (header_hash c))
  else pow_loop fuel (set_nonce (set_block_hash c (header_hash c)) (nonce c + 1)).
Proof. reflexivity. Qed.

Lemma set_nonce_same (c : Block) : set_nonce c (nonce c + Z.of_nat 0) = c.
Proof. destruct c; unfold set_nonce; simpl; f_equal; lia. Qed.

(** The loop started at nonce [nonce c] stops [d] increments later, when
    that is the first nonce from there on that meets the predicate. *)
Lemma pow_loop_first (d : nat) : forall (c : Block) (fuel : nat),
  (forall i : nat, (i < d)%nat -> meets c (nonce c + Z.of_nat i) = false) ->
  meets c (nonce c + Z.of_nat d) = true ->
  (d < fuel)%nat ->
  pow_loop fuel c = Some (found c (nonce c + Z.of_nat d)).
Proof.
  induction d as [|d IH]; intros c fuel Hlt Hd Hfuel;
    (destruct fuel as [|fuel]; [lia|]); rewrite pow_loop_S.
  - unfold meets, found in *. rewrite set_nonce_same in *.
    rewrite Hd. reflexivity.
  - assert (H0 : proof_of_work_func (header_hash c) = false).
    { specialize (Hlt 0%nat ltac:(lia)). unfold meets in Hlt.
      rewrite set_nonce_same in Hlt. exact Hlt. }
    rewrite H0.
    set (c1 := set_nonce (set_block_hash c (header_hash c)) (nonce c + 1)).
    assert (Hshift : forall i : nat,
               set_nonce c1 (nonce c1 + Z.of_nat i) =
               set_block_hash (set_nonce c (nonce c + Z.of_nat (S i))) (header_hash c)).
    { intros i. unfold c1, set_nonce, set_block_hash; simpl. f_equal. lia. }
    rewrite (IH c1 fuel).
    + unfold found. rewrite Hshift. reflexivity.
    + intros i Hi. unfold meets. rewrite Hshift.
      apply (Hlt (S i)). lia.
    + unfold meets. rewrite Hshift. exact Hd.
    + lia.
Qed.

(** While no nonce below the bound meets the predicate the loop does not
    stop. *)
Lemma pow_loop_none (fuel : nat) : forall c : Block,
  (forall i : nat, (i < fuel)%nat -> meets c (nonce c + Z.of_nat i) = false) ->
  pow_loop fuel c = None.
Proof.
  induction fuel as [|fuel IH]; intros c Hlt; [reflexivity|].
  rewrite pow_loop_S.
  assert (H0 : proof_of_work_func (header_hash c) = false).
  { specialize (Hlt 0%nat ltac:(lia)). unfold meets in Hlt.
    rewrite set_nonce_same in Hlt. exact Hlt. }
  rewrite H0. apply IH. intros i Hi.
  replace (set_nonce (set_block_hash c (header_hash c)) (nonce c + 1))
    with (set_block_hash (set_nonce c (nonce c + 1)) (header_hash c)) by reflexivity.
  unfold meets.
  replace (set_nonce _ _)
    with (set_block_hash (set_nonce c (nonce c + Z.of_nat (S i))) (header_hash c)).
  - apply (Hlt (S i)). lia.
  - unfold set_nonce, set_block_hash; simpl. f_equal. lia.
Qed.

(** A predicate on [nat] that holds somewhere has a least witness. *)
Lemma least_witness (p : nat -> bool) (k : nat) :
  p k = true ->
  exists k0 : nat, (k0 <= k)%nat /\ p k0 = true /\
                   forall j : nat, (j < k0)%nat -> p j = false.
Proof.
  induction k as [k IH] using lt_wf_ind. intros Hk.
  destruct (existsb p (seq 0 k)) eqn:E.
  - apply existsb_exists in E. destruct E as (j & Hin & Hj).
    apply in_seq in Hin.
    destruct (IH j ltac:(lia) Hj) as (k0 & Hle & Hp & Hmin).
    exists k0. repeat split; [lia|exact Hp|exact Hmin].
  - exists k. repeat split; [lia|exact Hk|].
    intros j Hj. destruct (p j) eqn:Ej; [|reflexivity].
    assert (existsb p (seq 0 k) = true); [|congruence].
    apply existsb_exists. exists j. split; [apply in_seq; lia|exact Ej].
Qed.

(** What the loop returns, when it returns. *)
Lemma pow_loop_Some (fuel : nat) : forall c c' : Block,
  pow_loop fuel c = Some c' ->
  exists d : nat, (d < fuel)%nat /\ c' = found c (nonce c + Z.of_nat d) /\
    meets c (nonce c + Z.of_nat d) = true /\
    forall i : nat, (i < d)%nat -> meets c (nonce c + Z.of_nat i) = false.
Proof.
  induction fuel as [|fuel IH]; intros c c' H; [discriminate|].
  rewrite pow_loop_S in H.
  destruct (proof_of_work_func (header_hash c)) eqn:E.
  - exists 0%nat. unfold meets, found. rewrite set_nonce_same.
    injection H as <-. repeat split; [lia|exact E|lia].
  - apply IH in H. destruct H as (d & Hd & Hc' & Hm & Hlt).
    assert (Hshift : forall i : nat,
               set_nonce (set_nonce (set_block_hash c (header_hash c)) (nonce c + 1))
                 (nonce (set_nonce (set_block_hash c (header_hash c)) (nonce c + 1))
                  + Z.of_nat i) =
               set_block_hash (set_nonce c (nonce c + Z.of_nat (S i))) (header_hash c)).
    { intros i. unfold set_nonce, set_block_hash; simpl. f_equal. lia. }
    exists (S d). unfold meets, found in *. rewrite Hshift in Hc', Hm.
    repeat split; [lia|exact Hc'|exact Hm|].
    intros [|i] Hi.
    + rewrite set_nonce_same. exact E.
    + specialize (Hlt i ltac:(lia)). rewrite Hshift in Hlt. exact Hlt.
Qed.

Lemma found_fields (b : Block) (k : Z) :
  num (found b k) = num b /\ timestamp (found b k) = timestamp b /\
  prev_block_hash (found b k) = prev_block_hash b /\
  transactions (found b k) = transactions b /\
  nonce (found b k) = k /\ block_hash (found b k) = header_hash (found b k).
Proof. repeat split. Qed.

Lemma found_set_nonce (b : Block) (j k : Z) : found (set_nonce b j) k = found b k.
Proof. reflexivity. Qed.

Lemma meets_set_nonce (b : Block) (j k : Z) : meets (set_nonce b j) k = meets b k.
Proof. reflexivity. Qed.

(** The search from nonce 0, when [k] is the first nonce that meets the
    predicate. *)
Lemma execute_pow_first (b : Block) (k : nat) :
  meets b (Z.of_nat k) = true ->
  (forall j : nat, (j < k)%nat -> meets b (Z.of_nat j) = false) ->
  (forall fuel : nat, (k < fuel)%nat ->
     execute_pow fuel b = Some (found b (Z.of_nat k))) /\
  (forall fuel : nat, (fuel <= k)%nat -> execute_pow fuel b = None).
Proof.
  intros Hk Hmin. split; intros fuel Hfuel; unfold execute_pow.
  - rewrite (pow_loop_first k); simpl nonce; rewrite ?meets_set_nonce;
      [reflexivity|exact Hmin|exact Hk|exact Hfuel].
  - apply pow_loop_none.
    intros i Hi. simpl nonce. rewrite meets_set_nonce. apply Hmin. lia.
Qed.

(** C8: when some nonce makes the header hash meet the proof-of-work
    predicate, [execute_pow] returns as soon as it is given [k + 1]
    iterations, [k] being the least such nonce (with fewer it is still
    searching); the block it returns has nonce [k], its stored hash is the
    hash of its header at that nonce and meets the predicate, and its other
    fields are those of the block passed in. *)
Theorem execute_pow_least_nonce (b : Block) :
  (exists k : nat, meets b (Z.of_nat k) = true) ->
  exists (k : nat) (b' : Block),
    (forall fuel : nat, (k < fuel)%nat -> execute_pow fuel b = Some b') /\
    (forall fuel : nat, (fuel <= k)%nat -> execute_pow fuel b = None) /\
    nonce b' = Z.of_nat k /\
    proof_of_work_func (header_hash (set_nonce b (Z.of_nat k))) = true /\
    (forall j : nat, (j < k)%nat ->
       proof_of_work_func (header_hash (set_nonce b (Z.of_nat j))) = false) /\
    block_hash b' = header_hash b' /\
    header_hash b' = header_hash (set_nonce b (Z.of_nat k)) /\
    num b' = num b /\ timestamp b' = timestamp b /\
    prev_block_hash b' = prev_block_hash b /\ transactions b' = transactions b.
Proof.
  intros [k Hk].
  destruct (least_witness (fun i => meets b (Z.of_nat i)) k Hk) as (k0 & _ & Hk0 & Hmin).
  destruct (execute_pow_first b k0 Hk0 Hmin) as [Hrun Hnone].
  exists k0, (found b (Z.of_nat k0)).
  split; [exact Hrun|split; [exact Hnone|]].
  repeat split; [exact Hk0|exact Hmin].
Qed.

(** ** Mining a block *)

Lemma mine_block_Some (fuel : nat) (now : float) (s s' : BlockchainNode) :
  mine_block fuel now s = Some s' ->
  exists k : nat,
    s' = mkNode (miner_address s)
           (blocks s ++ [found (new_block now s) (Z.of_nat k)]) [] /\
    meets (new_block now s) (Z.of_nat k) = true.
Proof.
  unfold mine_block, execute_pow. intros H.
  destruct (pow_loop fuel (set_nonce (new_block now s) 0)) as [c'|] eqn:E; [|discriminate].
  injection H as <-. apply pow_loop_Some in E.
  destruct E as (d & _ & Hc' & Hm & _). simpl nonce in *.
  rewrite found_set_nonce in Hc'. rewrite meets_set_nonce in Hm.
  exists d. subst c'. split; [reflexivity|exact Hm].
Qed.

Lemma new_block_fields (now : float) (s : BlockchainNode) :
  timestamp (new_block now s) = now /\
  transactions (new_block now s) =
    (pending_transactions s ++ [reward_for (miner_address s)])%list /\
  match list_last (blocks s) with
  | None => num (new_block now s) = 0 /\ prev_block_hash (new_block now s) = "-"
  | Some prev_block =>
      num (new_block now s) = num prev_block + 1 /\
      prev_block_hash (new_block now s) = block_hash prev_block
  end.
Proof.
  unfold new_block. destruct (list_last (blocks s)); repeat split.
Qed.

(** C3: [mine_block] has no abort path: a call that has not returned after
    some number of iterations is a call whose nonce search has found no
    nonce so far.  It returns as soon as some nonce makes the new block's
    header hash meet the proof-of-work predicate (given enough iterations,
    and then whatever the bound), and it never returns when no nonce
    does.  Whenever it returns, the chain has grown by
    exactly one block: its number is the previous block's number plus one
    and its previous hash that block's stored hash (number 0 and the sentinel
    "-" on an empty chain), its transactions are the prior pending queue in
    order followed by one reward transaction with no sender and value
    [REWARD_AMOUNT] = 2.0, and the pending queue is empty. *)
Theorem mine_block_appends_one_block (now : float) (s : BlockchainNode) :
  (forall (fuel : nat) (s' : BlockchainNode),
     mine_block fuel now s = Some s' ->
     exists b : Block,
       s' = mkNode (miner_address s) (blocks s ++ [b]) [] /\
       match list_last (blocks s) with
       | None => num b = 0 /\ prev_block_hash b = "-"
       | Some prev_block =>
           num b = num prev_block + 1 /\ prev_block_hash b = block_hash prev_block
       end /\
       transactions b =
         (pending_transactions s ++
          [mkTransaction None (miner_address s) REWARD_AMOUNT None])%list /\
       REWARD_AMOUNT = 2%float /\
       timestamp b = now /\
       block_hash b = header_hash b /\
       proof_of_work_func (block_hash b) = true) /\
  ((exists k : nat, meets (new_block now s) (Z.of_nat k) = true) ->
   exists (fuel0 : nat) (s' : BlockchainNode),
     forall fuel : nat, (fuel0 <= fuel)%nat -> mine_block fuel now s = Some s') /\
  (forall fuel : nat,
     mine_block fuel now s = None <->
     (forall k : nat, (k < fuel)%nat -> meets (new_block now s) (Z.of_nat k) = false)) /\
  ((forall k : nat, meets (new_block now s) (Z.of_nat k) = false) ->
   forall fuel : nat, mine_block fuel now s = None).
Proof.
  assert (Hnone : forall fuel : nat,
             (forall k : nat, (k < fuel)%nat ->
                meets (new_block now s) (Z.of_nat k) = false) ->
             mine_block fuel now s = None).
  { intros fuel H. unfold mine_block, execute_pow.
    rewrite pow_loop_none; [reflexivity|].
    intros i Hi. cbn [nonce set_nonce]. rewrite meets_set_nonce. apply H. exact Hi. }
  split; [|split; [|split]].
  - intros fuel s' H. apply mine_block_Some in H. destruct H as (k & -> & Hk).
    exists (found (new_block now s) (Z.of_nat k)).
    destruct (new_block_fields now s) as (Hts & Htx & Hlast).
    split; [reflexivity|]. repeat split.
    + exact Hlast.
    + exact Htx.
    + exact Hts.
    + exact Hk.
  - intros [k0 Hk0].
    destruct (least_witness (fun i => meets (new_block now s) (Z.of_nat i)) k0 Hk0)
      as (k & _ & Hk & Hmin).
    destruct (execute_pow_first (new_block now s) k Hk Hmin) as [Hrun _].
    exists (S k),
      (mkNode (miner_address s)
         (blocks s ++ [found (new_block now s) (Z.of_nat k)]) []).
    intros fuel Hfuel. unfold mine_block. rewrite Hrun by lia. reflexivity.
  - intros fuel. split; [|apply Hnone].
    intros H k Hk.
    destruct (meets (new_block now s) (Z.of_nat k)) eqn:Em; [|reflexivity].
    destruct (least_witness (fun i => meets (new_block now s) (Z.of_nat i)) k Em)
      as (k0 & Hle & Hk0 & Hmin).
    destruct (execute_pow_first (new_block now s) k0 Hk0 Hmin) as [Hrun _].
    unfold mine_block in H. rewrite (Hrun fuel) in H by lia. discriminate.
  - intros H fuel. apply Hnone. intros k _. apply H.
Qed.

(** ** The chain invariant *)

Lemma list_last_cons {A : Type} (x y : A) (l : list A) :
  list_last (x :: y :: l) = list_last (y :: l).
Proof. reflexivity. Qed.

Lemma list_last_nonempty {A : Type} (l : list A) (x : A) :
  exists z : A, list_last (x :: l) = Some z.
Proof.
  revert x. induction l as [|y l IH]; intros x; [exists x; reflexivity|].
  rewrite list_last_cons. apply IH.
Qed.

Lemma chain_from_app (bs : list Block) : forall (p : string) (b : Block),
  chain_from p bs ->
  prev_block_hash b =
    match list_last bs with
    | None => p
    | Some prev_block => block_hash prev_block
    end ->
  mined b ->
  chain_from p (bs ++ [b]).
Proof.
  induction bs as [|x rest IH]; intros p b Hc Hprev Hm.
  - simpl in *. auto.
  - destruct Hc as (Hx & Hmx & Hrest).
    change ((x :: rest) ++ [b])%list with (x :: (rest ++ [b]))%list.
    split; [exact Hx|split; [exact Hmx|]].
    apply IH; [exact Hrest| |exact Hm].
    destruct rest as [|y rest']; [exact Hprev|].
    rewrite list_last_cons in Hprev.
    destruct (list_last_nonempty rest' y) as [z Hz].
    rewrite Hz in *. exact Hprev.
Qed.

Lemma chain_from_link (bs : list Block) : forall (p : string) (i : nat) (b b' : Block),
  chain_from p bs ->
  nth_error bs i = Some b -> nth_error bs (S i) = Some b' ->
  prev_block_hash b' = block_hash b.
Proof.
  induction bs as [|x rest IH]; intros p i b b' Hc Hi HSi.
  - destruct i; discriminate.
  - destruct Hc as (_ & _ & Hrest). destruct i as [|i].
    + injection Hi as <-. destruct rest as [|y rest']; [discriminate|].
      injection HSi as <-. destruct Hrest as (Hy & _). exact Hy.
    + exact (IH _ i b b' Hrest Hi HSi).
Qed.

Lemma chain_from_mined (bs : list Block) : forall (p : string) (b : Block),
  chain_from p bs -> In b bs -> mined b.
Proof.
  induction bs as [|x rest IH]; intros p b Hc Hin; [contradiction|].
  destruct Hc as (_ & Hmx & Hrest). destruct Hin as [<-|Hin]; [exact Hmx|].
  exact (IH _ b Hrest Hin).
Qed.

Lemma found_mined (b : Block) (k : Z) : meets b k = true -> mined (found b k).
Proof. intros H. split; [reflexivity|exact H]. Qed.

Lemma mine_block_chain (fuel : nat) (now : float) (s s' : BlockchainNode) :
  chain_from "-" (blocks s) ->
  mine_block fuel now s = Some s' ->
  chain_from "-" (blocks s') /\ blocks s' <> [].
Proof.
  intros Hc H. apply mine_block_Some in H. destruct H as (k & -> & Hk).
  simpl blocks. split.
  - apply chain_from_app; [exact Hc| |apply found_mined; exact Hk].
    destruct (found_fields (new_block now s) (Z.of_nat k)) as (_ & _ & -> & _).
    destruct (new_block_fields now s) as (_ & _ & Hlast).
    destruct (list_last (blocks s)); apply Hlast.
  - destruct (blocks s); discriminate.
Qed.

Lemma submit_transaction_blocks (s : BlockchainNode) (t : Transaction) :
  blocks (snd (submit_transaction s t)) = blocks s /\
  miner_address (snd (submit_transaction s t)) = miner_address s.
Proof.
  unfold submit_transaction.
  destruct (negb (Transaction_validate t)); [split; reflexivity|].
  destruct (get_balance s (sender_address t) <? value t)%float; split; reflexivity.
Qed.

Lemma reachable_chain_from (s : BlockchainNode) :
  reachable s -> chain_from "-" (blocks s) /\ blocks s <> [].
Proof.
  induction 1 as [fuel now miner s H|s t _ IH|fuel now s s' _ IH H].
  - apply (mine_block_chain fuel now (mkNode miner [] [])); [exact I|exact H].
  - destruct (submit_transaction_blocks s t) as [-> _]. exact IH.
  - apply (mine_block_chain fuel now s); [apply IH|exact H].
Qed.

(** C1: in every state reachable from construction by [submit_transaction]
    and [mine_block] calls the chain is not empty, its first block names the
    sentinel "-", every later block names the hash stored in the block before
    it, and the recomputed header hash of every stored block meets the
    proof-of-work predicate (and is the hash the block stores). *)
Theorem reachable_chain_invariant (s : BlockchainNode) :
  reachable s ->
  blocks s <> [] /\
  (forall b : Block, nth_error (blocks s) 0 = Some b -> prev_block_hash b = "-") /\
  (forall (i : nat) (b b' : Block),
     nth_error (blocks s) i = Some b -> nth_error (blocks s) (S i) = Some b' ->
     prev_block_hash b' = block_hash b) /\
  (forall b : Block, In b (blocks s) ->
     proof_of_work_func (header_hash b) = true /\ block_hash b = header_hash b).
Proof.
  intros Hr. destruct (reachable_chain_from s Hr) as [Hc Hne].
  split; [exact Hne|split; [|split]].
  - intros b H0. destruct (blocks s) as [|x rest]; [discriminate|].
    injection H0 as <-. apply Hc.
  - intros i b b'. apply (chain_from_link _ _ _ _ _ Hc).
  - intros b Hin. destruct (chain_from_mined _ _ _ Hc Hin) as [H1 H2]. auto.
Qed.

(** ** Submitting a transaction *)

(** C4: [submit_transaction] raises [SignatureInvalid] when the signature
    does not verify; with a signature that verifies it raises
    [InsufficientFunds] when the sender's balance over the whole chain is
    strictly below the value, and otherwise returns; a call that raises
    leaves the node as it was, and a call that returns changes nothing but
    the pending queue, which has the transaction appended. *)
Theorem submit_transaction_outcomes (s : BlockchainNode) (t : Transaction) :
  (Transaction_validate t = false ->
   submit_transaction s t = (Raised SignatureInvalid, s)) /\
  (Transaction_validate t = true ->
   (get_balance s (sender_address t) <? value t)%float = true ->
   submit_transaction s t =
     (Raised (InsufficientFunds (value t) (get_balance s (sender_address t))), s)) /\
  (Transaction_validate t = true ->
   (get_balance s (sender_address t) <? value t)%float = false ->
   submit_transaction s t =
     (Returned,
      mkNode (miner_address s) (blocks s) (pending_transactions s ++ [t]))).
Proof.
  unfold submit_transaction. repeat split.
  - intros ->. reflexivity.
  - intros -> ->. reflexivity.
  - intros -> ->. reflexivity.
Qed.

(** ** Validating the chain *)

Lemma validate_blocks_cons (p : string) (b : Block) (rest : list Block) :
  validate_blocks p (b :: rest) =
  if negb (String.eqb (prev_block_hash b) p)
  then (Raised (ChainIntegrityError PreviousHashesDoNotMatch), b :: rest)
  else if negb (proof_of_work_func (header_hash b))
       then (Raised (ChainIntegrityError (WrongBlockHash (num b))), refresh b :: rest)
       else (fst (validate_blocks (header_hash b) rest),
             refresh b :: snd (validate_blocks (header_hash b) rest)).
Proof.
  cbn [validate_blocks]. rewrite Block_validate_eq.
  destruct (negb (String.eqb (prev_block_hash b) p)); [reflexivity|].
  destruct (negb (proof_of_work_func (header_hash b))); [reflexivity|].
  cbn [block_hash set_block_hash].
  destruct (validate_blocks (header_hash b) rest); reflexivity.
Qed.

Lemma refresh_mined (b : Block) : block_hash b = header_hash b -> refresh b = b.
Proof. apply set_block_hash_same. Qed.




(** On a chain as mining leaves it the walk passes the blocks before any
    position without changing them. *)
Lemma validate_blocks_prefix (pre : list Block) :
  forall (p : string) (b : Block) (post tail : list Block),
  chain_from p (pre ++ b :: post) ->
  validate_blocks p (pre ++ tail) =
  (fst (validate_blocks (prev_block_hash b) tail),
   (pre ++ snd (validate_blocks (prev_block_hash b) tail))%list).
Proof.
  induction pre as [|x pre IH]; intros p b post tail Hc.
  - destruct Hc as (-> & _). cbn [app]. apply surjective_pairing.
  - destruct Hc as (Hx & (Hhash & Hpow) & Hrest).
    change ((x :: pre) ++ tail)%list with (x :: (pre ++ tail))%list.
    rewrite validate_blocks_cons.
    rewrite Hx, String.eqb_refl, Hpow. simpl negb. cbv iota.
    rewrite refresh_mined by exact Hhash.
    rewrite <- Hhash. rewrite (IH _ b post tail Hrest). reflexivity.
Qed.

Lemma validate_blocks_good (bs : list Block) : forall p : string,
  chain_from p bs -> validate_blocks p bs = (Returned, bs).
Proof.
  induction bs as [|x rest IH]; intros p Hc; [reflexivity|].
  destruct Hc as (Hx & (Hhash & Hpow) & Hrest).
  rewrite validate_blocks_cons, Hx, String.eqb_refl, Hpow. simpl negb. cbv iota.
  rewrite refresh_mined by exact Hhash.
  rewrite <- Hhash, (IH _ Hrest). reflexivity.
Qed.

(** C6, amended: in a chain produced by [mine_block] calls, overwrite the
    timestamp and the transaction list of one stored block (a changed
    transaction value is a changed list) so that the recomputed header hash
    changes, and do not mine again.  Then [validate_chain] raises a
    [ChainIntegrityError] when the block is not the last one or when the new
    hash does not meet the proof-of-work predicate; when the block is the
    last one and the new hash still meets the predicate, [validate_chain]
    returns. *)
Theorem validate_chain_after_tampering
  (s : BlockchainNode) (pre post : list Block) (b : Block)
  (ts : float) (txs : list Transaction) :
  reachable s ->
  blocks s = (pre ++ b :: post)%list ->
  header_hash (tamper b ts txs) <> header_hash b ->
  let s1 := mkNode (miner_address s) (pre ++ tamper b ts txs :: post)
              (pending_transactions s) in
  (post <> [] \/ proof_of_work_func (header_hash (tamper b ts txs)) = false ->
   exists (v : IntegrityViolation) (s2 : BlockchainNode),
     validate_chain s1 = (Raised (ChainIntegrityError v), s2)) /\
  (post = [] /\ proof_of_work_func (header_hash (tamper b ts txs)) = true ->
   exists s2 : BlockchainNode, validate_chain s1 = (Returned, s2)).
Proof.
  intros Hr Hbs Hneq s1.
  destruct (reachable_chain_from s Hr) as [Hc _]. rewrite Hbs in Hc.
  assert (Hb : chain_from (prev_block_hash b) (b :: post)).
  { clear - Hc. revert Hc. generalize "-". induction pre as [|x pre IH]; intros p Hc.
    - destruct Hc as (Hp & Hrest). split; [reflexivity|exact Hrest].
    - destruct Hc as (_ & _ & Hrest). exact (IH _ Hrest). }
  destruct Hb as (_ & (Hhash & _) & Hpost).
  unfold validate_chain, s1. simpl blocks.
  rewrite (validate_blocks_prefix pre _ b post _ Hc).
  rewrite validate_blocks_cons.
  change (prev_block_hash (tamper b ts txs)) with (prev_block_hash b).
  rewrite String.eqb_refl. simpl negb. cbv iota.
  split.
  - intros Hcase.
    destruct (proof_of_work_func (header_hash (tamper b ts txs))) eqn:Epow.
    + destruct Hcase as [Hne|Hf]; [|discriminate].
      destruct post as [|c post']; [contradiction|].
      destruct Hpost as (Hc1 & _).
      simpl negb. cbv iota. rewrite validate_blocks_cons.
      assert (Heqb : String.eqb (prev_block_hash c) (header_hash (tamper b ts txs)) = false).
      { apply String.eqb_neq. rewrite Hc1, Hhash. congruence. }
      rewrite Heqb. simpl. eauto.
    + simpl. eauto.
  - intros [-> Hpow]. rewrite Hpow. simpl. eauto.
Qed.

(** ** Balances *)

Lemma PublicKey_eqb_eq (k1 k2 : PublicKey) : PublicKey_eqb k1 k2 = true <-> k1 = k2.
Proof.
  destruct k1 as [n1 e1], k2 as [n2 e2]. unfold PublicKey_eqb. simpl.
  rewrite andb_true_iff, !Z.eqb_eq. split.
  - intros [-> ->]. reflexivity.
  - intros H. injection H as -> ->. split; reflexivity.
Qed.

Lemma PublicKey_eqb_neq (k1 k2 : PublicKey) : PublicKey_eqb k1 k2 = false <-> k1 <> k2.
Proof.
  rewrite <- PublicKey_eqb_eq. destruct (PublicKey_eqb k1 k2); split; congruence.
Qed.

Lemma address_eqb_eq (a b : option PublicKey) : address_eqb a b = true <-> a = b.
Proof.
  destruct a as [k1|], b as [k2|]; simpl; try (split; congruence).
  rewrite PublicKey_eqb_eq. split; congruence.
Qed.

Lemma address_eqb_neq (a b : option PublicKey) : address_eqb a b = false <-> a <> b.
Proof.
  rewrite <- address_eqb_eq. destruct (address_eqb a b); split; congruence.
Qed.

Lemma address_eqb_refl (a : option PublicKey) : address_eqb a a = true.
Proof. apply address_eqb_eq. reflexivity. Qed.

Lemma fold_blocks_flat (address : option PublicKey) (bs : list Block) :
  forall acc : float,
  fold_left (balance_block address) bs acc =
  fold_left (balance_step address) (flat_map transactions bs) acc.
Proof.
  induction bs as [|b bs IH]; intros acc; [reflexivity|].
  simpl. rewrite fold_left_app. apply IH.
Qed.

Lemma get_balance_flat (s : BlockchainNode) (address : option PublicKey) :
  get_balance s address = fold_left (balance_step address) (all_transactions s) 0%float.
Proof. apply fold_blocks_flat. Qed.

(** Where the source and the specification's wording agree: on every
    transaction that does not have [address] on both sides. *)
Lemma balance_step_spec (address : option PublicKey) (acc : float) (t : Transaction) :
  address_eqb (sender_address t) address
  && address_eqb (Some (recipient_address t)) address = false ->
  balance_step address acc t = spec_balance_step address acc t.
Proof.
  unfold balance_step, spec_balance_step.
  destruct (address_eqb (sender_address t) address),
           (address_eqb (Some (recipient_address t)) address);
    simpl; intros H; try discriminate; reflexivity.
Qed.

Lemma get_balance_spec_agree (s : BlockchainNode) (address : option PublicKey) :
  (forall t : Transaction, In t (all_transactions s) ->
     address_eqb (sender_address t) address
     && address_eqb (Some (recipient_address t)) address = false) ->
  get_balance s address = spec_get_balance s address.
Proof.
  rewrite get_balance_flat. unfold spec_get_balance.
  generalize 0%float. induction (all_transactions s) as [|t l IH]; intros acc H.
  - reflexivity.
  - simpl. rewrite balance_step_spec by (apply H; left; reflexivity).
    apply IH. intros t' Ht'. apply H. right. exact Ht'.
Qed.

(** An address that no transaction names has balance 0. *)
Lemma get_balance_unseen (s : BlockchainNode) (address : option PublicKey) :
  (forall t : Transaction, In t (all_transactions s) ->
     address_eqb (sender_address t) address = false /\
     address_eqb (Some (recipient_address t)) address = false) ->
  get_balance s address = 0%float.
Proof.
  rewrite get_balance_flat.
  generalize 0%float. induction (all_transactions s) as [|t l IH]; intros acc H.
  - reflexivity.
  - simpl. unfold balance_step at 2.
    destruct (H t ltac:(left; reflexivity)) as [-> ->].
    apply IH. intros t' Ht'. apply H. right. exact Ht'.
Qed.

(** The balances after a block was mined: the traversal goes on through the
    pending queue and the reward. *)
Lemma get_balance_mined (fuel : nat) (now : float) (s s' : BlockchainNode)
  (address : option PublicKey) :
  mine_block fuel now s = Some s' ->
  get_balance s' address =
  balance_step address (queued_balance s address) (reward_for (miner_address s)).
Proof.
  intros H. apply mine_block_Some in H. destruct H as (k & -> & _).
  unfold get_balance, queued_balance. simpl blocks.
  rewrite fold_left_app. simpl fold_left. unfold balance_block at 1.
  destruct (found_fields (new_block now s) (Z.of_nat k)) as (_ & _ & _ & -> & _).
  destruct (new_block_fields now s) as (_ & -> & _).
  rewrite fold_left_app. reflexivity.
Qed.

Lemma balance_step_reward_other (a miner : PublicKey) (acc : float) :
  a <> miner -> balance_step (Some a) acc (reward_for miner) = acc.
Proof.
  intros Hne. unfold balance_step, reward_for. simpl.
  destruct (PublicKey_eqb miner a) eqn:E; [|reflexivity].
  apply PublicKey_eqb_eq in E. congruence.
Qed.

(** ** Spending the same balance several times *)

Lemma submit_returns (s : BlockchainNode) (t : Transaction) :
  Transaction_validate t = true ->
  (get_balance s (sender_address t) <? value t)%float = false ->
  submit_transaction s t =
  (Returned, mkNode (miner_address s) (blocks s) (pending_transactions s ++ [t])).
Proof. intros Hv Hb. unfold submit_transaction. rewrite Hv, Hb. reflexivity. Qed.







(** ** Transfers of a negative value *)

(** A transfer of a negative value between two different keys.
    [submit_transaction] does not look at the sign of the value:
    a validly signed transaction with a value below zero is accepted whenever
    the sender's balance is at least the value, so for every sender whose
    balance is 0; once it is mined, at its place in the block it raises the
    sender's balance by the absolute value and lowers the recipient's by the
    absolute value.  The balances after the block are these, with the
    block's reward added for the miner. *)
Lemma negative_value_transfer
  (s : BlockchainNode) (t : Transaction) (a : PublicKey) :
  sender_address t = Some a ->
  recipient_address t <> a ->
  Transaction_validate t = true ->
  (value t <? 0)%float = true ->
  let accepted :=
    (Returned, mkNode (miner_address s) (blocks s) (pending_transactions s ++ [t])) in
  ((value t <=? get_balance s (Some a))%float = true ->
   submit_transaction s t = accepted) /\
  ((get_balance s (Some a) =? 0)%float = true ->
   submit_transaction s t = accepted) /\
  (forall balance : float,
     balance_step (Some a) balance t = (balance + abs (value t))%float /\
     balance_step (Some (recipient_address t)) balance t
     = (balance - abs (value t))%float) /\
  (forall (fuel : nat) (now : float) (s' : BlockchainNode),
     mine_block fuel now (snd accepted) = Some s' ->
     get_balance s' (Some a) =
       balance_step (Some a) (queued_balance s (Some a) + abs (value t))%float
         (reward_for (miner_address s)) /\
     get_balance s' (Some (recipient_address t)) =
       balance_step (Some (recipient_address t))
         (queued_balance s (Some (recipient_address t)) - abs (value t))%float
         (reward_for (miner_address s))).
Proof.
  intros Hs Hne Hsig Hneg accepted.
  assert (Hsender : forall balance : float,
             balance_step (Some a) balance t = (balance + abs (value t))%float).
  { intros balance. unfold balance_step. rewrite Hs, address_eqb_refl.
    apply sub_negative. exact Hneg. }
  assert (Hrecipient : forall balance : float,
             balance_step (Some (recipient_address t)) balance t
             = (balance - abs (value t))%float).
  { intros balance. unfold balance_step. rewrite Hs, address_eqb_refl.
    assert (E : address_eqb (Some a) (Some (recipient_address t)) = false)
      by (apply address_eqb_neq; congruence).
    rewrite E. apply add_negative. exact Hneg. }
  assert (Haccept : (value t <=? get_balance s (Some a))%float = true ->
                    submit_transaction s t = accepted).
  { intros Hle. apply submit_returns; [exact Hsig|].
    rewrite Hs. apply leb_not_ltb. exact Hle. }
  split; [exact Haccept|split; [|split]].
  - intros H0. apply Haccept. apply zero_geq_negative; assumption.
  - intros balance. split; [apply Hsender|apply Hrecipient].
  - intros fuel now s' Hmine.
    assert (Hq : forall x : option PublicKey,
               queued_balance (snd accepted) x = balance_step x (queued_balance s x) t).
    { intros x. unfold queued_balance, accepted. simpl.
      rewrite fold_left_app. reflexivity. }
    split; rewrite (get_balance_mined _ _ _ _ _ Hmine), Hq; simpl miner_address;
      [rewrite Hsender|rewrite Hrecipient]; reflexivity.
Qed.

(** ** Conservation, in exact arithmetic *)

Lemma units_step_shift (address : option PublicKey) (acc : Z) (t : Transaction) :
  units_step address acc t = acc + units_step address 0 t.
Proof.
  unfold units_step.
  destruct (address_eqb (sender_address t) address); [lia|].
  destruct (address_eqb (Some (recipient_address t)) address); lia.
Qed.

Lemma fold_units_step (address : option PublicKey) (l : list Transaction) :
  forall acc : Z,
  fold_left (units_step address) l acc = acc + sumZ (map (units_step address 0) l).
Proof.
  induction l as [|t l IH]; intros acc; simpl; [lia|].
  rewrite IH, (units_step_shift address acc t). lia.
Qed.

Lemma sumZ_map_add {A : Type} (f g : A -> Z) (l : list A) :
  sumZ (map (fun a => f a + g a) l) = sumZ (map f l) + sumZ (map g l).
Proof. induction l as [|a l IH]; simpl; lia. Qed.

Lemma sumZ_app (l1 l2 : list Z) : sumZ (l1 ++ l2) = sumZ l1 + sumZ l2.
Proof. induction l1 as [|z l1 IH]; simpl; lia. Qed.

Lemma sumZ_swap {A B : Type} (F : A -> B -> Z) (la : list A) (lb : list B) :
  sumZ (map (fun a => sumZ (map (F a) lb)) la) =
  sumZ (map (fun b => sumZ (map (fun a => F a b) la)) lb).
Proof.
  induction lb as [|b lb IH]; simpl.
  - induction la as [|a la IHa]; simpl; lia.
  - rewrite (sumZ_map_add (fun a => F a b) (fun a => sumZ (map (F a) lb))), IH.
    reflexivity.
Qed.

Lemma sumZ_indicator_out (k : PublicKey) (x : Z) (l : list PublicKey) :
  ~ In k l -> sumZ (map (fun a => if PublicKey_eqb k a then x else 0) l) = 0.
Proof.
  induction l as [|a l IH]; intros Hout; simpl; [reflexivity|].
  destruct (PublicKey_eqb k a) eqn:E.
  - apply PublicKey_eqb_eq in E. subst a. exfalso. apply Hout. left. reflexivity.
  - rewrite IH; [reflexivity|]. intros H. apply Hout. right. exact H.
Qed.

Lemma sumZ_indicator_in (k : PublicKey) (x : Z) (l : list PublicKey) :
  NoDup l -> In k l -> sumZ (map (fun a => if PublicKey_eqb k a then x else 0) l) = x.
Proof.
  induction 1 as [|a l Hout Hnd IH]; intros Hin; [contradiction|]. simpl.
  destruct (PublicKey_eqb k a) eqn:E.
  - apply PublicKey_eqb_eq in E. subst a.
    rewrite sumZ_indicator_out by exact Hout. lia.
  - apply PublicKey_eqb_neq in E. destruct Hin as [->|Hin]; [congruence|].
    rewrite IH by exact Hin. reflexivity.
Qed.

(** Over a set of keys that holds both parties, a transfer between two
    different keys nets to zero. *)
Lemma transfer_nets_to_zero (t : Transaction) (k : PublicKey) (l : list PublicKey) :
  NoDup l -> sender_address t = Some k -> k <> recipient_address t ->
  In k l -> In (recipient_address t) l ->
  sumZ (map (fun a => units_step (Some a) 0 t) l) = 0.
Proof.
  intros Hnd Hs Hne Hk Hr.
  rewrite (map_ext _ (fun a => (if PublicKey_eqb k a then - units_of t else 0)
                               + (if PublicKey_eqb (recipient_address t) a
                                  then units_of t else 0))).
  - rewrite sumZ_map_add, !sumZ_indicator_in by assumption. lia.
  - intros a. unfold units_step. rewrite Hs. simpl.
    destruct (PublicKey_eqb k a) eqn:E1;
      destruct (PublicKey_eqb (recipient_address t) a) eqn:E2; try lia.
    apply PublicKey_eqb_eq in E1, E2. congruence.
Qed.

(** A transaction without a sender adds its value to the total. *)
Lemma reward_adds_value (t : Transaction) (l : list PublicKey) :
  NoDup l -> sender_address t = None -> In (recipient_address t) l ->
  sumZ (map (fun a => units_step (Some a) 0 t) l) = units_of t.
Proof.
  intros Hnd Hs Hr.
  rewrite (map_ext _ (fun a => if PublicKey_eqb (recipient_address t) a
                               then units_of t else 0)).
  - apply sumZ_indicator_in; assumption.
  - intros a. unfold units_step. rewrite Hs. simpl.
    destruct (PublicKey_eqb (recipient_address t) a); lia.
Qed.

Lemma reward_units (miner : PublicKey) :
  units_of (mkTransaction None miner REWARD_AMOUNT None) = 2 ^ 1075.
Proof. reflexivity. Qed.

Lemma reachable_block_shape (s : BlockchainNode) :
  reachable s ->
  Forall (fun t => sender_address t <> None) (pending_transactions s) /\
  Forall (block_shape (miner_address s)) (blocks s).
Proof.
  assert (Hmine : forall fuel now s0 s1,
             Forall (fun t => sender_address t <> None) (pending_transactions s0) ->
             Forall (block_shape (miner_address s0)) (blocks s0) ->
             mine_block fuel now s0 = Some s1 ->
             Forall (fun t => sender_address t <> None) (pending_transactions s1) /\
             Forall (block_shape (miner_address s1)) (blocks s1)).
  { intros fuel now s0 s1 Hp Hb H. apply mine_block_Some in H.
    destruct H as (k & -> & _). simpl. split; [constructor|].
    apply Forall_app. split; [exact Hb|]. constructor; [|constructor].
    exists (pending_transactions s0). split; [|exact Hp].
    destruct (found_fields (new_block now s0) (Z.of_nat k)) as (_ & _ & _ & -> & _).
    apply new_block_fields. }
  induction 1 as [fuel now miner s H|s t _ IH|fuel now s s' _ IH H].
  - apply (Hmine fuel now (mkNode miner [] []) s); [constructor|constructor|exact H].
  - destruct IH as [Hp Hb]. unfold submit_transaction.
    destruct (Transaction_validate t) eqn:Hv; simpl; [|split; assumption].
    destruct (get_balance s (sender_address t) <? value t)%float; simpl;
      [split; assumption|].
    split; [|exact Hb]. apply Forall_app. split; [exact Hp|].
    constructor; [|constructor]. unfold Transaction_validate in Hv.
    destruct (sender_address t); [discriminate|discriminate Hv].
  - destruct IH as [Hp Hb]. exact (Hmine fuel now s s' Hp Hb H).
Qed.

(** Without rounding, and without transfers of a key to itself, the
    balances of the keys that occur in the chain add up to the rewards. *)
Lemma exact_balances_total (s : BlockchainNode) :
  reachable s ->
  (forall t : Transaction, In t (all_transactions s) ->
     sender_address t <> Some (recipient_address t)) ->
  sumZ (map (fun a => exact_balance s (Some a)) (seen_addresses s))
  = Z.of_nat (List.length (blocks s)) * 2 ^ 1075.
Proof.
  intros Hr Hself.
  destruct (reachable_block_shape s Hr) as [_ Hshape].
  assert (Hnd : NoDup (seen_addresses s)) by apply NoDup_nodup.
  assert (Hseen : forall t k, In t (all_transactions s) -> In k (tx_addresses t) ->
                              In k (seen_addresses s)).
  { intros t k Ht Hk. apply nodup_In. apply in_flat_map. exists t. auto. }
  unfold exact_balance.
  rewrite (map_ext _ (fun a => sumZ (map (units_step (Some a) 0) (all_transactions s))))
    by (intros a; rewrite fold_units_step; lia).
  rewrite (sumZ_swap (fun a t => units_step (Some a) 0 t)).
  revert Hself Hseen. unfold all_transactions.
  generalize (seen_addresses s) Hnd. intros l Hl.
  induction Hshape as [|b bs (txs & Htx & Hsend) _ IH]; intros Hself Hseen.
  - reflexivity.
  - cbn [flat_map List.length]. rewrite map_app, sumZ_app, IH.
    + assert (Hb : sumZ (map (fun t => sumZ (map (fun a => units_step (Some a) 0 t) l))
                           (transactions b)) = 2 ^ 1075).
      { assert (Hin : forall t, In t (transactions b) ->
                                In t (flat_map transactions (b :: bs))).
        { intros t Ht. cbn [flat_map]. apply in_or_app. left. exact Ht. }
        rewrite Htx in *. rewrite map_app, sumZ_app. cbn [map sumZ].
        rewrite reward_adds_value;
          [rewrite reward_units| exact Hl | reflexivity
          | apply (Hseen (mkTransaction None (miner_address s) REWARD_AMOUNT None));
            [apply Hin, in_or_app; right; left; reflexivity|left; reflexivity]].
        assert (Hz : sumZ (map (fun t => sumZ (map (fun a => units_step (Some a) 0 t) l))
                             txs) = 0).
        { assert (Hsub : forall t, In t txs ->
                    In t (flat_map transactions (b :: bs)))
            by (intros t Ht; apply Hin, in_or_app; left; exact Ht).
          clear Htx Hin. induction txs as [|t txs IHt]; [reflexivity|].
          cbn [map sumZ]. rewrite IHt.
          - destruct (sender_address t) as [k|] eqn:Hs.
            + rewrite (transfer_nets_to_zero t k l); [reflexivity|exact Hl|exact Hs| | |].
              * intros ->. apply (Hself t); [apply Hsub; left; reflexivity|exact Hs].
              * apply (Hseen t); [apply Hsub; left; reflexivity|].
                unfold tx_addresses. rewrite Hs. left. reflexivity.
              * apply (Hseen t); [apply Hsub; left; reflexivity|].
                unfold tx_addresses. rewrite Hs. right. left. reflexivity.
            + exfalso. apply (Forall_inv Hsend). exact Hs.
          - exact (Forall_inv_tail Hsend).
          - intros t' Ht'. apply Hsub. right. exact Ht'. }
        rewrite Hz. lia. }
      rewrite Hb. lia.
    + intros t Ht. apply Hself. cbn [flat_map]. apply in_or_app. right. exact Ht.
    + intros t k Ht. apply Hseen. cbn [flat_map]. apply in_or_app. right. exact Ht.
Qed.

(** ** Conservation, on the floats *)

Lemma volume_nonneg (l : list Transaction) : 0 <= volume l.
Proof. unfold volume. induction l as [|t l IH]; simpl; lia. Qed.

Lemma volume_app (l1 l2 : list Transaction) : volume (l1 ++ l2) = volume l1 + volume l2.
Proof. unfold volume. rewrite map_app. apply sumZ_app. Qed.

(** Every block holds a reward, so the volume is at least the rewards. *)
Lemma rewards_in_volume (miner : PublicKey) (bs : list Block) :
  Forall (block_shape miner) bs ->
  Z.of_nat (List.length bs) * 2 ^ 1075 <= volume (flat_map transactions bs).
Proof.
  induction 1 as [|b bs (txs & Htx & _) _ IH]; [unfold volume; simpl; lia|].
  cbn [flat_map List.length]. rewrite volume_app, Htx, volume_app.
  pose proof (volume_nonneg txs).
  change (volume [mkTransaction None miner REWARD_AMOUNT None]) with (2 ^ 1075 + 0).
  lia.
Qed.

Lemma issued_units (s : BlockchainNode) :
  0 < Z.of_nat (List.length (blocks s)) < 2 ^ 53 ->
  exact_units (issued s) = Some (Z.of_nat (List.length (blocks s)) * 2 ^ 1075).
Proof.
  intros Hn. unfold issued. apply mul_reward_units; [exact Hn|].
  apply of_nat_units. lia.
Qed.

Lemma units_of_grid (k : Z) (t : Transaction) (n : Z) :
  exact_units (value t) = Some (n * 2 ^ k) -> units_of t = n * 2 ^ k.
Proof. unfold units_of. intros ->. reflexivity. Qed.

Lemma units_step_cases (address : option PublicKey) (z : Z) (t : Transaction) :
  units_step address z t = z - units_of t \/
  units_step address z t = z + units_of t \/
  units_step address z t = z.
Proof.
  unfold units_step. destruct (address_eqb (sender_address t) address); [auto|].
  destruct (address_eqb (Some (recipient_address t)) address); auto.
Qed.

(** One step of the traversal on floats is the step on exact values, as
    long as the values lie on a grid and the result stays in range. *)
Lemma balance_step_exact
  (address : option PublicKey) (k : Z) (acc : float) (z : Z) (t : Transaction) (n : Z) :
  0 <= k <= 2045 ->
  exact_units acc = Some z -> (2 ^ k | z) ->
  exact_units (value t) = Some (n * 2 ^ k) ->
  Z.abs z + Z.abs (units_of t) < 2 ^ (k + 53) ->
  exact_units (balance_step address acc t) = Some (units_step address z t) /\
  (2 ^ k | units_step address z t).
Proof.
  intros Hk Hacc Hz Hv Hlt. rewrite (units_of_grid k t n Hv) in Hlt.
  assert (Hn : (2 ^ k | n * 2 ^ k)) by (exists n; reflexivity).
  unfold balance_step, units_step. rewrite (units_of_grid k t n Hv).
  destruct (address_eqb (sender_address t) address).
  - split; [|apply Z.divide_sub_r; assumption].
    apply (sub_units _ _ z (n * 2 ^ k) k); try assumption. lia.
  - destruct (address_eqb (Some (recipient_address t)) address).
    + split; [|apply Z.divide_add_r; assumption].
      apply (add_units _ _ z (n * 2 ^ k) k); try assumption. lia.
    + split; assumption.
Qed.

Lemma units_step_bound (address : option PublicKey) (z : Z) (t : Transaction) :
  Z.abs (units_step address z t) <= Z.abs z + Z.abs (units_of t).
Proof. destruct (units_step_cases address z t) as [->|[->| ->]]; lia. Qed.

(** The traversal of [get_balance] on floats is the traversal on exact
    values, when the values lie on a grid and their absolute values add up
    to less than [2 ^ 53] grid steps. *)
Lemma fold_balance_exact (address : option PublicKey) (k : Z) (l : list Transaction) :
  0 <= k <= 2045 ->
  (forall t : Transaction, In t l -> exists n : Z, exact_units (value t) = Some (n * 2 ^ k)) ->
  forall (acc : float) (z : Z),
  exact_units acc = Some z -> (2 ^ k | z) ->
  Z.abs z + volume l < 2 ^ (k + 53) ->
  exact_units (fold_left (balance_step address) l acc)
  = Some (fold_left (units_step address) l z) /\
  (2 ^ k | fold_left (units_step address) l z).
Proof.
  intros Hk. induction l as [|t l IH]; intros Hgrid acc z Hacc Hz Hlt.
  - split; assumption.
  - cbn [fold_left]. destruct (Hgrid t (or_introl eq_refl)) as [n Hn].
    change (volume (t :: l)) with (Z.abs (units_of t) + volume l) in Hlt.
    pose proof (volume_nonneg l) as Hvol.
    destruct (balance_step_exact address k acc z t n Hk Hacc Hz Hn ltac:(lia))
      as [Hstep Hdiv].
    apply IH; [|exact Hstep|exact Hdiv|].
    + intros t' Ht'. apply Hgrid. right. exact Ht'.
    + pose proof (units_step_bound address z t). lia.
Qed.

Lemma get_balance_exact (s : BlockchainNode) (address : option PublicKey) (k : Z) :
  0 <= k <= 2045 -> values_on_grid k s -> total_volume s < 2 ^ (k + 53) ->
  exact_units (get_balance s address) = Some (exact_balance s address) /\
  (2 ^ k | exact_balance s address).
Proof.
  intros Hk Hgrid Hvol. rewrite get_balance_flat. unfold exact_balance.
  apply (fold_balance_exact address k (all_transactions s) Hk Hgrid);
    [reflexivity|apply Z.divide_0_r|exact Hvol].
Qed.

(** *** The sum of the balances *)

Lemma sumZ_indicator (k : PublicKey) (x : Z) (l : list PublicKey) :
  NoDup l ->
  sumZ (map (fun a => if PublicKey_eqb k a then x else 0) l) = x \/
  sumZ (map (fun a => if PublicKey_eqb k a then x else 0) l) = 0.
Proof.
  intros Hnd. destruct (in_dec PublicKey_eq_dec k l) as [Hin|Hout].
  - left. apply sumZ_indicator_in; assumption.
  - right. apply sumZ_indicator_out; assumption.
Qed.

(** Over keys that are all different, one transaction moves at most its
    own value. *)
Lemma contribution_bound (t : Transaction) (l : list PublicKey) :
  NoDup l ->
  Z.abs (sumZ (map (fun a => units_step (Some a) 0 t) l)) <= Z.abs (units_of t).
Proof.
  intros Hnd. destruct (sender_address t) as [k|] eqn:Hs.
  - destruct (PublicKey_eqb k (recipient_address t)) eqn:E.
    + apply PublicKey_eqb_eq in E.
      rewrite (map_ext _ (fun a => if PublicKey_eqb k a then - units_of t else 0)).
      * destruct (sumZ_indicator k (- units_of t) l Hnd) as [-> | ->]; lia.
      * intros a. unfold units_step. rewrite Hs, <- E. simpl.
        destruct (PublicKey_eqb k a); lia.
    + apply PublicKey_eqb_neq in E.
      rewrite (map_ext _ (fun a => (if PublicKey_eqb k a then - units_of t else 0)
                                   + (if PublicKey_eqb (recipient_address t) a
                                      then units_of t else 0))).
      * rewrite sumZ_map_add.
        destruct (sumZ_indicator k (- units_of t) l Hnd) as [-> | ->];
          destruct (sumZ_indicator (recipient_address t) (units_of t) l Hnd)
            as [-> | ->]; lia.
      * intros a. unfold units_step. rewrite Hs. simpl.
        destruct (PublicKey_eqb k a) eqn:E1;
          destruct (PublicKey_eqb (recipient_address t) a) eqn:E2; try lia.
        apply PublicKey_eqb_eq in E1, E2. congruence.
  - rewrite (map_ext _ (fun a => if PublicKey_eqb (recipient_address t) a
                                 then units_of t else 0)).
    + destruct (sumZ_indicator (recipient_address t) (units_of t) l Hnd) as [-> | ->];
        lia.
    + intros a. unfold units_step. rewrite Hs. simpl.
      destruct (PublicKey_eqb (recipient_address t) a); lia.
Qed.

Lemma sumZ_abs_bound {A : Type} (f : A -> Z) (g : A -> Z) (l : list A) :
  (forall x : A, In x l -> Z.abs (f x) <= g x) ->
  Z.abs (sumZ (map f l)) <= sumZ (map g l).
Proof.
  induction l as [|x l IH]; intros H; simpl; [lia|].
  specialize (H x (or_introl eq_refl)) as Hx.
  specialize (IH (fun y Hy => H y (or_intror Hy))). lia.
Qed.

(** The balances of keys that are all different add up, in absolute value,
    to at most the volume of the chain. *)
Lemma balances_bound (s : BlockchainNode) (l : list PublicKey) :
  NoDup l ->
  Z.abs (sumZ (map (fun a => exact_balance s (Some a)) l)) <= total_volume s.
Proof.
  intros Hnd. unfold exact_balance.
  rewrite (map_ext _ (fun a => sumZ (map (units_step (Some a) 0) (all_transactions s))))
    by (intros a; rewrite fold_units_step; lia).
  rewrite (sumZ_swap (fun a t => units_step (Some a) 0 t)).
  unfold total_volume, volume. apply sumZ_abs_bound.
  intros t _. apply contribution_bound. exact Hnd.
Qed.

(** A float sum is the exact sum while every partial sum stays in range. *)
Lemma fold_add_exact {A : Type} (f : A -> float) (u : A -> Z) (k : Z) (l : list A) :
  0 <= k <= 2045 ->
  (forall x : A, In x l -> exact_units (f x) = Some (u x) /\ (2 ^ k | u x)) ->
  forall (acc : float) (z : Z),
  exact_units acc = Some z -> (2 ^ k | z) ->
  (forall l1 l2 : list A, l = (l1 ++ l2)%list ->
     Z.abs (z + sumZ (map u l1)) < 2 ^ (k + 53)) ->
  exact_units (fold_left (fun acc x => (acc + f x)%float) l acc)
  = Some (z + sumZ (map u l)).
Proof.
  intros Hk. induction l as [|x l IH]; intros Hf acc z Hacc Hz Hpre.
  - simpl. rewrite Z.add_0_r. exact Hacc.
  - cbn [fold_left map sumZ]. destruct (Hf x (or_introl eq_refl)) as [Hx Hdx].
    rewrite Z.add_assoc. apply IH.
    + intros y Hy. apply Hf. right. exact Hy.
    + apply (add_units _ _ z (u x) k); try assumption.
      specialize (Hpre [x] l eq_refl). simpl in Hpre.
      rewrite Z.add_0_r in Hpre. exact Hpre.
    + apply Z.divide_add_r; assumption.
    + intros l1 l2 Hl. specialize (Hpre (x :: l1) l2).
      rewrite Hl in Hpre. specialize (Hpre eq_refl).
      cbn [map sumZ] in Hpre. rewrite Z.add_assoc in Hpre. exact Hpre.
Qed.

(** C7, amended: for a chain built through [submit_transaction] and
    [mine_block] in which no transaction has its sender as recipient, if
    every transaction value is a whole multiple of one power of two and the
    absolute values of all transactions add up to less than [2 ^ 53] times
    that power (so that no sum the code forms has to be rounded), then every
    [get_balance] result is exactly the credits minus the debits of its
    key, and the float sum of the balances over the keys that occur in the
    chain is the number of blocks times the reward 2.0, exactly and as a
    float.  Values are counted in units of [2 ^ -1074], in which 2.0 is
    [2 ^ 1075] and the power of two is [2 ^ k]. *)
Theorem balance_conservation_without_rounding (s : BlockchainNode) (k : Z) :
  reachable s ->
  (forall t : Transaction, In t (all_transactions s) ->
     sender_address t <> Some (recipient_address t)) ->
  0 <= k <= 1075 ->
  values_on_grid k s ->
  total_volume s < 2 ^ (k + 53) ->
  (forall a : PublicKey,
     exact_units (get_balance s (Some a)) = Some (exact_balance s (Some a))) /\
  exact_units (total_balance s)
  = Some (Z.of_nat (List.length (blocks s)) * 2 ^ 1075) /\
  total_balance s = issued s /\
  exact_units REWARD_AMOUNT = Some (2 ^ 1075).
Proof.
  intros Hr Hself Hk Hgrid Hvol.
  assert (Hk' : 0 <= k <= 2045) by lia.
  assert (Htotal : exact_units (total_balance s)
                   = Some (Z.of_nat (List.length (blocks s)) * 2 ^ 1075)).
  { rewrite <- (exact_balances_total s Hr Hself). unfold total_balance.
    assert (Hnd : NoDup (seen_addresses s)) by apply NoDup_nodup.
    rewrite (fold_add_exact (fun a => get_balance s (Some a))
               (fun a => exact_balance s (Some a)) k (seen_addresses s) Hk'
               (fun a _ => get_balance_exact s (Some a) k Hk' Hgrid Hvol)
               0%float 0 eq_refl (Z.divide_0_r _)).
    - reflexivity.
    - intros l1 l2 Hl. rewrite Z.add_0_l.
      apply Z.le_lt_trans with (total_volume s); [|exact Hvol].
      apply balances_bound. rewrite Hl in Hnd.
      apply (NoDup_app_remove_r _ _ Hnd). }
  split; [|split; [exact Htotal|split; [|reflexivity]]].
  - intros a. apply (get_balance_exact s (Some a) k Hk' Hgrid Hvol).
  - destruct (reachable_block_shape s Hr) as [_ Hshape].
    pose proof (rewards_in_volume _ _ Hshape) as Hrew.
    fold (all_transactions s) in Hrew. fold (total_volume s) in Hrew.
    destruct (reachable_chain_from s Hr) as [_ Hne].
    assert (Hlen : 0 < Z.of_nat (List.length (blocks s)) < 2 ^ 53).
    { split; [destruct (blocks s); [congruence|simpl; lia]|].
      assert (Hp : 0 < 2 ^ 1075) by (apply Z.pow_pos_nonneg; lia).
      assert (Hle : 2 ^ (k + 53) <= 2 ^ 53 * 2 ^ 1075).
      { rewrite <- Z.pow_add_r by lia. apply Z.pow_le_mono_r; lia. }
      nia. }
    assert (Hp : 0 < 2 ^ 1075) by (apply Z.pow_pos_nonneg; lia).
    apply (exact_units_inj _ _ _ Htotal (issued_units s Hlen)). nia.
Qed.

End Properties.

(** * The theorems on concrete ledgers *)

Lemma run_reachable {R : Runtime} (fuel : nat) (calls : list Call) :
  forall s s' : BlockchainNode,
  reachable s -> run fuel calls s = Some s' -> reachable s'.
Proof.
  induction calls as [|c calls IH]; intros s s' Hs H.
  - injection H as <-. exact Hs.
  - destruct c as [t|now]; cbn [run] in H.
    + apply (IH _ _ (reachable_submit s t Hs) H).
    + destruct (mine_block fuel now s) as [s1|] eqn:E; [|discriminate].
      apply (IH _ _ (reachable_mine fuel now s s1 Hs E) H).
Qed.

Lemma session_reachable {R : Runtime} (fuel : nat) (now : float) (miner : PublicKey)
  (calls : list Call) (s : BlockchainNode) :
  session fuel now miner calls = Some s -> reachable s.
Proof.
  unfold session. intros H.
  destruct (BlockchainNode_init fuel now miner) as [s0|] eqn:E; [|discriminate].
  apply (run_reachable fuel calls s0 s); [|exact H].
  apply (reachable_init fuel now miner s0 E).
Qed.

Lemma node_genesis_reachable : reachable (R := toy_runtime) node_genesis.
Proof. apply (session_reachable 41 genesis_time alice []). vm_compute. reflexivity. Qed.

Lemma node_paid_reachable : reachable (R := toy_runtime) node_paid.
Proof.
  apply (session_reachable 41 genesis_time alice
           [Submit (signed alice alice_key bob 1); Mine 1541001133]).
  vm_compute. reflexivity.
Qed.

Lemma node_self_transfer_reachable : reachable (R := toy_runtime) node_self_transfer.
Proof.
  apply (session_reachable 41 genesis_time alice
           [Submit (signed alice alice_key alice 1); Mine 1541003151]).
  vm_compute. reflexivity.
Qed.

Lemma node_tenths_reachable : reachable (R := toy_runtime) node_tenths.
Proof.
  apply (session_reachable 41 genesis_time alice
           [Submit (signed alice alice_key bob one_tenth); Mine 1541001619;
            Submit (signed alice alice_key bob two_tenths); Mine 1541002056]).
  vm_compute. reflexivity.
Qed.

(** ** C1 *)

Lemma reachable_chain_invariant_witness :
  reachable (R := toy_runtime) node_paid /\
  (blocks node_paid <> [] /\
   (forall b : Block, nth_error (blocks node_paid) 0 = Some b -> prev_block_hash b = "-") /\
   (forall (i : nat) (b b' : Block),
      nth_error (blocks node_paid) i = Some b ->
      nth_error (blocks node_paid) (S i) = Some b' ->
      prev_block_hash b' = block_hash b) /\
   (forall b : Block, In b (blocks node_paid) ->
      proof_of_work_func (header_hash (R := toy_runtime) b) = true /\
      block_hash b = header_hash (R := toy_runtime) b)).
Proof.
  exact (conj node_paid_reachable
           (reachable_chain_invariant (R := toy_runtime) node_paid node_paid_reachable)).
Defined.

(** ** C2 *)

(** C2, at the input where the source leaves the specification: [alice]
    constructs the node, pays herself 1.0 and mines.  [get_balance] returns
    3.0, the 1.0 she sent being debited and never credited; the sum the
    specification describes is 4.0. *)
Theorem self_transfer_is_only_debited :
  reachable (R := toy_runtime) node_self_transfer /\
  map (fun t => (sender_address t, recipient_address t, value t))
      (all_transactions node_self_transfer)
  = [(None, alice, 2%float); (Some alice, alice, 1%float); (None, alice, 2%float)] /\
  get_balance node_self_transfer (Some alice) = 3%float /\
  spec_get_balance node_self_transfer (Some alice) = 4%float.
Proof.
  split; [exact node_self_transfer_reachable|].
  repeat split; vm_compute; reflexivity.
Qed.

(** ** C3 *)

Lemma mine_block_appends_one_block_witness :
  (exists k : nat,
     meets (R := toy_runtime) (new_block 1541001133 node_queued) (Z.of_nat k) = true) /\
  mine_block (R := toy_runtime) 41 1541001133 node_queued = Some node_paid /\
  (exists (fuel0 : nat) (s' : BlockchainNode),
     forall fuel : nat, (fuel0 <= fuel)%nat ->
       mine_block (R := toy_runtime) fuel 1541001133 node_queued = Some s') /\
  (exists b : Block,
     node_paid = mkNode alice (blocks node_genesis ++ [b]) [] /\
     (num b = num genesis_block + 1 /\ prev_block_hash b = block_hash genesis_block) /\
     transactions b
     = [signed alice alice_key bob 1; mkTransaction None alice REWARD_AMOUNT None]).
Proof.
  assert (H : exists k : nat,
             meets (R := toy_runtime) (new_block 1541001133 node_queued) (Z.of_nat k)
             = true)
    by (exists (Z.to_nat (nonce paid_block)); vm_compute; reflexivity).
  assert (Hmine : mine_block (R := toy_runtime) 41 1541001133 node_queued
                  = Some node_paid) by (vm_compute; reflexivity).
  destruct (proj1 (mine_block_appends_one_block (R := toy_runtime)
                     1541001133 node_queued) 41%nat node_paid Hmine)
    as (b & Hs & Hlast & Htx & _).
  refine (conj H (conj Hmine (conj _ _))).
  - exact (proj1 (proj2 (mine_block_appends_one_block (R := toy_runtime)
                           1541001133 node_queued)) H).
  - exists b. split; [exact Hs|]. split; [exact Hlast|exact Htx].
Defined.

(** ** C4 *)

Lemma submit_transaction_outcomes_witness :
  (Transaction_validate (R := toy_runtime) (mkTransaction (Some alice) bob 1 (Some "1"))
   = false /\
   submit_transaction (R := toy_runtime) node_genesis
     (mkTransaction (Some alice) bob 1 (Some "1"))
   = (Raised SignatureInvalid, node_genesis)) /\
  (Transaction_validate (R := toy_runtime) (signed bob bob_key alice 1) = true /\
   (get_balance node_genesis (Some bob) <? 1)%float = true /\
   submit_transaction (R := toy_runtime) node_genesis (signed bob bob_key alice 1)
   = (Raised (InsufficientFunds 1 (get_balance node_genesis (Some bob))), node_genesis)) /\
  (Transaction_validate (R := toy_runtime) (signed alice alice_key bob 1) = true /\
   (get_balance node_genesis (Some alice) <? 1)%float = false /\
   submit_transaction (R := toy_runtime) node_genesis (signed alice alice_key bob 1)
   = (Returned,
      mkNode (miner_address node_genesis) (blocks node_genesis)
        (pending_transactions node_genesis ++ [signed alice alice_key bob 1]))).
Proof.
  assert (H1 : Transaction_validate (R := toy_runtime)
                 (mkTransaction (Some alice) bob 1 (Some "1")) = false)
    by (vm_compute; reflexivity).
  assert (H2 : Transaction_validate (R := toy_runtime) (signed bob bob_key alice 1) = true)
    by (vm_compute; reflexivity).
  assert (H3 : (get_balance node_genesis (Some bob) <? 1)%float = true)
    by (vm_compute; reflexivity).
  assert (H4 : Transaction_validate (R := toy_runtime) (signed alice alice_key bob 1) = true)
    by (vm_compute; reflexivity).
  assert (H5 : (get_balance node_genesis (Some alice) <? 1)%float = false)
    by (vm_compute; reflexivity).
  split; [|split].
  - exact (conj H1
             (proj1 (submit_transaction_outcomes (R := toy_runtime) node_genesis
                       (mkTransaction (Some alice) bob 1 (Some "1"))) H1)).
  - exact (conj H2 (conj H3
             (proj1 (proj2 (submit_transaction_outcomes (R := toy_runtime) node_genesis
                              (signed bob bob_key alice 1))) H2 H3))).
  - exact (conj H4 (conj H5
             (proj2 (proj2 (submit_transaction_outcomes (R := toy_runtime) node_genesis
                              (signed alice alice_key bob 1))) H4 H5))).
Defined.

(** ** C5 *)



(** ** C6 *)

Lemma validate_chain_after_tampering_witness :
  reachable (R := toy_runtime) node_paid /\
  blocks node_paid
  = ([] ++ hd genesis_block (blocks node_paid) :: tl (blocks node_paid))%list /\
  header_hash (R := toy_runtime)
    (tamper (hd genesis_block (blocks node_paid)) 1541000000 [])
  <> header_hash (R := toy_runtime) (hd genesis_block (blocks node_paid)) /\
  exists (v : IntegrityViolation) (s2 : BlockchainNode),
    validate_chain (R := toy_runtime)
      (mkNode (miner_address node_paid)
         ([] ++ tamper (hd genesis_block (blocks node_paid)) 1541000000 []
             :: tl (blocks node_paid))
         (pending_transactions node_paid))
    = (Raised (ChainIntegrityError v), s2).
Proof.
  assert (H1 : blocks node_paid
               = ([] ++ hd genesis_block (blocks node_paid) :: tl (blocks node_paid))%list)
    by reflexivity.
  assert (H2 : header_hash (R := toy_runtime)
                 (tamper (hd genesis_block (blocks node_paid)) 1541000000 [])
               <> header_hash (R := toy_runtime) (hd genesis_block (blocks node_paid)))
    by (vm_compute; discriminate).
  assert (H3 : tl (blocks node_paid) <> []) by (vm_compute; discriminate).
  exact (conj node_paid_reachable (conj H1 (conj H2
           (proj1 (validate_chain_after_tampering (R := toy_runtime) node_paid []
                     (tl (blocks node_paid)) (hd genesis_block (blocks node_paid))
                     1541000000 [] node_paid_reachable H1 H2)
              (or_introl H3))))).
Defined.

(** C6 as stated fails: the node right after construction, and the
    timestamp of its only block overwritten with a value for which the header hash, at the nonce the
    block has, is another one that ends in 000: [validate_chain] returns. *)
Lemma tampered_last_block_passes :
  reachable (R := toy_runtime) node_genesis /\
  blocks node_genesis = [genesis_block] /\
  header_hash (R := toy_runtime) genesis_block = "a19000" /\
  header_hash (R := toy_runtime)
    (tamper genesis_block 1541001805 (transactions genesis_block)) = "f20000" /\
  fst (validate_chain (R := toy_runtime)
         (mkNode (miner_address node_genesis)
            [tamper genesis_block 1541001805 (transactions genesis_block)]
            (pending_transactions node_genesis)))
  = Returned.
Proof.
  split; [exact node_genesis_reachable|].
  repeat split; vm_compute; reflexivity.
Qed.

(** ** C7 *)

Lemma node_halves_reachable : reachable (R := toy_runtime) node_halves.
Proof.
  apply (session_reachable 41 genesis_time alice
           [Submit (signed alice alice_key bob 0.5); Mine 1541001591;
            Submit (signed alice alice_key bob 1); Mine 1541001946]).
  vm_compute. reflexivity.
Qed.

Lemma balance_conservation_without_rounding_witness :
  reachable (R := toy_runtime) node_halves /\
  (forall t : Transaction, In t (all_transactions node_halves) ->
     sender_address t <> Some (recipient_address t)) /\
  values_on_grid 1073 node_halves /\
  total_volume node_halves < 2 ^ (1073 + 53) /\
  exact_units (get_balance node_halves (Some bob))
  = Some (exact_balance node_halves (Some bob)) /\
  exact_units (total_balance node_halves)
  = Some (Z.of_nat (List.length (blocks node_halves)) * 2 ^ 1075) /\
  total_balance node_halves = issued node_halves /\
  List.length (blocks node_halves) = 3%nat /\
  total_balance node_halves = 6%float.
Proof.
  assert (H1 : forall t : Transaction, In t (all_transactions node_halves) ->
                 sender_address t <> Some (recipient_address t)).
  { intros t Ht. vm_compute in Ht.
    destruct Ht as [<-|[<-|[<-|[<-|[<-|[]]]]]]; vm_compute; discriminate. }
  assert (H2 : values_on_grid 1073 node_halves).
  { intros t Ht. vm_compute in Ht.
    destruct Ht as [<-|[<-|[<-|[<-|[<-|[]]]]]];
      [exists 4|exists 1|exists 4|exists 2|exists 4]; vm_compute; reflexivity. }
  assert (H3 : total_volume node_halves < 2 ^ (1073 + 53)) by (vm_compute; reflexivity).
  pose proof (balance_conservation_without_rounding (R := toy_runtime) node_halves 1073
                node_halves_reachable H1 ltac:(lia) H2 H3)
    as (Hbal & Htotal & Hissued & _).
  refine (conj node_halves_reachable (conj H1 (conj H2 (conj H3
            (conj (Hbal bob) (conj Htotal (conj Hissued (conj _ _)))))))).
  - vm_compute. reflexivity.
  - vm_compute. reflexivity.
Defined.

(** C7 as stated fails: [alice] pays [bob] 0.1 and then 0.2, each in a
    block of its own.  The
    chain has three blocks; the balances are 5.6999999999999993 and
    0.30000000000000004, and their float sum is 5.9999999999999991, which is
    not 3 * 2.0. *)
Lemma rounded_balances_do_not_add_up :
  reachable (R := toy_runtime) node_tenths /\
  (forall t : Transaction, In t (all_transactions node_tenths) ->
     sender_address t <> Some (recipient_address t)) /\
  seen_addresses node_tenths = [bob; alice] /\
  List.length (blocks node_tenths) = 3%nat /\
  issued node_tenths = 6%float /\
  total_balance node_tenths = 0x1.7ffffffffffffp+2%float /\
  (total_balance node_tenths =? issued node_tenths)%float = false.
Proof.
  split; [exact node_tenths_reachable|]. split.
  - intros t Ht. vm_compute in Ht.
    destruct Ht as [<-|[<-|[<-|[<-|[<-|[]]]]]]; vm_compute; discriminate.
  - repeat split; vm_compute; reflexivity.
Qed.

(** ** C8 *)

Lemma execute_pow_least_nonce_witness :
  (exists k : nat,
     meets (R := toy_runtime) (new_block genesis_time (mkNode alice [] [])) (Z.of_nat k)
     = true) /\
  exists (k : nat) (b' : Block),
    (forall fuel : nat, (k < fuel)%nat ->
       execute_pow (R := toy_runtime) fuel (new_block genesis_time (mkNode alice [] []))
       = Some b') /\
    nonce b' = Z.of_nat k /\ block_hash b' = header_hash (R := toy_runtime) b'.
Proof.
  assert (H : exists k : nat,
             meets (R := toy_runtime) (new_block genesis_time (mkNode alice [] []))
               (Z.of_nat k) = true)
    by (exists 1%nat; vm_compute; reflexivity).
  split; [exact H|].
  destruct (execute_pow_least_nonce (R := toy_runtime)
              (new_block genesis_time (mkNode alice [] [])) H)
    as (k & b' & Hrun & _ & Hn & _ & _ & Hh & _).
  exists k, b'. auto.
Defined.

(** ** C9 *)



(** ** C10 *)

Lemma negative_value_transfer_witness :
  sender_address negative_from_bob = Some bob /\
  recipient_address negative_from_bob <> bob /\
  Transaction_validate (R := toy_runtime) negative_from_bob = true /\
  (value negative_from_bob <? 0)%float = true /\
  (get_balance node_genesis (Some bob) =? 0)%float = true /\
  submit_transaction (R := toy_runtime) node_genesis negative_from_bob
  = (Returned,
     mkNode (miner_address node_genesis) (blocks node_genesis)
       (pending_transactions node_genesis ++ [negative_from_bob])) /\
  mine_block (R := toy_runtime) 41 1541001010
    (mkNode (miner_address node_genesis) (blocks node_genesis)
       (pending_transactions node_genesis ++ [negative_from_bob]))
  = Some node_negative /\
  get_balance node_negative (Some bob)
  = balance_step (Some bob)
      (queued_balance node_genesis (Some bob) + abs (value negative_from_bob))%float
      (reward_for (miner_address node_genesis)) /\
  get_balance node_negative (Some bob) = 1%float /\
  get_balance node_negative (Some alice) = 3%float.
Proof.
  assert (H1 : sender_address negative_from_bob = Some bob) by reflexivity.
  assert (H0 : recipient_address negative_from_bob <> bob) by (vm_compute; discriminate).
  assert (H2 : Transaction_validate (R := toy_runtime) negative_from_bob = true)
    by (vm_compute; reflexivity).
  assert (H3 : (value negative_from_bob <? 0)%float = true) by (vm_compute; reflexivity).
  assert (H4 : (get_balance node_genesis (Some bob) =? 0)%float = true)
    by (vm_compute; reflexivity).
  assert (Hmine : mine_block (R := toy_runtime) 41 1541001010
                    (mkNode (miner_address node_genesis) (blocks node_genesis)
                       (pending_transactions node_genesis ++ [negative_from_bob]))
                  = Some node_negative)
    by (vm_compute; reflexivity).
  pose proof (negative_value_transfer (R := toy_runtime) node_genesis negative_from_bob
                bob H1 H0 H2 H3) as (_ & Hzero & _ & Hmined).
  refine (conj H1 (conj H0 (conj H2 (conj H3 (conj H4 (conj (Hzero H4) (conj Hmine
            (conj _ (conj _ _))))))))).
  - exact (proj1 (Hmined 41%nat 1541001010%float node_negative Hmine)).
  - vm_compute. reflexivity.
  - vm_compute. reflexivity.
Defined.

(** C10, at the input where the source leaves the claim: [alice] sends
    herself the value -1.0.  The transaction is validly signed and accepted.
    The claim has it raise the sender's balance by 1.0 and lower the
    recipient's by 1.0, which for one key is no change: 2.0 at its place in
    the block and 4.0 after the block with its reward.  In the traversal
    only the sender branch runs: the step gives 3.0, and after the block
    [get_balance] returns 5.0. *)
Theorem negative_self_transfer_only_credits :
  reachable (R := toy_runtime) node_genesis /\
  sender_address negative_to_self = Some alice /\
  recipient_address negative_to_self = alice /\
  Transaction_validate (R := toy_runtime) negative_to_self = true /\
  (value negative_to_self <? 0)%float = true /\
  (value negative_to_self <=? get_balance node_genesis (Some alice))%float = true /\
  fst (submit_transaction (R := toy_runtime) node_genesis negative_to_self) = Returned /\
  mine_block (R := toy_runtime) 41 1541001162
    (snd (submit_transaction (R := toy_runtime) node_genesis negative_to_self))
  = Some node_negative_self /\
  get_balance node_genesis (Some alice) = 2%float /\
  (2 + abs (value negative_to_self) - abs (value negative_to_self))%float = 2%float /\
  balance_step (Some alice) 2 negative_to_self = 3%float /\
  (2 + abs (value negative_to_self) - abs (value negative_to_self) + REWARD_AMOUNT)%float
  = 4%float /\
  get_balance node_negative_self (Some alice) = 5%float.
Proof.
  split; [exact node_genesis_reachable|].
  repeat split; vm_compute; reflexivity.
Qed.

(** * Further properties of the source *)

Section Further.
Context {R : Runtime}.

(** ** [validate_chain] *)

Lemma same_header_hash (b1 b2 : Block) :
  same_header b1 b2 -> header_hash b1 = header_hash b2.
Proof.
  intros (Hn & Ht & Hp & Htx & Hk). unfold header_hash, get_header.
  rewrite Hn, Ht, Hp, Htx, Hk. reflexivity.
Qed.

Lemma same_header_refresh (b1 b2 : Block) :
  same_header b1 b2 -> refresh b1 = refresh b2.
Proof.
  intros H. pose proof (same_header_hash b1 b2 H) as Hh.
  destruct H as (Hn & Ht & Hp & Htx & Hk).
  unfold refresh, set_block_hash. rewrite Hn, Ht, Hp, Htx, Hk, Hh. reflexivity.
Qed.

Lemma validate_blocks_returned (bs : list Block) : forall p : string,
  fst (validate_blocks p bs) = Returned <-> header_chain p bs.
Proof.
  induction bs as [|b rest IH]; intros p; [simpl; tauto|].
  rewrite validate_blocks_cons. cbn [header_chain].
  destruct (String.eqb (prev_block_hash b) p) eqn:E; simpl negb; cbv iota.
  - apply String.eqb_eq in E.
    destruct (proof_of_work_func (header_hash b)) eqn:Epow; simpl negb; cbv iota.
    + cbn [fst]. rewrite IH. tauto.
    + cbn [fst]. split; [discriminate|]. intros (_ & H & _). discriminate H.
  - apply String.eqb_neq in E. cbn [fst]. split; [discriminate|].
    intros (H & _). contradiction.
Qed.

Lemma validate_blocks_returned_state (bs : list Block) : forall p : string,
  fst (validate_blocks p bs) = Returned ->
  snd (validate_blocks p bs) = map refresh bs.
Proof.
  induction bs as [|b rest IH]; intros p; [reflexivity|].
  rewrite validate_blocks_cons.
  destruct (negb (String.eqb (prev_block_hash b) p)); [discriminate|].
  destruct (negb (proof_of_work_func (header_hash b))); [discriminate|].
  cbn [fst snd map]. intros H. rewrite (IH _ H). reflexivity.
Qed.

Lemma header_chain_refreshed (bs : list Block) : forall p : string,
  header_chain p bs -> chain_from p (map refresh bs).
Proof.
  induction bs as [|b rest IH]; intros p H; [exact I|].
  destruct H as (Hp & Hpow & Hrest). cbn [map chain_from].
  split; [exact Hp|split; [split; [reflexivity|exact Hpow]|]].
  apply IH. exact Hrest.
Qed.

Lemma validate_chain_fst (s : BlockchainNode) :
  fst (validate_chain s) = fst (validate_blocks "-" (blocks s)).
Proof. unfold validate_chain. destruct (validate_blocks "-" (blocks s)); reflexivity. Qed.

Lemma validate_chain_snd (s : BlockchainNode) :
  snd (validate_chain s)
  = mkNode (miner_address s) (snd (validate_blocks "-" (blocks s)))
      (pending_transactions s).
Proof. unfold validate_chain. destruct (validate_blocks "-" (blocks s)); reflexivity. Qed.

(** X1: [validate_chain] returns exactly when the first block names the
    sentinel "-", every block names the recomputed header hash of the block
    before it and every recomputed header hash meets the proof-of-work
    predicate.  It looks at nothing else: not at the hashes the blocks store,
    not at the block numbers, not at signatures or balances.  When it returns
    every block stores its recomputed hash, and nothing else has changed. *)
Theorem validate_chain_returns_iff (s : BlockchainNode) :
  (fst (validate_chain s) = Returned <-> header_chain "-" (blocks s)) /\
  (fst (validate_chain s) = Returned ->
   snd (validate_chain s)
   = mkNode (miner_address s) (map refresh (blocks s)) (pending_transactions s) /\
   chain_from "-" (blocks (snd (validate_chain s)))).
Proof.
  rewrite validate_chain_fst, validate_chain_snd. split.
  - apply validate_blocks_returned.
  - intros H. rewrite (validate_blocks_returned_state _ _ H). split; [reflexivity|].
    apply header_chain_refreshed. apply validate_blocks_returned. exact H.
Qed.

Lemma validate_blocks_same_header (bs1 : list Block) :
  forall (bs2 : list Block) (p : string),
  Forall2 same_header bs1 bs2 ->
  fst (validate_blocks p bs1) = fst (validate_blocks p bs2) /\
  (fst (validate_blocks p bs1) = Returned ->
   snd (validate_blocks p bs1) = snd (validate_blocks p bs2)).
Proof.
  induction bs1 as [|b1 rest1 IH]; intros bs2 p H; inversion H as [|? b2 ? rest2 Hb Hrest];
    subst; [split; reflexivity|].
  rewrite !validate_blocks_cons.
  pose proof (same_header_hash _ _ Hb) as Hh.
  pose proof (same_header_refresh _ _ Hb) as Hr.
  destruct Hb as (_ & _ & Hp & _). rewrite <- Hp, <- Hh.
  destruct (negb (String.eqb (prev_block_hash b1) p)); [split; [reflexivity|discriminate]|].
  destruct (negb (proof_of_work_func (header_hash b1))).
  - cbn [fst]. split; [|discriminate].
    f_equal. f_equal. f_equal. apply (f_equal num Hr).
  - cbn [fst snd]. destruct (IH rest2 (header_hash b1) Hrest) as [H1 H2].
    split; [exact H1|]. intros Hret. rewrite Hr, (H2 Hret). reflexivity.
Qed.

(** X2: the hash a block stores is never trusted.  Two chains whose blocks
    agree in every field but the stored hash get the same verdict from
    [validate_chain], with the same error when it raises, and end with the
    same blocks when it returns. *)
Theorem validate_chain_ignores_stored_hashes (s1 s2 : BlockchainNode) :
  Forall2 same_header (blocks s1) (blocks s2) ->
  fst (validate_chain s1) = fst (validate_chain s2) /\
  (fst (validate_chain s1) = Returned ->
   blocks (snd (validate_chain s1)) = blocks (snd (validate_chain s2))).
Proof.
  intros H. rewrite !validate_chain_fst, !validate_chain_snd. cbn [blocks].
  apply validate_blocks_same_header. exact H.
Qed.

Lemma validate_blocks_twice (bs : list Block) : forall p : string,
  validate_blocks p (snd (validate_blocks p bs)) = validate_blocks p bs.
Proof.
  induction bs as [|b rest IH]; intros p; [reflexivity|].
  rewrite validate_blocks_cons.
  destruct (negb (String.eqb (prev_block_hash b) p)) eqn:E1.
  { cbn [snd]. rewrite validate_blocks_cons, E1. reflexivity. }
  destruct (negb (proof_of_work_func (header_hash b))) eqn:E2.
  { cbn [snd]. rewrite validate_blocks_cons.
    change (prev_block_hash (refresh b)) with (prev_block_hash b).
    change (header_hash (refresh b)) with (header_hash b).
    rewrite E1, E2. reflexivity. }
  cbn [snd]. rewrite validate_blocks_cons.
  change (prev_block_hash (refresh b)) with (prev_block_hash b).
  change (header_hash (refresh b)) with (header_hash b).
  rewrite E1, E2, IH. reflexivity.
Qed.

(** X3: validating twice is validating once.  Called on the node a first
    [validate_chain] call left, whether that call returned or raised, a
    second call has the same outcome and changes nothing any more. *)
Theorem validate_chain_twice (s : BlockchainNode) :
  validate_chain (snd (validate_chain s))
  = (fst (validate_chain s), snd (validate_chain s)).
Proof.
  rewrite validate_chain_snd, validate_chain_fst. unfold validate_chain at 1.
  cbn [blocks miner_address pending_transactions].
  rewrite validate_blocks_twice.
  destruct (validate_blocks "-" (blocks s)); reflexivity.
Qed.

(** X4: on every state that construction, [submit_transaction] and
    [mine_block] can produce, [validate_chain] returns and leaves the node
    exactly as it was. *)
Theorem validate_chain_accepts_reachable (s : BlockchainNode) :
  reachable s -> validate_chain s = (Returned, s).
Proof.
  intros Hr. destruct (reachable_chain_from s Hr) as [Hc _].
  unfold validate_chain. rewrite (validate_blocks_good _ _ Hc).
  destruct s; reflexivity.
Qed.

(** ** The shape of the chain *)

Lemma list_last_nth {A : Type} (l : list A) (x : A) :
  list_last l = Some x -> nth_error l (List.length l - 1) = Some x.
Proof.
  induction l as [|y l IH]; [discriminate|].
  destruct l as [|z l].
  - simpl. intros H. exact H.
  - rewrite list_last_cons. intros H. specialize (IH H).
    cbn [List.length] in *. replace (S (S (List.length l)) - 1)%nat
      with (S (S (List.length l) - 1)) by lia.
    exact IH.
Qed.

Lemma mine_block_number (fuel : nat) (now : float) (s s' : BlockchainNode) :
  (forall (i : nat) (b : Block), nth_error (blocks s) i = Some b -> num b = Z.of_nat i) ->
  mine_block fuel now s = Some s' ->
  forall (i : nat) (b : Block), nth_error (blocks s') i = Some b -> num b = Z.of_nat i.
Proof.
  intros Hnum H i b Hi. apply mine_block_Some in H. destruct H as (k & -> & _).
  cbn [blocks] in Hi.
  destruct (Nat.lt_ge_cases i (List.length (blocks s))) as [Hlt|Hge].
  - rewrite nth_error_app1 in Hi by exact Hlt. exact (Hnum i b Hi).
  - rewrite nth_error_app2 in Hi by exact Hge.
    destruct (i - List.length (blocks s))%nat as [|j] eqn:Ej;
      [|destruct j; discriminate].
    injection Hi as <-. assert (i = List.length (blocks s)) by lia. subst i.
    destruct (found_fields (new_block now s) (Z.of_nat k)) as (-> & _).
    destruct (new_block_fields now s) as (_ & _ & Hlast).
    destruct (list_last (blocks s)) as [l|] eqn:El.
    + destruct Hlast as [-> _]. pose proof (list_last_nth _ _ El) as Hl.
      rewrite (Hnum _ _ Hl).
      assert (List.length (blocks s) <> 0)%nat by (destruct (blocks s); discriminate).
      lia.
    + destruct Hlast as [-> _]. destruct (blocks s) as [|x l]; [reflexivity|].
      destruct (list_last_nonempty l x) as [z Hz]. congruence.
Qed.

(** X5: block numbers count from 0 without a gap: in every reachable state
    the block at index [i] of the chain has number [i]. *)
Theorem block_numbers_are_positions (s : BlockchainNode) :
  reachable s ->
  forall (i : nat) (b : Block), nth_error (blocks s) i = Some b -> num b = Z.of_nat i.
Proof.
  induction 1 as [fuel now miner s H|s t _ IH|fuel now s s' _ IH H].
  - apply (mine_block_number fuel now (mkNode miner [] []) s); [|exact H].
    intros i b Hi. destruct i; discriminate.
  - destruct (submit_transaction_blocks s t) as [-> _]. exact IH.
  - exact (mine_block_number fuel now s s' IH H).
Qed.

(** X6: the chain only grows.  Whatever calls a session makes, the blocks
    it started from are still there, unchanged and in place, followed by one
    new block for each [mine_block] call; the miner address never changes. *)
Theorem sessions_only_append (fuel : nat) (calls : list Call) :
  forall s s' : BlockchainNode,
  run fuel calls s = Some s' ->
  miner_address s' = miner_address s /\
  exists ext : list Block,
    blocks s' = (blocks s ++ ext)%list /\ List.length ext = count_mines calls.
Proof.
  induction calls as [|c calls IH]; intros s s' H.
  - injection H as <-. split; [reflexivity|]. exists []. rewrite app_nil_r. auto.
  - destruct c as [t|now]; cbn [run] in H.
    + destruct (IH _ _ H) as (Hm & ext & Hb & Hl).
      destruct (submit_transaction_blocks s t) as [Hbs Hms].
      rewrite Hbs in Hb. rewrite Hms in Hm. split; [exact Hm|].
      exists ext. split; [exact Hb|exact Hl].
    + destruct (mine_block fuel now s) as [s1|] eqn:E; [|discriminate].
      destruct (IH _ _ H) as (Hm & ext & Hb & Hl).
      apply mine_block_Some in E. destruct E as (k & -> & _).
      cbn [blocks miner_address] in *. split; [exact Hm|].
      exists (found (new_block now s) (Z.of_nat k) :: ext).
      rewrite Hb, <- app_assoc. split; [reflexivity|].
      unfold count_mines in *. cbn [filter List.length]. rewrite Hl. reflexivity.
Qed.

(** X7: nothing unsigned gets into the ledger.  In every reachable state
    each pending transaction passes [Transaction.validate], and each block
    consists of transactions that pass it followed by exactly one reward: a
    transaction without sender and signature that gives [REWARD_AMOUNT] to
    the node's miner. *)
Theorem chain_holds_validated_transactions (s : BlockchainNode) :
  reachable s ->
  Forall (fun t => Transaction_validate t = true) (pending_transactions s) /\
  Forall (fun b => exists txs : list Transaction,
            transactions b
            = (txs ++ [mkTransaction None (miner_address s) REWARD_AMOUNT None])%list /\
            Forall (fun t => Transaction_validate t = true) txs) (blocks s).
Proof.
  assert (Hmine : forall fuel now s0 s1,
             Forall (fun t => Transaction_validate t = true) (pending_transactions s0) ->
             Forall (fun b => exists txs : list Transaction,
                       transactions b
                       = (txs ++ [mkTransaction None (miner_address s0) REWARD_AMOUNT None])%list /\
                       Forall (fun t => Transaction_validate t = true) txs) (blocks s0) ->
             mine_block fuel now s0 = Some s1 ->
             Forall (fun t => Transaction_validate t = true) (pending_transactions s1) /\
             Forall (fun b => exists txs : list Transaction,
                       transactions b
                       = (txs ++ [mkTransaction None (miner_address s1) REWARD_AMOUNT None])%list /\
                       Forall (fun t => Transaction_validate t = true) txs) (blocks s1)).
  { intros fuel now s0 s1 Hp Hb H. apply mine_block_Some in H.
    destruct H as (k & -> & _). cbn [pending_transactions blocks miner_address].
    split; [constructor|].
    apply Forall_app. split; [exact Hb|]. constructor; [|constructor].
    exists (pending_transactions s0). split; [|exact Hp].
    destruct (found_fields (new_block now s0) (Z.of_nat k)) as (_ & _ & _ & -> & _).
    apply new_block_fields. }
  induction 1 as [fuel now miner s H|s t _ IH|fuel now s s' _ IH H].
  - apply (Hmine fuel now (mkNode miner [] []) s); [constructor|constructor|exact H].
  - destruct IH as [Hp Hb]. unfold submit_transaction.
    destruct (Transaction_validate t) eqn:Hv; cbn [negb]; cbv iota;
      [|split; assumption].
    destruct (get_balance s (sender_address t) <? value t)%float;
      cbn [snd pending_transactions blocks miner_address]; [split; assumption|].
    split; [|exact Hb]. apply Forall_app. split; [exact Hp|].
    constructor; [exact Hv|constructor].
  - destruct IH as [Hp Hb]. exact (Hmine fuel now s s' Hp Hb H).
Qed.

(** ** Submissions between two blocks *)

Lemma submit_transaction_by_blocks (s1 s2 : BlockchainNode) (t : Transaction) :
  blocks s1 = blocks s2 ->
  fst (submit_transaction s1 t) = fst (submit_transaction s2 t).
Proof.
  intros H. unfold submit_transaction, get_balance. rewrite H.
  destruct (negb (Transaction_validate t)); [reflexivity|].
  destruct (fold_left (balance_block (sender_address t)) (blocks s2) 0 <? value t)%float;
    reflexivity.
Qed.

Lemma submit_transaction_snd (s : BlockchainNode) (t : Transaction) :
  snd (submit_transaction s t)
  = mkNode (miner_address s) (blocks s)
      (pending_transactions s ++ (if accepted s t then [t] else [])).
Proof.
  unfold accepted, submit_transaction.
  destruct (negb (Transaction_validate t));
    [cbn [fst snd]; rewrite app_nil_r; destruct s; reflexivity|].
  destruct (get_balance s (sender_address t) <? value t)%float; cbn [fst snd];
    [rewrite app_nil_r; destruct s; reflexivity|reflexivity].
Qed.

(** X8: submissions made between two blocks do not see each other.  Each
    one has the outcome it would have had as the only submission, and the
    queue ends as the old queue followed by the accepted transactions in the
    order they came; rejected ones leave no trace, and neither the chain nor
    the miner changes. *)
Theorem submissions_are_independent (ts : list Transaction) :
  forall s : BlockchainNode,
  submit_all s ts
  = (map (fun t => fst (submit_transaction s t)) ts,
     mkNode (miner_address s) (blocks s)
       (pending_transactions s ++ filter (accepted s) ts)).
Proof.
  induction ts as [|t ts IH]; intros s.
  - cbn. rewrite app_nil_r. destruct s; reflexivity.
  - cbn [submit_all map filter].
    rewrite (surjective_pairing (submit_transaction s t)).
    rewrite IH, submit_transaction_snd. cbn [miner_address blocks pending_transactions].
    f_equal.
    + f_equal. apply map_ext. intros t'. apply submit_transaction_by_blocks. reflexivity.
    + f_equal. rewrite <- app_assoc. f_equal.
      assert (Hacc : forall t', accepted
                {| miner_address := miner_address s; blocks := blocks s;
                   pending_transactions :=
                     pending_transactions s ++ (if accepted s t then [t] else []) |} t'
                = accepted s t').
      { intros t'. unfold accepted.
        rewrite (submit_transaction_by_blocks _ s t') by reflexivity. reflexivity. }
      rewrite (filter_ext _ _ Hacc).
      destruct (accepted s t); reflexivity.
Qed.

(** ** Balances *)

Lemma involves_false (address : option PublicKey) (t : Transaction) :
  involves address t = false ->
  address_eqb (sender_address t) address = false /\
  address_eqb (Some (recipient_address t)) address = false.
Proof. unfold involves. apply orb_false_elim. Qed.

Lemma fold_balance_untouched (address : option PublicKey) (l : list Transaction) :
  forall acc : float,
  (forall t : Transaction, In t l -> involves address t = false) ->
  fold_left (balance_step address) l acc = acc.
Proof.
  induction l as [|t l IH]; intros acc H; [reflexivity|].
  cbn [fold_left]. unfold balance_step at 2.
  destruct (involves_false address t (H t ltac:(left; reflexivity))) as [-> ->].
  apply IH. intros t' Ht'. apply H. right. exact Ht'.
Qed.

(** X9: what a mined block does to the balances.  The traversal of
    [get_balance] continues through the queue, in order, and then through
    the reward.  So the balance of a key that is not the miner and that no
    queued transaction names is unchanged, and the miner, when no queued
    transaction names it, gains exactly [REWARD_AMOUNT]. *)
Theorem mining_moves_balances
  (fuel : nat) (now : float) (s s' : BlockchainNode) :
  mine_block fuel now s = Some s' ->
  (forall address : option PublicKey,
     get_balance s' address
     = balance_step address
         (fold_left (balance_step address) (pending_transactions s)
            (get_balance s address))
         (mkTransaction None (miner_address s) REWARD_AMOUNT None)) /\
  (forall k : PublicKey,
     k <> miner_address s ->
     (forall t : Transaction, In t (pending_transactions s) ->
        involves (Some k) t = false) ->
     get_balance s' (Some k) = get_balance s (Some k)) /\
  ((forall t : Transaction, In t (pending_transactions s) ->
      involves (Some (miner_address s)) t = false) ->
   get_balance s' (Some (miner_address s))
   = (get_balance s (Some (miner_address s)) + REWARD_AMOUNT)%float).
Proof.
  intros H.
  assert (Hall : forall address : option PublicKey,
             get_balance s' address
             = balance_step address
                 (fold_left (balance_step address) (pending_transactions s)
                    (get_balance s address))
                 (mkTransaction None (miner_address s) REWARD_AMOUNT None))
    by (intros address; apply (get_balance_mined fuel now s s' address H)).
  split; [exact Hall|split].
  - intros k Hk Hq. rewrite Hall, (fold_balance_untouched _ _ _ Hq).
    apply balance_step_reward_other. exact Hk.
  - intros Hq. rewrite Hall, (fold_balance_untouched _ _ _ Hq).
    unfold balance_step. cbn [sender_address recipient_address value address_eqb].
    rewrite (proj2 (PublicKey_eqb_eq _ _) eq_refl). reflexivity.
Qed.

(** X10: the node right after construction.  When [__init__] returns, the
    chain is one block with number 0, the sentinel "-" as previous hash, the
    time of the call as timestamp and the reward as only transaction; the
    queue is empty; the miner owns 2.0, every other key owns 0, and the
    balance asked for [None], the sender of rewards, is -2.0. *)
Theorem construction_yields_genesis
  (fuel : nat) (now : float) (miner : PublicKey) (s : BlockchainNode) :
  BlockchainNode_init fuel now miner = Some s ->
  (exists b : Block,
     s = mkNode miner [b] [] /\
     num b = 0 /\ prev_block_hash b = "-" /\ timestamp b = now /\
     transactions b = [mkTransaction None miner REWARD_AMOUNT None] /\
     block_hash b = header_hash b /\ proof_of_work_func (block_hash b) = true) /\
  get_balance s (Some miner) = 2%float /\
  (forall k : PublicKey, k <> miner -> get_balance s (Some k) = 0%float) /\
  get_balance s None = (-2)%float.
Proof.
  unfold BlockchainNode_init. intros H.
  pose proof (fun a => get_balance_mined fuel now (mkNode miner [] []) s a H) as Hbal.
  apply mine_block_Some in H. destruct H as (k & -> & Hk).
  split; [|split; [|split]].
  - exists (found (new_block now (mkNode miner [] [])) (Z.of_nat k)).
    split; [reflexivity|]. repeat split. exact Hk.
  - rewrite Hbal. unfold queued_balance, balance_step, reward_for.
    cbn [pending_transactions miner_address fold_left sender_address
         recipient_address value address_eqb].
    rewrite (proj2 (PublicKey_eqb_eq _ _) eq_refl). reflexivity.
  - intros k' Hk'. rewrite Hbal. cbn [miner_address].
    rewrite balance_step_reward_other by exact Hk'. reflexivity.
  - rewrite Hbal. reflexivity.
Qed.

(** X11: an address that no transaction of the chain names, as sender or as
    recipient, has balance 0, whatever else the chain holds. *)
Theorem unseen_address_has_balance_zero
  (s : BlockchainNode) (address : option PublicKey) :
  (forall t : Transaction, In t (all_transactions s) -> involves address t = false) ->
  get_balance s address = 0%float.
Proof.
  intros H. apply get_balance_unseen. intros t Ht.
  apply involves_false. apply H. exact Ht.
Qed.

(** X12: [get_balance] computes the sum the specification describes (the
    value subtracted where the address sends, added where it receives) on
    every chain in which no transaction has the address on both sides. *)
Theorem get_balance_is_credits_minus_debits
  (s : BlockchainNode) (address : option PublicKey) :
  (forall t : Transaction, In t (all_transactions s) ->
     sender_address t = address -> Some (recipient_address t) <> address) ->
  get_balance s address = spec_get_balance s address.
Proof.
  intros H. apply get_balance_spec_agree. intros t Ht.
  destruct (address_eqb (sender_address t) address) eqn:E1; [|reflexivity].
  apply address_eqb_eq in E1. cbn [andb].
  apply address_eqb_neq. apply (H t Ht E1).
Qed.

(** X13: a key without history cannot spend.  A validly signed transaction
    for a value above zero, from a sender that no transaction of the chain
    names, raises [InsufficientFunds] with 0 available, and the node stays as
    it was. *)
Theorem new_key_cannot_spend (s : BlockchainNode) (t : Transaction) :
  Transaction_validate t = true ->
  (forall t' : Transaction, In t' (all_transactions s) ->
     involves (sender_address t) t' = false) ->
  (0 <? value t)%float = true ->
  submit_transaction s t = (Raised (InsufficientFunds (value t) 0), s).
Proof.
  intros Hv Hnew Hpos. unfold submit_transaction. rewrite Hv. cbn [negb].
  assert (Hb : get_balance s (sender_address t) = 0%float).
  { apply get_balance_unseen. intros t' Ht'. apply involves_false, Hnew, Ht'. }
  rewrite Hb, Hpos. reflexivity.
Qed.

Lemma fold_blocks_iter (f : float -> float) (address : option PublicKey)
  (bs : list Block) :
  (forall (b : Block) (acc : float), In b bs -> balance_block address acc b = f acc) ->
  forall acc : float,
  fold_left (balance_block address) bs acc = Nat.iter (List.length bs) f acc.
Proof.
  induction bs as [|b bs IH]; intros H acc; [reflexivity|].
  cbn [fold_left List.length]. rewrite Nat.iter_succ_r.
  rewrite (H b acc) by (left; reflexivity).
  apply IH. intros b' acc' Hb'. apply H. right. exact Hb'.
Qed.

(** X14: [None] is an account too.  It is the sender of every reward and of
    nothing else, so in every reachable state [get_balance(None)] is 0 with
    [REWARD_AMOUNT] subtracted once for each block of the chain. *)
Theorem balance_of_None_is_minus_the_rewards (s : BlockchainNode) :
  reachable s ->
  get_balance s None
  = Nat.iter (List.length (blocks s)) (fun x => (x - REWARD_AMOUNT)%float) 0%float.
Proof.
  intros Hr. destruct (reachable_block_shape s Hr) as [_ Hshape].
  unfold get_balance. apply fold_blocks_iter.
  intros b acc Hb. rewrite Forall_forall in Hshape.
  destruct (Hshape b Hb) as (txs & Htx & Hsend).
  unfold balance_block. rewrite Htx, fold_left_app.
  assert (Hq : fold_left (balance_step None) txs acc = acc).
  { apply fold_balance_untouched. intros t Ht. rewrite Forall_forall in Hsend.
    unfold involves. cbn [address_eqb]. specialize (Hsend t Ht).
    destruct (sender_address t); [reflexivity|contradiction]. }
  rewrite Hq. reflexivity.
Qed.

(** ** Values that are not numbers *)

Lemma nan_value_spec (x : float) : is_nan_value x = true <-> Prim2SF x = S754_nan.
Proof.
  unfold is_nan_value. rewrite negb_true_iff, FloatAxioms.eqb_spec. unfold SFeqb.
  destruct (Prim2SF x) as [sx|sx| |sx mx ex]; cbn [SFcompare].
  - split; discriminate.
  - destruct sx; split; discriminate.
  - split; reflexivity.
  - destruct sx; rewrite Z.compare_refl, Pos.compare_cont_spec, Pos.compare_refl;
      cbn; split; discriminate.
Qed.

Lemma ltb_nan_r (x v : float) : is_nan_value v = true -> (x <? v)%float = false.
Proof.
  intros H. apply nan_value_spec in H. rewrite ltb_spec, H. unfold SFltb.
  destruct (Prim2SF x); reflexivity.
Qed.

Lemma ltb_nan_l (x v : float) : is_nan_value x = true -> (x <? v)%float = false.
Proof.
  intros H. apply nan_value_spec in H. rewrite ltb_spec, H. reflexivity.
Qed.

Lemma sub_nan (x y : float) :
  is_nan_value x = true \/ is_nan_value y = true -> is_nan_value (x - y)%float = true.
Proof.
  intros H. apply nan_value_spec. rewrite sub_spec.
  destruct H as [H|H]; apply nan_value_spec in H; rewrite H;
    [reflexivity|destruct (Prim2SF x); reflexivity].
Qed.

Lemma add_nan (x y : float) :
  is_nan_value x = true \/ is_nan_value y = true -> is_nan_value (x + y)%float = true.
Proof.
  intros H. apply nan_value_spec. rewrite add_spec.
  destruct H as [H|H]; apply nan_value_spec in H; rewrite H;
    [reflexivity|destruct (Prim2SF x); reflexivity].
Qed.

Lemma balance_step_keeps_nan (address : option PublicKey) (acc : float) (t : Transaction) :
  is_nan_value acc = true -> is_nan_value (balance_step address acc t) = true.
Proof.
  intros H. unfold balance_step.
  destruct (address_eqb (sender_address t) address); [apply sub_nan; auto|].
  destruct (address_eqb (Some (recipient_address t)) address); [apply add_nan; auto|].
  exact H.
Qed.

Lemma fold_keeps_nan (address : option PublicKey) (l : list Transaction) :
  forall acc : float,
  is_nan_value acc = true ->
  is_nan_value (fold_left (balance_step address) l acc) = true.
Proof.
  induction l as [|t l IH]; intros acc H; [exact H|].
  cbn [fold_left]. apply IH. apply balance_step_keeps_nan. exact H.
Qed.

Lemma balance_step_nan_value (address : option PublicKey) (acc : float) (t : Transaction) :
  is_nan_value (value t) = true -> involves address t = true ->
  is_nan_value (balance_step address acc t) = true.
Proof.
  intros Hv Hin. unfold involves in Hin. unfold balance_step.
  destruct (address_eqb (sender_address t) address); [apply sub_nan; auto|].
  cbn [orb] in Hin. rewrite Hin. apply add_nan. auto.
Qed.

(** X15: a value that is not a number passes the funds check.  The check is
    [sender_balance < value], which is false for NaN, so a validly signed
    transaction with value NaN is accepted whatever the sender owns; and once
    the block is mined, the balances of its sender and of its recipient are
    NaN. *)
Theorem nan_value_is_accepted (s : BlockchainNode) (t : Transaction) :
  Transaction_validate t = true ->
  is_nan_value (value t) = true ->
  submit_transaction s t
  = (Returned, mkNode (miner_address s) (blocks s) (pending_transactions s ++ [t])) /\
  (forall (fuel : nat) (now : float) (s' : BlockchainNode),
     mine_block fuel now (snd (submit_transaction s t)) = Some s' ->
     is_nan_value (get_balance s' (sender_address t)) = true /\
     is_nan_value (get_balance s' (Some (recipient_address t))) = true).
Proof.
  intros Hv Hnan.
  assert (Hsub : submit_transaction s t
                 = (Returned,
                    mkNode (miner_address s) (blocks s) (pending_transactions s ++ [t])))
    by (apply submit_returns; [exact Hv|apply ltb_nan_r; exact Hnan]).
  split; [exact Hsub|].
  intros fuel now s' Hmine. rewrite Hsub in Hmine. cbn [snd] in Hmine.
  assert (Hall : forall a : option PublicKey, involves a t = true ->
                   is_nan_value (get_balance s' a) = true).
  { intros a Ha. rewrite (get_balance_mined _ _ _ _ a Hmine).
    apply balance_step_keeps_nan. unfold queued_balance.
    cbn [pending_transactions]. rewrite fold_left_app. cbn [fold_left].
    apply balance_step_nan_value; assumption. }
  split; apply Hall; unfold involves; rewrite address_eqb_refl;
    [reflexivity|apply orb_true_r].
Qed.

(** X16: a balance that is NaN stays NaN and opens every check.  From a
    state in which [get_balance] of an address is NaN, every validly signed
    transaction of that sender is accepted, for any value; and after any
    further calls the balance is still NaN. *)
Theorem nan_balance_is_permanent (s : BlockchainNode) (address : option PublicKey) :
  is_nan_value (get_balance s address) = true ->
  (forall t : Transaction,
     sender_address t = address -> Transaction_validate t = true ->
     submit_transaction s t
     = (Returned, mkNode (miner_address s) (blocks s) (pending_transactions s ++ [t]))) /\
  (forall (fuel : nat) (calls : list Call) (s' : BlockchainNode),
     run fuel calls s = Some s' -> is_nan_value (get_balance s' address) = true).
Proof.
  intros Hnan. split.
  - intros t Hs Hv. apply submit_returns; [exact Hv|].
    rewrite Hs. apply ltb_nan_l. exact Hnan.
  - intros fuel calls. revert s Hnan.
    induction calls as [|c calls IH]; intros s Hnan s' H.
    + injection H as <-. exact Hnan.
    + destruct c as [t|now]; cbn [run] in H.
      * apply (IH (snd (submit_transaction s t))); [|exact H].
        unfold get_balance in *.
        rewrite (proj1 (submit_transaction_blocks s t)). exact Hnan.
      * destruct (mine_block fuel now s) as [s1|] eqn:E; [|discriminate].
        apply (IH s1); [|exact H].
        rewrite (get_balance_mined _ _ _ _ address E).
        apply balance_step_keeps_nan. apply fold_keeps_nan. exact Hnan.
Qed.

(** ** The proof-of-work predicate *)

Lemma substring_all (s : string) : substring 0 (String.length s) s = s.
Proof. induction s as [|c s IH]; [reflexivity|]. simpl. rewrite IH. reflexivity. Qed.

Lemma substring_after (p s : string) :
  substring (String.length p) (String.length s) (p ++ s) = s.
Proof.
  induction p as [|c p IH]; [apply substring_all|]. simpl. exact IH.
Qed.

Lemma length_app (p s : string) :
  String.length (p ++ s) = (String.length p + String.length s)%nat.
Proof. induction p as [|c p IH]; [reflexivity|]. simpl. rewrite IH. reflexivity. Qed.

Lemma substring_split (x : string) : forall n : nat,
  (n <= String.length x)%nat ->
  x = substring 0 n x ++ substring n (String.length x - n) x.
Proof.
  induction x as [|c x IH]; intros n Hn.
  - simpl in Hn. assert (n = 0)%nat by lia. subst n. reflexivity.
  - destruct n as [|n].
    + cbn [substring append]. rewrite Nat.sub_0_r. cbn [String.length substring].
      rewrite substring_all. reflexivity.
    + cbn [substring String.length Nat.sub append]. f_equal.
      apply IH. simpl in Hn. lia.
Qed.

Lemma endswith_spec (x suffix : string) :
  endswith x suffix = true <-> exists p : string, x = p ++ suffix.
Proof.
  unfold endswith. rewrite andb_true_iff, Nat.leb_le, String.eqb_eq. split.
  - intros [Hle Hsub].
    exists (substring 0 (String.length x - String.length suffix) x).
    pose proof (substring_split x (String.length x - String.length suffix)
                  ltac:(lia)) as Hx.
    replace (String.length x - (String.length x - String.length suffix))%nat
      with (String.length suffix) in Hx by lia.
    rewrite Hsub in Hx. exact Hx.
  - intros [p ->]. rewrite length_app. split; [lia|].
    replace (String.length p + String.length suffix - String.length suffix)%nat
      with (String.length p) by lia.
    apply substring_after.
Qed.

(** X17: the predicate [__init__] installs, [lambda x: x.endswith('000')],
    holds for exactly the strings that are some text followed by "000"; in
    particular for no string of fewer than three characters. *)
Theorem proof_of_work_func_spec (x : string) :
  (proof_of_work_func x = true <-> exists p : string, x = p ++ "000") /\
  ((String.length x < 3)%nat -> proof_of_work_func x = false).
Proof.
  split; [apply endswith_spec|].
  intros Hlen. unfold proof_of_work_func, endswith.
  cbn [String.length]. destruct (3 <=? String.length x)%nat eqn:E; [|reflexivity].
  apply Nat.leb_le in E. lia.
Qed.

(** ** Renumbering a block *)

Lemma string_app_assoc (a b c : string) : ((a ++ b) ++ c = a ++ (b ++ c))%string.
Proof. induction a as [|ch a IH]; [reflexivity|]. simpl. rewrite IH. reflexivity. Qed.

Lemma chain_from_replace (pre : list Block) :
  forall (p : string) (b b' : Block) (post : list Block),
  chain_from p (pre ++ b :: post) ->
  prev_block_hash b' = prev_block_hash b ->
  block_hash b' = block_hash b ->
  header_hash b' = header_hash b ->
  chain_from p (pre ++ b' :: post).
Proof.
  induction pre as [|x pre IH]; intros p b b' post Hc Hp Hh Hhh.
  - destruct Hc as (Hprev & (Hm1 & Hm2) & Hrest). cbn [app chain_from]. unfold mined.
    rewrite Hp, Hh, Hhh. auto.
  - destruct Hc as (Hprev & Hm & Hrest). cbn [app chain_from].
    split; [exact Hprev|split; [exact Hm|]].
    apply (IH _ b b' post Hrest Hp Hh Hhh).
Qed.

(** X18: the header is the fields' texts put together without a separator,
    so the number and the timestamp of a block can trade characters.  In a
    chain the node built, overwrite the number and the timestamp of a block
    with values whose texts, one after the other, read the same as before:
    the header hash is the same, and [validate_chain] returns and notices
    nothing. *)
Theorem renumbering_goes_unnoticed
  (s : BlockchainNode) (pre post : list Block) (b : Block) (n : Z) (ts : float) :
  reachable s ->
  blocks s = (pre ++ b :: post)%list ->
  (str_int n ++ str_float ts = str_int (num b) ++ str_float (timestamp b))%string ->
  header_hash (renumber b n ts) = header_hash b /\
  validate_chain
    (mkNode (miner_address s) (pre ++ renumber b n ts :: post) (pending_transactions s))
  = (Returned,
     mkNode (miner_address s) (pre ++ renumber b n ts :: post) (pending_transactions s)).
Proof.
  intros Hr Hbs Htext.
  assert (Hh : header_hash (renumber b n ts) = header_hash b).
  { unfold header_hash, get_header, renumber.
    cbn [num timestamp prev_block_hash nonce transactions].
    rewrite <- (string_app_assoc (str_int n)), <- (string_app_assoc (str_int (num b))).
    rewrite Htext. reflexivity. }
  split; [exact Hh|].
  destruct (reachable_chain_from s Hr) as [Hc _]. rewrite Hbs in Hc.
  unfold validate_chain. cbn [blocks miner_address pending_transactions].
  rewrite (validate_blocks_good _ "-"); [reflexivity|].
  apply (chain_from_replace pre "-" b (renumber b n ts) post Hc);
    [reflexivity|reflexivity|exact Hh].
Qed.

End Further.

(** ** Signing *)

Section Signing.
Context {R : Runtime} {S : Signer}.

Lemma get_core_data_set_signature (t : Transaction) (sg : option string) :
  get_core_data (set_signature t sg) = get_core_data t.
Proof. reflexivity. Qed.

(** X19: what [Transaction.sign] does.  It never touches sender, recipient
    or value.  When it returns, the transaction passes [validate], no
    [submit_transaction] will raise [SignatureInvalid] for it, and signing it
    again with the same key changes nothing.  A transaction without sender
    cannot be signed.  When the check at the end of [sign] raises, the
    signature that failed it has been stored all the same.  And with a key
    whose signatures the sender's public key verifies, [sign] returns. *)
Theorem sign_outcomes (t : Transaction) (key : PrivateKey) :
  (sender_address (snd (Transaction_sign t key)) = sender_address t /\
   recipient_address (snd (Transaction_sign t key)) = recipient_address t /\
   value (snd (Transaction_sign t key)) = value t) /\
  (fst (Transaction_sign t key) = Signed ->
   Transaction_validate (snd (Transaction_sign t key)) = true /\
   (forall s : BlockchainNode,
      fst (submit_transaction s (snd (Transaction_sign t key)))
      <> Raised SignatureInvalid) /\
   Transaction_sign (snd (Transaction_sign t key)) key = Transaction_sign t key) /\
  (sender_address t = None -> fst (Transaction_sign t key) <> Signed) /\
  (fst (Transaction_sign t key) = VerificationRaised ->
   signature (snd (Transaction_sign t key)) = rsa_sign (get_core_data t) key /\
   Transaction_validate (snd (Transaction_sign t key)) = false) /\
  (forall (k : PublicKey) (sg : string),
     sender_address t = Some k ->
     rsa_sign (get_core_data t) key = Some sg ->
     rsa_verify (get_core_data t) sg k = true ->
     Transaction_sign t key = (Signed, set_signature t (Some sg))).
Proof.
  unfold Transaction_sign.
  destruct (rsa_sign (get_core_data t) key) as [sg|] eqn:Esig.
  - destruct (Transaction_validate (set_signature t (Some sg))) eqn:Ev; cbn [fst snd].
    + split; [repeat split|split; [|split; [|split]]].
      * intros _. split; [exact Ev|split].
        -- intros s. unfold submit_transaction. rewrite Ev. cbn [negb].
           destruct (_ <? _)%float; cbn [fst]; discriminate.
        -- rewrite get_core_data_set_signature, Esig.
           change (set_signature (set_signature t (Some sg)) (Some sg))
             with (set_signature t (Some sg)).
           rewrite Ev. reflexivity.
      * intros Hs. unfold Transaction_validate, set_signature in Ev.
        cbn [sender_address] in Ev. rewrite Hs in Ev. discriminate.
      * discriminate.
      * intros k sg' Hs Hsg Hver. injection Hsg as <-. reflexivity.
    + split; [repeat split|split; [discriminate|split; [discriminate|split]]].
      * intros _. split; [reflexivity|exact Ev].
      * intros k sg' Hs Hsg Hver. injection Hsg as <-.
        assert (Hv : Transaction_validate (set_signature t (Some sg))
                     = rsa_verify (get_core_data t) sg k).
        { unfold Transaction_validate. cbn [set_signature sender_address signature].
          rewrite Hs. reflexivity. }
        congruence.
  - cbn [fst snd]. split; [repeat split|split; [discriminate|split; [discriminate|split]]].
    + discriminate.
    + intros k sg Hs Hsg. discriminate.
Qed.

End Signing.

(** ** The nonce search *)

Section Search.
Context {R : Runtime}.

Lemma same_work_set_nonce (b1 b2 : Block) (j1 j2 k : Z) :
  same_work b1 b2 ->
  header_hash (set_nonce (set_nonce b1 j1) k) = header_hash (set_nonce (set_nonce b2 j2) k).
Proof.
  intros (Hn & Ht & Hp & Htx). unfold header_hash, get_header, set_nonce.
  cbn [num timestamp prev_block_hash nonce transactions].
  rewrite Hn, Ht, Hp, Htx. reflexivity.
Qed.

Lemma same_work_meets (b1 b2 : Block) (k : Z) :
  same_work b1 b2 -> meets (set_nonce b1 0) k = meets (set_nonce b2 0) k.
Proof.
  intros H. unfold meets. rewrite (same_work_set_nonce b1 b2 0 0 k H). reflexivity.
Qed.

Lemma same_work_found (b1 b2 : Block) (k : Z) :
  same_work b1 b2 -> found (set_nonce b1 0) k = found (set_nonce b2 0) k.
Proof.
  intros H. unfold found. rewrite (same_work_set_nonce b1 b2 0 0 k H).
  destruct H as (Hn & Ht & Hp & Htx). unfold set_block_hash, set_nonce.
  cbn [num timestamp prev_block_hash nonce transactions block_hash].
  rewrite Hn, Ht, Hp, Htx. reflexivity.
Qed.

(** X20: the search starts over each time.  [execute_pow] sets the nonce
    to 0 and overwrites the hash, so the block it returns depends on the
    number, the timestamp, the previous hash and the transactions only: a
    block that differs in nonce and stored hash gives the same result, and
    so does the result itself when it is searched again.  More iterations
    than the search needed do not change the result either. *)
Theorem execute_pow_starts_over (fuel : nat) (b c : Block) :
  execute_pow fuel b = Some c ->
  (forall fuel' : nat, (fuel <= fuel')%nat -> execute_pow fuel' b = Some c) /\
  (forall b' : Block, same_work b' b -> execute_pow fuel b' = Some c) /\
  execute_pow fuel c = Some c.
Proof.
  unfold execute_pow. intros H.
  destruct (pow_loop_Some _ _ _ H) as (d & Hd & Hc & Hm & Hlt).
  cbn [nonce set_nonce] in Hc, Hm, Hlt. rewrite Z.add_0_l in Hc, Hm.
  assert (Hlt' : forall i : nat, (i < d)%nat -> meets (set_nonce b 0) (Z.of_nat i) = false).
  { intros i Hi. specialize (Hlt i Hi). rewrite Z.add_0_l in Hlt. exact Hlt. }
  assert (Hany : forall (fuel' : nat) (b' : Block),
             (d < fuel')%nat -> same_work b' b ->
             pow_loop fuel' (set_nonce b' 0) = Some c).
  { intros fuel' b' Hf Hs.
    rewrite (pow_loop_first d); cbn [nonce set_nonce]; rewrite ?Z.add_0_l.
    - rewrite (same_work_found b' b _ Hs), Hc. reflexivity.
    - intros i Hi. rewrite (same_work_meets b' b _ Hs). apply Hlt'. exact Hi.
    - rewrite (same_work_meets b' b _ Hs). exact Hm.
    - exact Hf. }
  split; [|split].
  - intros fuel' Hf. apply Hany; [lia|repeat split].
  - intros b' Hs. apply Hany; [exact Hd|exact Hs].
  - apply Hany; [exact Hd|]. rewrite Hc. repeat split.
Qed.

End Search.

(** ** The script at the end of the file *)

Section Script.
Context {R : Runtime} {S : Signer}.

Lemma init_state (fuel : nat) (now : float) (miner : PublicKey) (s : BlockchainNode) :
  BlockchainNode_init fuel now miner = Some s ->
  pending_transactions s = [] /\ miner_address s = miner /\
  forall a : option PublicKey,
    get_balance s a = balance_step a 0%float (reward_for miner).
Proof.
  unfold BlockchainNode_init. intros H.
  pose proof (fun a => get_balance_mined fuel now (mkNode miner [] []) s a H) as Hb.
  apply mine_block_Some in H. destruct H as (k & -> & _).
  split; [reflexivity|split; [reflexivity|]]. exact Hb.
Qed.

Lemma submit_then_mine (fuel : nat) (now : float) (s s' : BlockchainNode) (t : Transaction) :
  pending_transactions s = [] ->
  Transaction_validate t = true ->
  (get_balance s (sender_address t) <? value t)%float = false ->
  mine_block fuel now (snd (submit_transaction s t)) = Some s' ->
  fst (submit_transaction s t) = Returned /\
  pending_transactions s' = [] /\ miner_address s' = miner_address s /\
  forall a : option PublicKey,
    get_balance s' a
    = balance_step a (balance_step a (get_balance s a) t) (reward_for (miner_address s)).
Proof.
  intros Hp Hv Hlt. unfold submit_transaction. rewrite Hv, Hlt. cbn [negb fst snd].
  rewrite Hp. cbn [app]. intros H.
  pose proof (fun a => get_balance_mined fuel now _ s' a H) as Hb.
  apply mine_block_Some in H. destruct H as (k & -> & _).
  split; [reflexivity|split; [reflexivity|split; [reflexivity|]]]. exact Hb.
Qed.

Lemma balance_step_sender (k : PublicKey) (acc : float) (t : Transaction) :
  sender_address t = Some k ->
  balance_step (Some k) acc t = (acc - value t)%float.
Proof. intros H. unfold balance_step. rewrite H, address_eqb_refl. reflexivity. Qed.

Lemma balance_step_recipient (k : PublicKey) (acc : float) (t : Transaction) :
  sender_address t <> Some k -> recipient_address t = k ->
  balance_step (Some k) acc t = (acc + value t)%float.
Proof.
  intros Hs Hr. unfold balance_step.
  apply address_eqb_neq in Hs. rewrite Hs, Hr, address_eqb_refl. reflexivity.
Qed.

Lemma balance_step_reward_miner (miner : PublicKey) (acc : float) :
  balance_step (Some miner) acc (reward_for miner) = (acc + REWARD_AMOUNT)%float.
Proof. apply balance_step_recipient; [discriminate|reflexivity]. Qed.

Lemma sign_signed (t t' : Transaction) (key : PrivateKey) :
  Transaction_sign t key = (Signed, t') ->
  Transaction_validate t' = true /\
  sender_address t' = sender_address t /\
  recipient_address t' = recipient_address t /\ value t' = value t.
Proof.
  unfold Transaction_sign. destruct (rsa_sign (get_core_data t) key) as [sg|]; [|discriminate].
  destruct (Transaction_validate (set_signature t (Some sg))) eqn:Ev; [|discriminate].
  intros H. injection H as <-. split; [exact Ev|]. repeat split.
Qed.

(** X21: the script at the end of the file, for any two keys, any signing
    backend and any times of mining.  When it runs to its end, the two
    funds checks have passed, it has printed 4.5 for the sender, and 1.5 for
    the receiver when that is another key (4.5 again when the sender pays
    itself), and [validate_chain] has returned.  It can only raise in one of
    the two [sign] calls. *)
Theorem main_script_prints (fuel : nat) (public_key : PublicKey)
  (private_key : PrivateKey) (receiving_public_key : PublicKey)
  (now0 now1 now2 : float) (r : ScriptOutcome) :
  main_script fuel public_key private_key receiving_public_key now0 now1 now2 = Some r ->
  (r <> ScriptRaised ->
   r = ScriptPrinted 4.5%float
         (if PublicKey_eqb receiving_public_key public_key then 4.5%float else 1.5%float)
         Returned) /\
  (r = ScriptRaised ->
   fst (Transaction_sign
          (mkTransaction (Some public_key) receiving_public_key 0.5%float None)
          private_key) <> Signed \/
   fst (Transaction_sign
          (mkTransaction (Some public_key) receiving_public_key 1%float None)
          private_key) <> Signed).
Proof.
  unfold main_script.
  destruct (BlockchainNode_init fuel now0 public_key) as [s0|] eqn:E0; [|discriminate].
  destruct (init_state _ _ _ _ E0) as (Hp0 & Hm0 & Hb0).
  destruct (Transaction_sign _ private_key) as [o1 t1] eqn:Es1.
  destruct o1;
    [|intros H; injection H as <-; split; [congruence|intros _; left; discriminate]..].
  destruct (sign_signed _ _ _ Es1) as (Hv1 & Hsd1 & Hrc1 & Hvl1).
  cbn [sender_address recipient_address value] in Hsd1, Hrc1, Hvl1.
  assert (Hlt1 : (get_balance s0 (sender_address t1) <? value t1)%float = false).
  { rewrite Hsd1, Hvl1, Hb0, balance_step_reward_miner. reflexivity. }
  pose proof (submit_returns s0 t1 Hv1 Hlt1) as Esub1.
  destruct (submit_transaction s0 t1) as [o s0'] eqn:Esub1'.
  injection Esub1 as -> Es0'.
  destruct (mine_block fuel now1 s0') as [s1|] eqn:E1; [|discriminate].
  assert (E1' : mine_block fuel now1 (snd (submit_transaction s0 t1)) = Some s1)
    by (rewrite Esub1'; exact E1).
  destruct (submit_then_mine _ _ _ _ _ Hp0 Hv1 Hlt1 E1') as (_ & Hp1 & Hm1 & Hb1).
  destruct (Transaction_sign (mkTransaction _ _ 1%float None) private_key)
    as [o2 t2] eqn:Es2.
  destruct o2;
    [|intros H; injection H as <-; split; [congruence|intros _; right; discriminate]..].
  destruct (sign_signed _ _ _ Es2) as (Hv2 & Hsd2 & Hrc2 & Hvl2).
  cbn [sender_address recipient_address value] in Hsd2, Hrc2, Hvl2.
  assert (Hbal1 : get_balance s1 (Some public_key) = 3.5%float).
  { rewrite Hb1, Hm0, balance_step_reward_miner, (balance_step_sender _ _ _ Hsd1).
    rewrite Hvl1, Hb0, balance_step_reward_miner. reflexivity. }
  assert (Hlt2 : (get_balance s1 (sender_address t2) <? value t2)%float = false).
  { rewrite Hsd2, Hvl2, Hbal1. reflexivity. }
  pose proof (submit_returns s1 t2 Hv2 Hlt2) as Esub2.
  destruct (submit_transaction s1 t2) as [o s1'] eqn:Esub2'.
  injection Esub2 as -> Es1'.
  destruct (mine_block fuel now2 s1') as [s2|] eqn:E2; [|discriminate].
  assert (E2' : mine_block fuel now2 (snd (submit_transaction s1 t2)) = Some s2)
    by (rewrite Esub2'; exact E2).
  destruct (submit_then_mine _ _ _ _ _ Hp1 Hv2 Hlt2 E2') as (_ & Hp2 & Hm2 & Hb2).
  intros H. injection H as <-. split; [intros _|discriminate].
  assert (Hbal2 : get_balance s2 (Some public_key) = 4.5%float).
  { rewrite Hb2, Hm1, Hm0, balance_step_reward_miner, (balance_step_sender _ _ _ Hsd2).
    rewrite Hvl2, Hbal1. reflexivity. }
  assert (Hreach : reachable s2).
  { apply (reachable_mine fuel now2 s1' s2); [|exact E2].
    replace s1' with (snd (submit_transaction s1 t2)) by (rewrite Esub2'; reflexivity).
    apply reachable_submit.
    apply (reachable_mine fuel now1 s0' s1); [|exact E1].
    replace s0' with (snd (submit_transaction s0 t1)) by (rewrite Esub1'; reflexivity).
    apply reachable_submit.
    apply (reachable_init fuel now0 public_key s0 E0). }
  assert (Hval : fst (validate_chain s2) = Returned).
  { destruct (reachable_chain_from s2 Hreach) as [Hc _].
    unfold validate_chain. rewrite (validate_blocks_good _ "-" Hc). reflexivity. }
  rewrite Hval, Hbal2.
  destruct (PublicKey_eqb receiving_public_key public_key) eqn:Ek.
  - apply PublicKey_eqb_eq in Ek. rewrite Ek, Hbal2. reflexivity.
  - apply PublicKey_eqb_neq in Ek.
    assert (Hne : Some public_key <> Some receiving_public_key) by congruence.
    rewrite Hb2, Hm1, Hm0, (balance_step_reward_other _ _ _ Ek).
    rewrite balance_step_recipient; [|rewrite Hsd2; exact Hne|exact Hrc2].
    rewrite Hb1, Hm0, (balance_step_reward_other _ _ _ Ek).
    rewrite balance_step_recipient; [|rewrite Hsd1; exact Hne|exact Hrc1].
    rewrite Hb0, (balance_step_reward_other _ _ _ Ek), Hvl1, Hvl2. reflexivity.
Qed.

End Script.

(** ** The further properties on the example states *)

Lemma validate_chain_returns_iff_witness :
  fst (validate_chain (R := toy_runtime) node_paid) = Returned /\
  header_chain (R := toy_runtime) "-" (blocks node_paid) /\
  snd (validate_chain (R := toy_runtime) node_paid)
  = mkNode (miner_address node_paid) (map (refresh (R := toy_runtime)) (blocks node_paid))
      (pending_transactions node_paid).
Proof.
  assert (H : fst (validate_chain (R := toy_runtime) node_paid) = Returned)
    by (vm_compute; reflexivity).
  exact (conj H
           (conj (proj1 (proj1 (validate_chain_returns_iff (R := toy_runtime) node_paid)) H)
                 (proj1 (proj2 (validate_chain_returns_iff (R := toy_runtime) node_paid) H)))).
Defined.

Lemma validate_chain_ignores_stored_hashes_witness :
  Forall2 same_header (blocks node_paid)
    (map (fun b => set_block_hash b EmptyString) (blocks node_paid)) /\
  fst (validate_chain (R := toy_runtime) node_paid)
  = fst (validate_chain (R := toy_runtime)
           (mkNode alice (map (fun b => set_block_hash b EmptyString) (blocks node_paid)) [])).
Proof.
  assert (H : Forall2 same_header (blocks node_paid)
                (map (fun b => set_block_hash b EmptyString) (blocks node_paid))).
  { repeat (constructor; [repeat split|]). constructor. }
  exact (conj H
           (proj1 (validate_chain_ignores_stored_hashes (R := toy_runtime) node_paid
                     (mkNode alice
                        (map (fun b => set_block_hash b EmptyString) (blocks node_paid)) [])
                     H))).
Defined.

Lemma validate_chain_accepts_reachable_witness :
  reachable (R := toy_runtime) node_paid /\
  validate_chain (R := toy_runtime) node_paid = (Returned, node_paid).
Proof.
  exact (conj node_paid_reachable
           (validate_chain_accepts_reachable (R := toy_runtime) node_paid
              node_paid_reachable)).
Defined.

Lemma block_numbers_are_positions_witness :
  reachable (R := toy_runtime) node_paid /\
  nth_error (blocks node_paid) 1 = Some paid_block /\
  num paid_block = 1.
Proof.
  assert (H : nth_error (blocks node_paid) 1 = Some paid_block)
    by (vm_compute; reflexivity).
  exact (conj node_paid_reachable
           (conj H
              (block_numbers_are_positions (R := toy_runtime) node_paid
                 node_paid_reachable 1%nat paid_block H))).
Defined.

Lemma sessions_only_append_witness :
  run (R := toy_runtime) 41
    [Submit (signed alice alice_key bob 1); Mine 1541001133] node_genesis
  = Some node_paid /\
  miner_address node_paid = miner_address node_genesis /\
  exists ext : list Block,
    blocks node_paid = (blocks node_genesis ++ ext)%list /\
    List.length ext
    = count_mines [Submit (signed alice alice_key bob 1); Mine 1541001133].
Proof.
  assert (H : run (R := toy_runtime) 41
                [Submit (signed alice alice_key bob 1); Mine 1541001133] node_genesis
              = Some node_paid) by (vm_compute; reflexivity).
  exact (conj H (sessions_only_append (R := toy_runtime) 41 _ _ _ H)).
Defined.

Lemma chain_holds_validated_transactions_witness :
  reachable (R := toy_runtime) node_paid /\
  Forall (fun t => Transaction_validate (R := toy_runtime) t = true)
    (pending_transactions node_paid) /\
  Forall (fun b => exists txs : list Transaction,
            transactions b
            = (txs ++ [mkTransaction None (miner_address node_paid) REWARD_AMOUNT None])%list /\
            Forall (fun t => Transaction_validate (R := toy_runtime) t = true) txs)
    (blocks node_paid).
Proof.
  exact (conj node_paid_reachable
           (chain_holds_validated_transactions (R := toy_runtime) node_paid
              node_paid_reachable)).
Defined.

Lemma mining_moves_balances_witness :
  mine_block (R := toy_runtime) 41 1541001133
    (snd (submit_transaction (R := toy_runtime) node_genesis
            (signed alice alice_key bob 1)))
  = Some node_paid /\
  get_balance node_paid (Some bob)
  = balance_step (Some bob)
      (fold_left (balance_step (Some bob)) [signed alice alice_key bob 1]
         (get_balance node_genesis (Some bob)))
      (mkTransaction None alice REWARD_AMOUNT None).
Proof.
  assert (H : mine_block (R := toy_runtime) 41 1541001133
                (snd (submit_transaction (R := toy_runtime) node_genesis
                        (signed alice alice_key bob 1)))
              = Some node_paid) by (vm_compute; reflexivity).
  exact (conj H
           (proj1 (mining_moves_balances (R := toy_runtime) 41 1541001133 _ _ H)
              (Some bob))).
Defined.

Lemma construction_yields_genesis_witness :
  BlockchainNode_init (R := toy_runtime) 41 genesis_time alice = Some node_genesis /\
  get_balance node_genesis (Some alice) = 2%float /\
  get_balance node_genesis None = (-2)%float.
Proof.
  assert (H : BlockchainNode_init (R := toy_runtime) 41 genesis_time alice
              = Some node_genesis) by (vm_compute; reflexivity).
  exact (conj H
           (conj (proj1 (proj2 (construction_yields_genesis (R := toy_runtime)
                                  41 genesis_time alice node_genesis H)))
                 (proj2 (proj2 (proj2 (construction_yields_genesis (R := toy_runtime)
                                         41 genesis_time alice node_genesis H)))))).
Defined.

Lemma unseen_address_has_balance_zero_witness :
  (forall t : Transaction, In t (all_transactions node_genesis) ->
     involves (Some bob) t = false) /\
  get_balance node_genesis (Some bob) = 0%float.
Proof.
  assert (H : forall t : Transaction, In t (all_transactions node_genesis) ->
                involves (Some bob) t = false).
  { intros t Hin. vm_compute in Hin. destruct Hin as [<-|[]]. vm_compute. reflexivity. }
  exact (conj H (unseen_address_has_balance_zero node_genesis (Some bob) H)).
Defined.

Lemma get_balance_is_credits_minus_debits_witness :
  (forall t : Transaction, In t (all_transactions node_paid) ->
     sender_address t = Some bob -> Some (recipient_address t) <> Some bob) /\
  get_balance node_paid (Some bob) = spec_get_balance node_paid (Some bob).
Proof.
  assert (H : forall t : Transaction, In t (all_transactions node_paid) ->
                sender_address t = Some bob -> Some (recipient_address t) <> Some bob).
  { intros t Hin Hs. vm_compute in Hin.
    destruct Hin as [<-|[<-|[<-|[]]]]; vm_compute in Hs; discriminate. }
  exact (conj H (get_balance_is_credits_minus_debits node_paid (Some bob) H)).
Defined.

Lemma new_key_cannot_spend_witness :
  Transaction_validate (R := toy_runtime) (signed bob bob_key alice 1) = true /\
  (forall t' : Transaction, In t' (all_transactions node_genesis) ->
     involves (sender_address (signed bob bob_key alice 1)) t' = false) /\
  (0 <? value (signed bob bob_key alice 1))%float = true /\
  submit_transaction (R := toy_runtime) node_genesis (signed bob bob_key alice 1)
  = (Raised (InsufficientFunds (value (signed bob bob_key alice 1)) 0), node_genesis).
Proof.
  assert (H1 : Transaction_validate (R := toy_runtime) (signed bob bob_key alice 1) = true)
    by (vm_compute; reflexivity).
  assert (H2 : forall t' : Transaction, In t' (all_transactions node_genesis) ->
                 involves (sender_address (signed bob bob_key alice 1)) t' = false).
  { intros t Hin. vm_compute in Hin. destruct Hin as [<-|[]]. vm_compute. reflexivity. }
  assert (H3 : (0 <? value (signed bob bob_key alice 1))%float = true)
    by (vm_compute; reflexivity).
  exact (conj H1 (conj H2 (conj H3
           (new_key_cannot_spend (R := toy_runtime) node_genesis _ H1 H2 H3)))).
Defined.

Lemma balance_of_None_is_minus_the_rewards_witness :
  reachable (R := toy_runtime) node_paid /\
  get_balance node_paid None
  = Nat.iter (List.length (blocks node_paid)) (fun x => (x - REWARD_AMOUNT)%float) 0%float.
Proof.
  exact (conj node_paid_reachable
           (balance_of_None_is_minus_the_rewards (R := toy_runtime) node_paid
              node_paid_reachable)).
Defined.

Lemma nan_value_is_accepted_witness :
  Transaction_validate (R := toy_runtime) nan_transfer = true /\
  is_nan_value (value nan_transfer) = true /\
  mine_block (R := toy_runtime) 41 1541001080
    (snd (submit_transaction (R := toy_runtime) node_genesis nan_transfer))
  = Some node_nan /\
  submit_transaction (R := toy_runtime) node_genesis nan_transfer
  = (Returned,
     mkNode (miner_address node_genesis) (blocks node_genesis)
       (pending_transactions node_genesis ++ [nan_transfer])) /\
  is_nan_value (get_balance node_nan (sender_address nan_transfer)) = true /\
  is_nan_value (get_balance node_nan (Some (recipient_address nan_transfer))) = true.
Proof.
  assert (H1 : Transaction_validate (R := toy_runtime) nan_transfer = true)
    by (vm_compute; reflexivity).
  assert (H2 : is_nan_value (value nan_transfer) = true) by (vm_compute; reflexivity).
  assert (H3 : mine_block (R := toy_runtime) 41 1541001080
                 (snd (submit_transaction (R := toy_runtime) node_genesis nan_transfer))
               = Some node_nan) by (vm_compute; reflexivity).
  exact (conj H1 (conj H2 (conj H3
           (conj (proj1 (nan_value_is_accepted (R := toy_runtime) node_genesis
                           nan_transfer H1 H2))
                 (proj2 (nan_value_is_accepted (R := toy_runtime) node_genesis
                           nan_transfer H1 H2) 41%nat 1541001080%float node_nan H3))))).
Defined.

Lemma nan_balance_is_permanent_witness :
  is_nan_value (get_balance node_nan (Some alice)) = true /\
  submit_transaction (R := toy_runtime) node_nan (signed alice alice_key bob 1000)
  = (Returned,
     mkNode (miner_address node_nan) (blocks node_nan)
       (pending_transactions node_nan ++ [signed alice alice_key bob 1000])).
Proof.
  assert (H : is_nan_value (get_balance node_nan (Some alice)) = true)
    by (vm_compute; reflexivity).
  assert (Hv : Transaction_validate (R := toy_runtime) (signed alice alice_key bob 1000)
               = true) by (vm_compute; reflexivity).
  exact (conj H
           (proj1 (nan_balance_is_permanent (R := toy_runtime) node_nan (Some alice) H)
              (signed alice alice_key bob 1000) eq_refl Hv)).
Defined.

Lemma proof_of_work_func_spec_witness :
  (exists p : string, "5d3000" = p ++ "000") /\ proof_of_work_func "5d3000" = true.
Proof.
  assert (H : exists p : string, "5d3000" = p ++ "000") by (exists "5d3"; reflexivity).
  exact (conj H (proj2 (proj1 (proof_of_work_func_spec "5d3000")) H)).
Defined.

Lemma renumbering_goes_unnoticed_witness :
  reachable (R := toy_runtime) node_paid /\
  blocks node_paid = ([genesis_block] ++ paid_block :: [])%list /\
  (str_int 11 ++ str_float (Runtime := toy_runtime) 541001133
   = str_int (num paid_block) ++ str_float (Runtime := toy_runtime) (timestamp paid_block))%string /\
  header_hash (R := toy_runtime) (renumber paid_block 11 541001133)
  = header_hash (R := toy_runtime) paid_block /\
  validate_chain (R := toy_runtime)
    (mkNode (miner_address node_paid)
       ([genesis_block] ++ renumber paid_block 11 541001133 :: [])
       (pending_transactions node_paid))
  = (Returned,
     mkNode (miner_address node_paid)
       ([genesis_block] ++ renumber paid_block 11 541001133 :: [])
       (pending_transactions node_paid)).
Proof.
  assert (H1 : blocks node_paid = ([genesis_block] ++ paid_block :: [])%list)
    by (vm_compute; reflexivity).
  assert (H2 : (str_int 11 ++ str_float (Runtime := toy_runtime) 541001133
                = str_int (num paid_block)
                  ++ str_float (Runtime := toy_runtime) (timestamp paid_block))%string)
    by (vm_compute; reflexivity).
  exact (conj node_paid_reachable (conj H1 (conj H2
           (renumbering_goes_unnoticed (R := toy_runtime) node_paid [genesis_block] []
              paid_block 11 541001133 node_paid_reachable H1 H2)))).
Defined.

Lemma sign_outcomes_witness :
  rsa_sign (Signer := toy_signer)
    (get_core_data (R := toy_runtime) (mkTransaction (Some alice) bob 1 None))
    alice_private
  = Some (toy_sign (get_core_data (R := toy_runtime) (mkTransaction (Some alice) bob 1 None))
            (pk_n alice) alice_key) /\
  rsa_verify (Runtime := toy_runtime)
    (get_core_data (R := toy_runtime) (mkTransaction (Some alice) bob 1 None))
    (toy_sign (get_core_data (R := toy_runtime) (mkTransaction (Some alice) bob 1 None))
       (pk_n alice) alice_key)
    alice = true /\
  Transaction_sign (R := toy_runtime) (S := toy_signer)
    (mkTransaction (Some alice) bob 1 None) alice_private
  = (Signed, signed alice alice_key bob 1).
Proof.
  assert (H1 : rsa_sign (Signer := toy_signer)
                 (get_core_data (R := toy_runtime) (mkTransaction (Some alice) bob 1 None))
                 alice_private
               = Some (toy_sign
                         (get_core_data (R := toy_runtime)
                            (mkTransaction (Some alice) bob 1 None))
                         (pk_n alice) alice_key)) by reflexivity.
  assert (H2 : rsa_verify (Runtime := toy_runtime)
                 (get_core_data (R := toy_runtime) (mkTransaction (Some alice) bob 1 None))
                 (toy_sign
                    (get_core_data (R := toy_runtime)
                       (mkTransaction (Some alice) bob 1 None))
                    (pk_n alice) alice_key)
                 alice = true) by (vm_compute; reflexivity).
  exact (conj H1 (conj H2
           (proj2 (proj2 (proj2 (proj2
              (sign_outcomes (R := toy_runtime) (S := toy_signer)
                 (mkTransaction (Some alice) bob 1 None) alice_private))))
              alice _ eq_refl H1 H2))).
Defined.

Lemma execute_pow_starts_over_witness :
  execute_pow (R := toy_runtime) 41 (new_block genesis_time (mkNode alice [] []))
  = Some genesis_block /\
  execute_pow (R := toy_runtime) 41 genesis_block = Some genesis_block.
Proof.
  assert (H : execute_pow (R := toy_runtime) 41
                (new_block genesis_time (mkNode alice [] []))
              = Some genesis_block) by (vm_compute; reflexivity).
  exact (conj H
           (proj2 (proj2 (execute_pow_starts_over (R := toy_runtime) 41 _ _ H)))).
Defined.

Lemma main_script_prints_witness :
  main_script (R := toy_runtime) (S := toy_signer) 41 alice alice_private bob
    genesis_time 1541001591 1541001946
  = Some (ScriptPrinted 4.5 1.5 Returned) /\
  (ScriptPrinted 4.5 1.5 Returned <> ScriptRaised ->
   ScriptPrinted 4.5 1.5 Returned
   = ScriptPrinted 4.5 (if PublicKey_eqb bob alice then 4.5%float else 1.5%float) Returned).
Proof.
  assert (H : main_script (R := toy_runtime) (S := toy_signer) 41 alice alice_private bob
                genesis_time 1541001591 1541001946
              = Some (ScriptPrinted 4.5 1.5 Returned)) by (vm_compute; reflexivity).
  exact (conj H
           (proj1 (main_script_prints (R := toy_runtime) (S := toy_signer) 41 alice
                     alice_private bob genesis_time 1541001591 1541001946 _ H))).
Defined.
